(** * TheDogAPI client: a shallow embedding of [src/api.js]

    The client fetches batches of random dog images, normalises every raw
    item, filters it against a caller-supplied ban list and retries up to
    [maxAttempts] times.  The development follows the layers of the file:

    - the fragment of JavaScript the client relies on (values, truthiness,
      [||] and [&&], property reads, [String], the string methods);
    - [normalizeImageObj] and [isBanned], pure functions on values;
    - the network and the console as a logged world, and [fetchRandomDog]
      as a computation over it;
    - the properties of the retrieval loop.

    Two revisions of the client are in the repository.  The current one
    scans a batch of five items and keeps breedless items as a fallback;
    it is modelled at top level.  The earlier one asks for a single item
    and requires a breed; it is modelled in [Module Strict]. *)

From Stdlib Require Import String Ascii List ZArith Lia Bool DecimalString.
Import ListNotations.
Open Scope string_scope.
Open Scope Z_scope.

Set Warnings "-register-all".

(** ** JavaScript values *)

(** JSON numbers are IEEE doubles.  The client never computes with the
    numbers it receives: it only tests them for truthiness and prints
    them with [String].  Both operations are kept abstract. *)
Class Numbers : Type := {
  number : Type;
  number_truthy : number -> bool;
  number_toString : number -> string
}.

(** Errors are objects with a [name] and a [message]. *)
Record JsError : Type := mkError { err_name : string; err_message : string }.

Definition Error (msg : string) : JsError := mkError "Error" msg.
Definition TypeError (msg : string) : JsError := mkError "TypeError" msg.

(** Completion of a pure expression: a value, or a thrown error. *)
Inductive Res (A : Type) : Type :=
| Ok (a : A)
| Throw (e : JsError).
Arguments Ok {A} a.
Arguments Throw {A} e.

Definition res_bind {A B} (r : Res A) (k : A -> Res B) : Res B :=
  match r with
  | Ok a => k a
  | Throw e => Throw e
  end.

Declare Scope res_scope.
Delimit Scope res_scope with res.
Notation "x <- c ;; k" := (res_bind c (fun x => k))
  (at level 61, c at next level, right associativity) : res_scope.

(** *** Strings

    A string is a sequence of UTF-16 code units; the model covers the code
    units U+0000 to U+00FF (one [ascii] each), a range closed under
    [toLowerCase] and [trim]. *)

(** [WhiteSpace] and [LineTerminator] code units below U+0100: TAB, LF, VT,
    FF, CR, SP and NBSP. *)
Definition isWhiteSpace (c : ascii) : bool :=
  let n := N_of_ascii c in
  (((9 <=? n) && (n <=? 13)) || (n =? 32) || (n =? 160))%N.

Fixpoint trimStart (s : string) : string :=
  match s with
  | EmptyString => EmptyString
  | String c r => if isWhiteSpace c then trimStart r else s
  end.

Fixpoint trimEnd (s : string) : string :=
  match s with
  | EmptyString => EmptyString
  | String c r =>
      let r' := trimEnd r in
      if isWhiteSpace c && (r' =? "")%string then EmptyString else String c r'
  end.

(** [s.trim()] *)
Definition trim (s : string) : string := trimEnd (trimStart s).

(** Lower-case mapping of one code unit: A-Z, and U+00C0..U+00DE except the
    multiplication sign U+00D7, move up by 32. *)
Definition lowerChar (c : ascii) : ascii :=
  let n := N_of_ascii c in
  if (((65 <=? n) && (n <=? 90)) ||
      ((192 <=? n) && (n <=? 222) && negb (n =? 215)))%N
  then ascii_of_N (n + 32) else c.

(** [s.toLowerCase()] *)
Fixpoint toLowerCase (s : string) : string :=
  match s with
  | EmptyString => EmptyString
  | String c r => String (lowerChar c) (toLowerCase r)
  end.

(** [s.split(',')]: the pieces between commas; never an empty list. *)
Fixpoint split_comma (s : string) : list string :=
  match s with
  | EmptyString => [EmptyString]
  | String c r =>
      match split_comma r with
      | [] => [String c EmptyString]
      | p :: ps =>
          if (c =? ",")%char then EmptyString :: p :: ps
          else String c p :: ps
      end
  end.

(** [encodeURIComponent]: unreserved characters stay, every other code
    unit is written as the percent-escaped bytes of its UTF-8 encoding. *)
Definition isUnreserved (c : ascii) : bool :=
  let n := N_of_ascii c in
  (((65 <=? n) && (n <=? 90)) || ((97 <=? n) && (n <=? 122)) ||
   ((48 <=? n) && (n <=? 57)) ||
   (n =? 45) || (n =? 95) || (n =? 46) || (n =? 33) || (n =? 126) ||
   (n =? 42) || (n =? 39) || (n =? 40) || (n =? 41))%N.

Definition hexDigit (n : N) : ascii :=
  if (n <? 10)%N then ascii_of_N (48 + n) else ascii_of_N (55 + n).

Definition percentByte (n : N) : string :=
  String "%" (String (hexDigit (n / 16)) (String (hexDigit (n mod 16)) "")).

Definition encodeUnit (c : ascii) : string :=
  let n := N_of_ascii c in
  if isUnreserved c then String c ""
  else if (n <? 128)%N then percentByte n
  else percentByte (192 + n / 64) ++ percentByte (128 + n mod 64).

Fixpoint encodeURIComponent (s : string) : string :=
  match s with
  | EmptyString => EmptyString
  | String c r => encodeUnit c ++ encodeURIComponent r
  end.

(** The code unit [c] occurs in [s]. *)
Fixpoint mentions (c : ascii) (s : string) : bool :=
  match s with
  | EmptyString => false
  | String c' r => (c =? c')%char || mentions c r
  end.

(** Decimal rendering of an integer, as a template literal prints it. *)
Definition decimal (z : Z) : string := NilZero.string_of_int (Z.to_int z).

Section JavaScript.

Context {NUM : Numbers}.

Inductive value : Type :=
| JUndefined
| JNull
| JBool (b : bool)
| JNum (n : number)
| JStr (s : string)
| JArr (items : list value)
| JObj (props : list (string * value)).

(** ToBoolean *)
Definition truthy (v : value) : bool :=
  match v with
  | JUndefined | JNull => false
  | JBool b => b
  | JNum n => number_truthy n
  | JStr s => negb (s =? "")%string
  | JArr _ | JObj _ => true
  end.

(** [a || b] and [a && b]; operands are pure, so laziness is invisible. *)
Definition or_ (a b : value) : value := if truthy a then a else b.
Definition and_ (a b : value) : value := if truthy a then b else a.

(** A default parameter or destructuring default: [d] stands in for
    [undefined], and for nothing else. *)
Definition orDefault (v d : value) : value :=
  match v with
  | JUndefined => d
  | _ => v
  end.

(** [v == null] *)
Definition nullish (v : value) : bool :=
  match v with
  | JUndefined | JNull => true
  | _ => false
  end.

(** Own property of an object written as a list of bindings; the first
    binding of a key is the one the object holds. *)
Fixpoint ownProp (k : string) (props : list (string * value)) : value :=
  match props with
  | [] => JUndefined
  | (k', v) :: rest => if (k =? k')%string then v else ownProp k rest
  end.

Fixpoint hasOwn (k : string) (props : list (string * value)) : bool :=
  match props with
  | [] => false
  | (k', _) :: rest => (k =? k')%string || hasOwn k rest
  end.

(** [v.k] for a receiver that is not [null] or [undefined] and a key [k]
    that is neither an index, nor [length], nor a name found on a built-in
    prototype: only an object can hold it.  Every read of the client is of
    this kind, except the reads on the ban list, see [readProp]. *)
Definition getField (v : value) (k : string) : value :=
  match v with
  | JObj props => ownProp k props
  | _ => JUndefined
  end.

(** [v.k] for an arbitrary receiver: reading a property of [null] or
    [undefined] throws. *)
Definition readProp (v : value) (k : string) : Res value :=
  if nullish v
  then Throw (TypeError ("Cannot read properties of " ++
                         (match v with JNull => "null" | _ => "undefined" end) ++
                         " (reading '" ++ k ++ "')"))
  else Ok (getField v k).

(** [v[0]] for a receiver that is not [null] or [undefined]. *)
Definition index0 (v : value) : value :=
  match v with
  | JArr (x :: _) => x
  | JStr (String c _) => JStr (String c "")
  | JObj props => ownProp "0" props
  | _ => JUndefined
  end.

Definition isArray (v : value) : bool :=
  match v with
  | JArr _ => true
  | _ => false
  end.

(** The elements of an array; used only under [isArray]. *)
Definition elements (v : value) : list value :=
  match v with
  | JArr items => items
  | _ => []
  end.

(** [String(v)].  An array joins its elements with commas, printing
    [null] and [undefined] as nothing.  A parsed object prints as
    [[object Object]], unless it has an own [toString] property: that one
    is not callable, [valueOf] returns no primitive, and the conversion
    throws. *)
Fixpoint toString (v : value) : Res string :=
  match v with
  | JUndefined => Ok "undefined"
  | JNull => Ok "null"
  | JBool true => Ok "true"
  | JBool false => Ok "false"
  | JNum n => Ok (number_toString n)
  | JStr s => Ok s
  | JArr items =>
      (fix join (l : list value) : Res string :=
         match l with
         | [] => Ok ""
         | x :: rest =>
             (s <- (if nullish x then Ok "" else toString x) ;;
              match rest with
              | [] => Ok s
              | _ => t <- join rest ;; Ok (s ++ "," ++ t)
              end)%res
         end) items
  | JObj props =>
      if hasOwn "toString" props
      then Throw (TypeError "Cannot convert object to primitive value")
      else Ok "[object Object]"
  end.

End JavaScript.

(** ** The pure part of the client *)

Section Client.

Context {NUM : Numbers}.

Definition THE_DOG_API_BASE : string := "https://api.thedogapi.com/v1/images/search".
Definition THE_DOG_IMAGE : string := "https://api.thedogapi.com/v1/images".

(** [Array.isArray(v) && v.length > 0], also written
    [Array.isArray(v) && v.length]. *)
Definition isNonEmptyArray (v : value) : bool :=
  isArray v && (0 <? Z.of_nat (List.length (elements v))).

(** [normalizeImageObj(imgObj)]: the record [{ id, imageUrl, attributes,
    hasBreed }], or [null] for a falsy item. *)
Definition normalizeImageObj (imgObj : value) : value :=
  if negb (truthy imgObj) then JNull else
  let id :=
    or_ (or_ (getField imgObj "id")
             (and_ (and_ (getField imgObj "breeds")
                         (index0 (getField imgObj "breeds")))
                   (getField (index0 (getField imgObj "breeds")) "id")))
        JNull in
  let imageUrl := or_ (getField imgObj "url") JNull in
  let breedObj :=
    if isNonEmptyArray (getField imgObj "breeds")
    then index0 (getField imgObj "breeds") else JNull in
  let attributes :=
    JObj [ ("breed",
            if truthy breedObj then or_ (getField breedObj "name") (JStr "")
            else JStr "");
           ("temperament",
            if truthy breedObj then or_ (getField breedObj "temperament") (JStr "")
            else JStr "");
           ("life_span",
            if truthy breedObj then or_ (getField breedObj "life_span") (JStr "")
            else JStr "");
           ("weight",
            if truthy breedObj
            then or_ (and_ (getField breedObj "weight")
                           (or_ (getField (getField breedObj "weight") "imperial")
                                (getField (getField breedObj "weight") "metric")))
                     (JStr "")
            else JStr "") ] in
  JObj [ ("id", id); ("imageUrl", imageUrl); ("attributes", attributes);
         ("hasBreed", JBool (truthy breedObj)) ].

(** The helper [eq] of [isBanned]: exact compare, case-insensitive. *)
Definition eq_ (a b : value) : Res bool :=
  if nullish a || nullish b then Ok false
  else (sa <- toString a ;;
        sb <- toString b ;;
        Ok (toLowerCase (trim sa) =? toLowerCase (trim sb))%string)%res.

(** [for (const b of bannedVals) { if (eq(a, b)) return true; }]:
    [Ok true] when the loop returns, [Ok false] when it runs to its end. *)
Fixpoint anyEq (a : value) (bannedVals : list value) : Res bool :=
  match bannedVals with
  | [] => Ok false
  | b :: rest =>
      (hit <- eq_ a b ;;
       if (hit : bool) then Ok true else anyEq a rest)%res
  end.

(** One round of the loop over the scalar keys. *)
Definition scalarCheck (attrs banList : value) (key : string) : Res bool :=
  (bannedVals <- readProp banList key ;;
   if isNonEmptyArray bannedVals
   then anyEq (getField attrs key) (elements bannedVals)
   else Ok false)%res.

(** [for (const key of ['breed', 'life_span', 'weight']) ...] *)
Fixpoint scalarLoop (attrs banList : value) (keys : list string) : Res bool :=
  match keys with
  | [] => Ok false
  | key :: rest =>
      (hit <- scalarCheck attrs banList key ;;
       if (hit : bool) then Ok true else scalarLoop attrs banList rest)%res
  end.

Definition scalarKeys : list string := ["breed"; "life_span"; "weight"].

(** [temperament.split(',').map(t => t.trim().toLowerCase()).filter(Boolean)] *)
Definition temperamentTokens (temperament : string) : list string :=
  filter (fun t => negb (t =? "")%string)
         (map (fun t => toLowerCase (trim t)) (split_comma temperament)).

(** [tokens.includes(b)] *)
Definition includes (tokens : list string) (b : string) : bool :=
  existsb (fun t => (t =? b)%string) tokens.

(** [for (const banned of banList.temperament) ...] *)
Fixpoint anyToken (tokens : list string) (banned : list value) : Res bool :=
  match banned with
  | [] => Ok false
  | x :: rest =>
      (s <- toString x ;;
       if includes tokens (toLowerCase (trim s)) then Ok true
       else anyToken tokens rest)%res
  end.

(** The temperament block of [isBanned]. *)
Definition temperamentCheck (attrs banList : value) : Res bool :=
  (bannedVals <- readProp banList "temperament" ;;
   if isNonEmptyArray bannedVals then
     match or_ (getField attrs "temperament") (JStr "") with
     | JStr temperament =>
         anyToken (temperamentTokens temperament) (elements bannedVals)
     | _ => Throw (TypeError "temperament.split is not a function")
     end
   else Ok false)%res.

(** [isBanned(item, banList = {})] *)
Definition isBanned (item banList : value) : Res bool :=
  let banList := orDefault banList (JObj []) in
  if negb (truthy item) then Ok true else
  let attrs := or_ (getField item "attributes") (JObj []) in
  (hit <- scalarLoop attrs banList scalarKeys ;;
   if (hit : bool) then Ok true else temperamentCheck attrs banList)%res.

End Client.

(** ** The world of the client: network, timers and console *)

(** Completion of a computation: it returned, it threw, or the model ran
    out of fuel before the loop ended. *)
Inductive Outcome (A : Type) : Type :=
| Returned (a : A)
| Thrown (e : JsError)
| OutOfFuel.
Arguments Returned {A} a.
Arguments Thrown {A} e.
Arguments OutOfFuel {A}.

Section World.

Context {NUM : Numbers}.

(** What [await fetch(...)] resolves to.  [json] is the completion of
    [res.json()]: the parsed body, or the error of a body that does not
    parse. *)
Record Response : Type := mkResponse {
  ok : bool;
  status : Z;
  statusText : string;
  json : Res value
}.

(** The effects a run leaves behind, oldest first. *)
Inductive Event : Type :=
| EFetch (url : string) (headers : value) (timeout : Z)
| ESleep (ms : Z)
| EDebug (msg : string) (args : list value).

Definition World : Type := list Event.

(** The runtime around one invocation: whether [fetch] exists, the access
    key in [import.meta.env], and the network.  [network n url] is what the
    request number [n] of the run (counted from 0) completes with when it
    goes to [url]: a response, or the rejection of the transport or of the
    abort issued by the timer of [fetchWithTimeout]. *)
Record Env : Type := mkEnv {
  fetchAvailable : bool;
  VITE_APP_ACCESS_KEY : value;
  network : nat -> string -> Res Response
}.

Definition isFetch (e : Event) : bool :=
  match e with
  | EFetch _ _ _ => true
  | _ => false
  end.

Definition fetchCount (w : World) : nat := List.length (filter isFetch w).

Definition Comp (A : Type) : Type := World -> Outcome A * World.

Definition ret {A} (a : A) : Comp A := fun w => (Returned a, w).

Definition throw {A} (e : JsError) : Comp A := fun w => (Thrown e, w).

Definition bind {A B} (c : Comp A) (k : A -> Comp B) : Comp B :=
  fun w =>
    match c w with
    | (Returned a, w') => k a w'
    | (Thrown e, w') => (Thrown e, w')
    | (OutOfFuel, w') => (OutOfFuel, w')
    end.

(** [try { c } catch (e) { handler(e) }] *)
Definition tryCatch {A} (c : Comp A) (handler : JsError -> Comp A) : Comp A :=
  fun w =>
    match c w with
    | (Thrown e, w') => handler e w'
    | r => r
    end.

Definition liftRes {A} (r : Res A) : Comp A :=
  match r with
  | Ok a => ret a
  | Throw e => throw e
  end.

Definition emit (e : Event) : Comp unit := fun w => (Returned tt, (w ++ [e])%list).

End World.

Declare Scope comp_scope.
Delimit Scope comp_scope with comp.
Notation "x <- c ;; k" := (bind c (fun x => k))
  (at level 61, c at next level, right associativity) : comp_scope.
Notation "c ;; k" := (bind c (fun _ => k))
  (at level 61, right associativity) : comp_scope.

(** ** The retrieval loop *)

Section Retrieval.

Context {NUM : Numbers}.
Variable env : Env.

(** [fetchWithTimeout(url, options, timeout)]: one request; the timer and
    the abort controller decide nothing but which completion the network
    gives. *)
Definition fetchWithTimeout (url : string) (headers : value) (timeout : Z)
  : Comp Response :=
  fun w =>
    let n := fetchCount w in
    match network env n url with
    | Ok res => (Returned res, (w ++ [EFetch url headers timeout])%list)
    | Throw e => (Thrown e, (w ++ [EFetch url headers timeout])%list)
    end.

(** [await new Promise(r => setTimeout(r, ms))] *)
Definition sleep (ms : Z) : Comp unit := emit (ESleep ms).

(** [console.debug(msg, ...args)] *)
Definition debug (msg : string) (args : list value) : Comp unit :=
  emit (EDebug msg args).

(** The options object; an absent field ([undefined] for the ban list)
    takes the default of the destructuring pattern. *)
Record Options : Type := mkOptions {
  opt_banList : value;
  opt_maxAttempts : option Z;
  opt_timeout : option Z
}.

(** [{ banList = {}, maxAttempts = 8, timeout = 8000 }] *)
Definition banListOf (options : Options) : value :=
  orDefault (opt_banList options) (JObj []).

Definition maxAttemptsOf (options : Options) : Z :=
  match opt_maxAttempts options with
  | Some n => n
  | None => 8
  end.

Definition timeoutOf (options : Options) : Z :=
  match opt_timeout options with
  | Some n => n
  | None => 8000
  end.

Variable banList : value.
Variable maxAttempts : Z.
Variable timeout : Z.

Definition apiKey : value := or_ (VITE_APP_ACCESS_KEY env) (JStr "").

Definition headers : value :=
  if truthy apiKey then JObj [("x-api-key", apiKey)] else JObj [].

Definition url : string :=
  THE_DOG_API_BASE ++ "?limit=5&size=med&has_breeds=1&mime_types=jpg,png".

Definition exhausted : JsError :=
  Error "No non-banned result found after maximum attempts".

(** The inner [try]/[catch] around the detail lookup.  [Some enriched]
    when the block ends in [return enriched]. *)
Definition enrich (normalized : value) : Comp (option value) :=
  tryCatch
    (id <- liftRes (toString (getField normalized "id")) ;;
     let detailUrl := THE_DOG_IMAGE ++ "/" ++ encodeURIComponent id in
     detailRes <- fetchWithTimeout detailUrl headers timeout ;;
     if ok detailRes then
       detailObj <- liftRes (json detailRes) ;;
       let enriched := normalizeImageObj detailObj in
       if truthy enriched && truthy (getField enriched "hasBreed") then
         banned <- liftRes (isBanned enriched banList) ;;
         if negb banned then
           debug "fetchRandomDog: enriched image with breed from details"
                 [getField enriched "id"] ;;
           ret (Some enriched)
         else ret None
       else ret None
     else ret None)%comp
    (fun e =>
       debug "fetchRandomDog: enrichment failed for"
             [getField normalized "id"; JStr (err_message e)] ;;
       ret None)%comp.

(** Where control goes after the body of [for (const imgObj of data)]:
    out of the function with a result, or on with the loop and the current
    [fallback]. *)
Inductive Flow : Type :=
| Return (result : value)
| Next (fallback : value).

Definition scanItem (imgObj fallback : value) : Comp Flow :=
  let normalized := normalizeImageObj imgObj in
  if negb (truthy normalized) then ret (Next fallback) else
  (banned <- liftRes (isBanned normalized banList) ;;
   if (banned : bool) then
     debug "fetchRandomDog: item is banned, skipping"
           [getField normalized "id"] ;;
     ret (Next fallback)
   else if truthy (getField normalized "hasBreed") then
     debug "fetchRandomDog: accepted item with breed"
           [getField normalized "id"] ;;
     ret (Return normalized)
   else
     r <- enrich normalized ;;
     match r with
     | Some enriched => ret (Return enriched)
     | None =>
         ret (Next (if negb (truthy fallback) then normalized else fallback))
     end)%comp.

Fixpoint scanBatch (data : list value) (fallback : value) : Comp Flow :=
  match data with
  | [] => ret (Next fallback)
  | imgObj :: rest =>
      (f <- scanItem imgObj fallback ;;
       match f with
       | Return result => ret (Return result)
       | Next fallback' => scanBatch rest fallback'
       end)%comp
  end.

(** The [try] block of one attempt.  [Some result] when it ends in a
    [return], [None] when control goes back to the head of the [while]. *)
Definition attemptBody : Comp (option value) :=
  (res <- fetchWithTimeout url headers timeout ;;
   if negb (ok res) then
     throw (Error ("TheDogAPI error: " ++ decimal (status res) ++ " " ++
                   statusText res))
   else
     data <- liftRes (json res) ;;
     if negb (isArray data) || (Z.of_nat (List.length (elements data)) =? 0)
     then ret None
     else
       f <- scanBatch (elements data) JNull ;;
       match f with
       | Return result => ret (Some result)
       | Next fallback =>
           if truthy fallback then
             debug "fetchRandomDog: accepting non-breed fallback"
                   [getField fallback "id"] ;;
             ret (Some fallback)
           else
             sleep 300 ;;
             ret None
       end)%comp.

(** [while (attempt < maxAttempts) { attempt += 1; try {...} catch {...} }]
    followed by the final [throw].  One unit of fuel per iteration. *)
Fixpoint retryLoop (fuel : nat) (attempt : Z) : Comp value :=
  if attempt <? maxAttempts then
    match fuel with
    | O => fun w => (OutOfFuel, w)
    | S fuel' =>
        let attempt := attempt + 1 in
        (r <- tryCatch attemptBody
                (fun err =>
                   if attempt >=? maxAttempts then throw err
                   else sleep 300 ;; ret None) ;;
         match r with
         | Some result => ret result
         | None => retryLoop fuel' attempt
         end)%comp
    end
  else throw exhausted.

End Retrieval.

Section Entry.

Context {NUM : Numbers}.

(** [fetchRandomDog({ banList = {}, maxAttempts = 8, timeout = 8000 } = {})];
    the loop gets one unit of fuel for every attempt it may make. *)
Definition fetchRandomDog (env : Env) (options : Options) : Comp value :=
  let banList := banListOf options in
  let maxAttempts := maxAttemptsOf options in
  let timeout := timeoutOf options in
  if negb (fetchAvailable env)
  then throw (Error "fetch is not available in this environment")
  else retryLoop env banList maxAttempts timeout (Z.to_nat maxAttempts) 0.

End Entry.

(** ** The earlier revision: one item per request, a breed required *)

Module Strict.

Section Client.

Context {NUM : Numbers}.

(** [normalizeImageObj(imgObj)]: [null] when there is no usable breed. *)
Definition normalizeImageObj (imgObj : value) : value :=
  if negb (truthy imgObj) then JNull else
  let id :=
    or_ (or_ (getField imgObj "id")
             (and_ (and_ (getField imgObj "breeds")
                         (index0 (getField imgObj "breeds")))
                   (getField (index0 (getField imgObj "breeds")) "id")))
        JNull in
  let imageUrl := or_ (getField imgObj "url") JNull in
  let breedObj :=
    if isNonEmptyArray (getField imgObj "breeds")
    then index0 (getField imgObj "breeds") else JNull in
  if negb (truthy breedObj) then JNull else
  let attributes :=
    JObj [ ("breed", or_ (getField breedObj "name") (JStr ""));
           ("temperament", or_ (getField breedObj "temperament") (JStr ""));
           ("life_span", or_ (getField breedObj "life_span") (JStr ""));
           ("weight",
            or_ (and_ (getField breedObj "weight")
                      (or_ (getField (getField breedObj "weight") "imperial")
                           (getField (getField breedObj "weight") "metric")))
                (JStr "")) ] in
  JObj [ ("id", id); ("imageUrl", imageUrl); ("attributes", attributes) ].

(** [isBanned(item, banList = {})]: a malformed item counts as banned. *)
Definition isBanned (item banList : value) : Res bool :=
  let banList := orDefault banList (JObj []) in
  if negb (truthy item) || negb (truthy (getField item "attributes"))
  then Ok true else
  let attrs := getField item "attributes" in
  (hit <- scalarLoop attrs banList scalarKeys ;;
   if (hit : bool) then Ok true else temperamentCheck attrs banList)%res.

End Client.

Section Retrieval.

Context {NUM : Numbers}.
Variable env : Env.
Variable banList : value.
Variable maxAttempts : Z.
Variable timeout : Z.

Definition url : string :=
  THE_DOG_API_BASE ++ "?limit=1&size=med&has_breeds=1&mime_types=jpg,png".

(** The [try] block of one attempt. *)
Definition attemptBody : Comp (option value) :=
  (res <- fetchWithTimeout env url (headers env) timeout ;;
   if negb (ok res) then
     throw (Error ("TheDogAPI error: " ++ decimal (status res) ++ " " ++
                   statusText res))
   else
     data <- liftRes (json res) ;;
     let imgObj := if isNonEmptyArray data then index0 data else JNull in
     let normalized := normalizeImageObj imgObj in
     if negb (truthy normalized) then ret None
     else
       banned <- liftRes (isBanned normalized banList) ;;
       if (banned : bool) then sleep 300 ;; ret None
       else ret (Some normalized))%comp.

Fixpoint retryLoop (fuel : nat) (attempt : Z) : Comp value :=
  if attempt <? maxAttempts then
    match fuel with
    | O => fun w => (OutOfFuel, w)
    | S fuel' =>
        let attempt := attempt + 1 in
        (r <- tryCatch attemptBody
                (fun err =>
                   if attempt >=? maxAttempts then throw err
                   else sleep 300 ;; ret None) ;;
         match r with
         | Some result => ret result
         | None => retryLoop fuel' attempt
         end)%comp
    end
  else throw exhausted.

End Retrieval.

Section Entry.

Context {NUM : Numbers}.

Definition fetchRandomDog (env : Env) (options : Options) : Comp value :=
  let banList := banListOf options in
  let maxAttempts := maxAttemptsOf options in
  let timeout := timeoutOf options in
  if negb (fetchAvailable env)
  then throw (Error "fetch is not available in this environment")
  else retryLoop env banList maxAttempts timeout (Z.to_nat maxAttempts) 0.

End Entry.

End Strict.

(** ** Vocabulary of the properties *)

(** Numbers that are integers, for closed examples. *)
Definition IntegerNumbers : Numbers :=
  {| number := Z;
     number_truthy := fun z => negb (z =? 0);
     number_toString := decimal |}.

Section Vocabulary.

Context {NUM : Numbers}.

(** The attribute keys of the data contract. *)
Definition fixedKeys : list string :=
  ["breed"; "temperament"; "life_span"; "weight"].

(** The attribute object [isBanned] works on: [item.attributes || {}]. *)
Definition attrsOf (item : value) : value :=
  or_ (getField item "attributes") (JObj []).

(** A record obeys the contract on attributes when its [attributes] object
    has the four keys and nothing else, each bound to data of the source
    (a truthy value) or to the empty string. *)
Definition FixedAttributes (record : value) : Prop :=
  exists props,
    getField record "attributes" = JObj props /\
    map fst props = fixedKeys /\
    Forall (fun kv => truthy (snd kv) = true \/ snd kv = JStr "") props.

(** The attributes of a record without metadata. *)
Definition emptyAttributes : value :=
  JObj [("breed", JStr ""); ("temperament", JStr "");
        ("life_span", JStr ""); ("weight", JStr "")].

(** The decision of [isBanned] on one key: the round of the scalar loop
    for [key], or the temperament block. *)
Definition bannedOn (key : string) (item banList : value) : Res bool :=
  let banList := orDefault banList (JObj []) in
  if (key =? "temperament")%string
  then temperamentCheck (attrsOf item) banList
  else scalarCheck (attrsOf item) banList key.

(** The record carries no data under [key]: the value is the empty string,
    or there is no value at all. *)
Definition noData (item : value) (key : string) : Prop :=
  getField (attrsOf item) key = JStr "" \/
  getField (attrsOf item) key = JUndefined.

(** The banned values a ban list holds under [key]. *)
Definition bannedValues (banList : value) (key : string) : list value :=
  elements (getField (orDefault banList (JObj [])) key).

(** A banned value that is blank: a string of white space only. *)
Definition blank (b : value) : Prop :=
  exists s, toString b = Ok s /\ trim s = "".

(** Two ban lists agree on [keys] when reading each key gives the same. *)
Definition agreeOn (keys : list string) (banList1 banList2 : value) : Prop :=
  forall k, In k keys ->
    readProp (orDefault banList1 (JObj [])) k =
    readProp (orDefault banList2 (JObj [])) k.

(** Equality of two strings the way the ban list compares them. *)
Definition sameText (a b : string) : Prop :=
  toLowerCase (trim a) = toLowerCase (trim b).

(** A record is clear of a ban list: no scalar attribute has the text of a
    banned string under its key, and no temperament token is one of the
    banned strings under [temperament]. *)
Definition clearOf (record banList : value) : Prop :=
  (forall key a b,
      In key scalarKeys ->
      In (JStr b) (bannedValues banList key) ->
      toString (getField (attrsOf record) key) = Ok a ->
      ~ sameText a b) /\
  (forall temperament token b,
      In (JStr b) (bannedValues banList "temperament") ->
      getField (attrsOf record) "temperament" = JStr temperament ->
      In token (temperamentTokens temperament) ->
      token <> toLowerCase (trim b)).

End Vocabulary.

(** *** Vocabulary of runs *)

Section RunVocabulary.

Context {NUM : Numbers}.
Variable env : Env.
Variable banList : value.
Variable timeout : Z.

(** The address of the detail lookup for a record. *)
Definition detailUrl (record : value) : Res string :=
  (id <- toString (getField record "id") ;;
   Ok (THE_DOG_IMAGE ++ "/" ++ encodeURIComponent id))%res.

(** A primary call is a request to the search endpoint. *)
Definition isPrimary (e : Event) : bool :=
  match e with
  | EFetch u _ _ => (u =? url)%string
  | _ => false
  end.

Definition primaryCalls (trace : list Event) : nat :=
  List.length (filter isPrimary trace).

(** What the scan makes of one raw item before any lookup: it skips it
    (falsy or excluded by the ban list), it fails on it ([isBanned]
    throws), or it holds a candidate that is not excluded, with breed data
    or without. *)
Inductive Verdict : Type :=
| Skipped
| Failed (e : JsError)
| Complete (candidate : value)
| Incomplete (candidate : value).

Definition classify (imgObj : value) : Verdict :=
  let normalized := normalizeImageObj imgObj in
  if negb (truthy normalized) then Skipped else
  match isBanned normalized banList with
  | Throw e => Failed e
  | Ok true => Skipped
  | Ok false =>
      if truthy (getField normalized "hasBreed") then Complete normalized
      else Incomplete normalized
  end.

(** The detail lookup for [record], issued in world [w], is answered by
    an item whose record [enriched] has breed data and passes the ban
    list. *)
Definition Enriched (w : World) (record enriched : value) : Prop :=
  exists du res detailObj,
    detailUrl record = Ok du /\
    network env (fetchCount w) du = Ok res /\
    ok res = true /\
    json res = Ok detailObj /\
    enriched = normalizeImageObj detailObj /\
    truthy enriched = true /\
    truthy (getField enriched "hasBreed") = true /\
    isBanned enriched banList = Ok false.

(** A record the scan may hand back: a normalised item that is not
    excluded by the ban list. *)
Definition Accepted (record : value) : Prop :=
  (exists raw, record = normalizeImageObj raw) /\
  truthy record = true /\
  isBanned record banList = Ok false.

(** The first candidate without breed data in a batch: the record the
    scan keeps as its fallback, [null] when there is none. *)
Fixpoint firstIncomplete (data : list value) : value :=
  match data with
  | [] => JNull
  | imgObj :: rest =>
      match classify imgObj with
      | Incomplete candidate => candidate
      | _ => firstIncomplete rest
      end
  end.

(** No item of the batch ends the scan: each is skipped or is a candidate
    without breed data. *)
Definition noneComplete (data : list value) : Prop :=
  Forall (fun imgObj =>
            classify imgObj = Skipped \/
            exists candidate, classify imgObj = Incomplete candidate) data.

(** [e] is the detail lookup for a candidate of the batch that is not
    excluded and has no breed data. *)
Definition lookupFor (data : list value) (e : Event) : Prop :=
  exists imgObj candidate du,
    In imgObj data /\
    classify imgObj = Incomplete candidate /\
    detailUrl candidate = Ok du /\
    e = EFetch du (headers env) timeout.

(** The batch the network answers to a primary call issued in world
    [w]; empty when the call fails or the body does not parse. *)
Definition batchAt (w : World) : list value :=
  match network env (fetchCount w) url with
  | Ok res =>
      if ok res then
        match json res with
        | Ok data => elements data
        | Throw _ => []
        end
      else []
  | Throw _ => []
  end.

(** Where the record handed back by an attempt started in world [w]
    comes from: a candidate of the batch with breed data, the answer to
    the lookup of a candidate without, or the fallback of a batch in which
    no item ended the scan. *)
Definition Origin (w : World) (result : value) : Prop :=
  (exists x, In x (batchAt w) /\ classify x = Complete result) \/
  (exists x candidate w1,
      In x (batchAt w) /\ classify x = Incomplete candidate /\
      Enriched w1 candidate result) \/
  (noneComplete (batchAt w) /\ result = firstIncomplete (batchAt w) /\
   truthy result = true).

(** A trace made of attempts, the first one started in world [w]: each
    attempt is a primary call followed by events among which every request
    is the lookup of a candidate of the batch answered to that call. *)
Inductive Attempts : World -> list Event -> Prop :=
| Attempts_done (w : World) : Attempts w []
| Attempts_one (w : World) (segment rest : list Event) :
    Forall (lookupFor (batchAt w)) (filter isFetch segment) ->
    Attempts (w ++ EFetch url (headers env) timeout :: segment)%list rest ->
    Attempts w (EFetch url (headers env) timeout :: segment ++ rest)%list.

(** The request number [n] is answered by a batch in which every item is
    excluded: falsy, or banned. *)
Definition allExcluded (n : nat) : Prop :=
  exists res data,
    network env n url = Ok res /\
    ok res = true /\
    json res = Ok data /\
    Forall (fun imgObj => classify imgObj = Skipped) (elements data).

(** The requests of a trace, in order. *)
Definition requests (trace : list Event) : list Event := filter isFetch trace.

End RunVocabulary.

Section LoopVocabulary.

Context {NUM : Numbers}.
Variable env : Env.
Variable banList : value.
Variable maxAttempts : Z.
Variable timeout : Z.

(** The runs of the [while] loop from the head of an iteration, with
    [attempt] attempts made so far: how each iteration ends decides what
    comes next. *)
Inductive LoopRun : Z -> World -> Outcome value -> World -> Prop :=
| Loop_exhausted (attempt : Z) (w : World) :
    maxAttempts <= attempt ->
    LoopRun attempt w (Thrown exhausted) w
| Loop_return (attempt : Z) (w : World) (result : value) (w' : World) :
    attempt < maxAttempts ->
    attemptBody env banList timeout w = (Returned (Some result), w') ->
    LoopRun attempt w (Returned result) w'
| Loop_again (attempt : Z) (w w1 : World) (out : Outcome value) (w' : World) :
    attempt < maxAttempts ->
    attemptBody env banList timeout w = (Returned None, w1) ->
    LoopRun (attempt + 1) w1 out w' ->
    LoopRun attempt w out w'
| Loop_swallow (attempt : Z) (w : World) (e : JsError) (w1 : World)
               (out : Outcome value) (w' : World) :
    attempt + 1 < maxAttempts ->
    attemptBody env banList timeout w = (Thrown e, w1) ->
    LoopRun (attempt + 1) (w1 ++ [ESleep 300])%list out w' ->
    LoopRun attempt w out w'
| Loop_escape (attempt : Z) (w : World) (e : JsError) (w' : World) :
    attempt < maxAttempts ->
    maxAttempts <= attempt + 1 ->
    attemptBody env banList timeout w = (Thrown e, w') ->
    LoopRun attempt w (Thrown e) w'.

(** The attempts left when [attempt] have been made. *)
Definition budget (attempt : Z) : nat := Z.to_nat (maxAttempts - attempt).

(** What a run of the loop leaves behind and how it ends. *)
Definition LoopFacts (attempt : Z) (w : World) (out : Outcome value)
           (w' : World) : Prop :=
  exists trace,
    w' = (w ++ trace)%list /\
    Attempts env banList timeout w trace /\
    (primaryCalls trace <= budget attempt)%nat /\
    match out with
    | Returned result =>
        exists t0 t1,
          trace = (t0 ++ t1)%list /\
          attemptBody env banList timeout (w ++ t0)%list = (Returned (Some result), w') /\
          Origin env banList (w ++ t0)%list result
    | Thrown e =>
        primaryCalls trace = budget attempt /\
        (e = exhausted \/
         exists t0 t1,
           trace = (t0 ++ t1)%list /\
           attemptBody env banList timeout (w ++ t0)%list = (Thrown e, w') /\
           S (primaryCalls t0) = budget attempt)
    | OutOfFuel => False
    end.

End LoopVocabulary.

(** *** Vocabulary of runs of the earlier revision *)

Section StrictVocabulary.

Context {NUM : Numbers}.
Variable env : Env.
Variable banList : value.
Variable maxAttempts : Z.
Variable timeout : Z.

(** A primary call of the earlier revision. *)
Definition isStrictPrimary (e : Event) : bool :=
  match e with
  | EFetch u _ _ => (u =? Strict.url)%string
  | _ => false
  end.

Definition strictPrimaryCalls (trace : list Event) : nat :=
  List.length (filter isStrictPrimary trace).

(** The earlier revision skips the item: no usable breed, or banned. *)
Definition strictSkipped (imgObj : value) : Prop :=
  truthy (Strict.normalizeImageObj imgObj) = false \/
  Strict.isBanned (Strict.normalizeImageObj imgObj) banList = Ok true.

(** The request number [n] is answered by a batch in which every item is
    skipped. *)
Definition strictAllExcluded (n : nat) : Prop :=
  exists res data,
    network env n Strict.url = Ok res /\
    ok res = true /\
    json res = Ok data /\
    Forall strictSkipped (elements data).

(** What a run of the earlier loop leaves behind and how it ends. *)
Definition StrictFacts (attempt : Z) (w : World) (out : Outcome value)
           (trace : list Event) : Prop :=
  (strictPrimaryCalls trace <= budget maxAttempts attempt)%nat /\
  List.length (requests trace) = strictPrimaryCalls trace /\
  match out with
  | Returned _ => True
  | Thrown e =>
      strictPrimaryCalls trace = budget maxAttempts attempt /\
      (e = exhausted \/
       exists t0 t1,
         trace = (t0 ++ t1)%list /\
         Strict.attemptBody env banList timeout (w ++ t0)%list =
         (Thrown e, (w ++ trace)%list) /\
         S (strictPrimaryCalls t0) = budget maxAttempts attempt)
  | OutOfFuel => False
  end.

End StrictVocabulary.

(** *** Sample items, ban lists and networks *)

(** An item of the search endpoint with one breed object. *)
Definition rawDog (id name temperament : string) : value (NUM := IntegerNumbers) :=
  JObj [("id", JStr id);
        ("url", JStr ("https://cdn2.thedogapi.com/images/" ++ id ++ ".jpg"));
        ("breeds",
         JArr [JObj [("name", JStr name);
                     ("temperament", JStr temperament);
                     ("life_span", JStr "10 - 12 years");
                     ("weight", JObj [("imperial", JStr "20 - 35");
                                      ("metric", JStr "9 - 16")])]])].

(** An item without breed data. *)
Definition rawImage (id : string) : value (NUM := IntegerNumbers) :=
  JObj [("id", JStr id);
        ("url", JStr ("https://cdn2.thedogapi.com/images/" ++ id ++ ".jpg"))].

Definition okResponse (body : value (NUM := IntegerNumbers)) : Response :=
  mkResponse true 200 "OK" (Ok body).

Definition beagle : value := rawDog "a1" "Beagle" "Friendly, Curious".
Definition poodle : value := rawDog "p1" "Poodle" "Smart, Active".

Definition noBeagles : value (NUM := IntegerNumbers) :=
  JObj [("breed", JArr [JStr "beagle"])].

Definition sampleOptions (maxAttempts : Z) : Options :=
  mkOptions noBeagles (Some maxAttempts) None.

(** Every search gives a Beagle, two images without breed data and a
    Poodle; the lookup of the first image fails, the lookup of the second
    finds a Husky. *)
Definition sampleEnv : Env :=
  mkEnv true JUndefined
        (fun _ u =>
           if (u =? url)%string
           then Ok (okResponse (JArr [beagle; rawImage "n1"; rawImage "n2"; poodle]))
           else if (u =? THE_DOG_IMAGE ++ "/n1")%string
                then Throw (TypeError "Failed to fetch")
                else Ok (okResponse (rawDog "n2" "Husky" "Loyal"))).

(** Every search, of either revision, gives one Beagle. *)
Definition beagleEnv : Env :=
  mkEnv true JUndefined (fun _ _ => Ok (okResponse (JArr [beagle]))).

(** Every search gives one image without breed data, and no lookup
    succeeds. *)
Definition imageEnv : Env :=
  mkEnv true JUndefined
        (fun _ u =>
           if (u =? url)%string then Ok (okResponse (JArr [rawImage "n1"]))
           else Throw (TypeError "Failed to fetch")).

(** The first request fails in transport, the later ones in the server. *)
Definition failingEnv : Env :=
  mkEnv (NUM := IntegerNumbers) true JUndefined
        (fun n _ =>
           match n with
           | O => Throw (TypeError "Failed to fetch")
           | _ => Ok (mkResponse false 500 "Internal Server Error" (Ok JNull))
           end).

(** A runtime without [fetch]. *)
Definition noFetchEnv : Env :=
  mkEnv (NUM := IntegerNumbers) false JUndefined
        (fun _ _ => Throw (TypeError "fetch is not defined")).

(** ** The application around the client ([src/App.jsx])

    The component keeps the record on display, the ban list and the
    history in React state.  A handler is modelled by what it does to the
    state it finds: the calls of the setters in order, or, for the
    functional updates of the ban list, the next ban list. *)

(** [s.includes(sub)] *)
Fixpoint startsWith (sub s : string) : bool :=
  match sub, s with
  | EmptyString, _ => true
  | String c r, String c' r' => (c =? c')%char && startsWith r r'
  | String _ _, EmptyString => false
  end.

Fixpoint includesText (s sub : string) : bool :=
  startsWith sub s ||
  match s with
  | EmptyString => false
  | String _ r => includesText r sub
  end.

Section Application.

Context {NUM : Numbers}.

(** The own enumerable properties a spread copies: [{ ...v }].  An array
    gives its elements under their indices, a string its code units, any
    other primitive nothing. *)
Fixpoint indexed (i : nat) (items : list value) : list (string * value) :=
  match items with
  | [] => []
  | x :: rest => (decimal (Z.of_nat i), x) :: indexed (S i) rest
  end.

Fixpoint codeUnits (s : string) : list value :=
  match s with
  | EmptyString => []
  | String c r => JStr (String c "") :: codeUnits r
  end.

Definition spread (v : value) : list (string * value) :=
  match v with
  | JObj props => props
  | JArr items => indexed 0 items
  | JStr s => indexed 0 (codeUnits s)
  | _ => []
  end.

(** [obj[k] = v] on an object written as a list of bindings: the binding
    the object holds is replaced, a new key goes to the end. *)
Fixpoint setProp (k : string) (v : value) (props : list (string * value))
  : list (string * value) :=
  match props with
  | [] => [(k, v)]
  | (k', v') :: rest =>
      if (k =? k')%string then (k, v) :: rest
      else (k', v') :: setProp k v rest
  end.

(** [delete obj[k]] *)
Fixpoint deleteProp (k : string) (props : list (string * value))
  : list (string * value) :=
  match props with
  | [] => []
  | (k', v') :: rest =>
      if (k =? k')%string then deleteProp k rest
      else (k', v') :: deleteProp k rest
  end.

(** [arr.some(v => String(v).trim().toLowerCase() === target)] *)
Fixpoint someText (arr : list value) (target : string) : Res bool :=
  match arr with
  | [] => Ok false
  | v :: rest =>
      (s <- toString v ;;
       if (toLowerCase (trim s) =? target)%string then Ok true
       else someText rest target)%res
  end.

(** [arr.some(v => String(v).trim().toLowerCase() ===
                   String(val).trim().toLowerCase())] *)
Fixpoint someSame (arr : list value) (val : value) : Res bool :=
  match arr with
  | [] => Ok false
  | v :: rest =>
      (s <- toString v ;;
       t <- toString val ;;
       if (toLowerCase (trim s) =? toLowerCase (trim t))%string then Ok true
       else someSame rest val)%res
  end.

(** [arr.filter(v => String(v).trim().toLowerCase() !==
                     String(val).trim().toLowerCase())] *)
Fixpoint filterOthers (arr : list value) (val : value) : Res (list value) :=
  match arr with
  | [] => Ok []
  | v :: rest =>
      (s <- toString v ;;
       t <- toString val ;;
       kept <- filterOthers rest val ;;
       Ok (if (toLowerCase (trim s) =? toLowerCase (trim t))%string
           then kept else v :: kept))%res
  end.

(** [addBan(key, value)] as the step it makes from the ban list [prev]:
    [prev] itself when the handler returns early or the value is there
    already.  [key] is an attribute name; [val] stands for [value]. *)
Definition addBan (key : string) (val prev : value) : Res value :=
  if negb (truthy (JStr key)) || nullish val then Ok prev else
  (s <- toString val ;;
   let trimmed := trim s in
   if negb (truthy (JStr trimmed)) then Ok prev else
   cur <- readProp prev key ;;
   let arr := if isArray cur then elements cur else [] in
   exists_ <- someText arr (toLowerCase trimmed) ;;
   if (exists_ : bool) then Ok prev
   else Ok (JObj (setProp key (JArr (arr ++ [JStr trimmed])%list)
                          (spread prev))))%res.

(** [removeBan(key, value)] as the step it makes from [prev].  [key] is an
    own key of the ban list.  A truthy entry that is no array has no
    [filter] to call. *)
Definition removeBan (key : string) (val prev : value) : Res value :=
  (cur <- readProp prev key ;;
   if negb (truthy cur) then Ok prev else
   match cur with
   | JArr items =>
       arr <- filterOthers items val ;;
       let copy := spread prev in
       Ok (JObj (if (0 <? Z.of_nat (List.length arr))
                 then setProp key (JArr arr) copy
                 else deleteProp key copy))
   | _ => Throw (TypeError "prev[key].filter is not a function")
   end)%res.

(** The values of the temperament buttons of the card: a button for every
    piece of the temperament that is not blank, with the trimmed piece. *)
Definition temperamentButtons (temperament : string) : list string :=
  filter (fun v => truthy (JStr v)) (map trim (split_comma temperament)).

(** [[res, ...prev].slice(0, 50)]: only arrays and strings are iterable. *)
Definition pushHistory (res prev : value) : Res value :=
  match prev with
  | JArr items => Ok (JArr (firstn 50 (res :: items)))
  | JStr s => Ok (JArr (firstn 50 (res :: codeUnits s)))
  | _ => Throw (TypeError "prev is not iterable")
  end.

(** The calls of the state setters.  [SetHistory res] is the call with the
    updater [prev => [res, ...prev].slice(0, 50)]. *)
Inductive Setter : Type :=
| SetDog (dog : value)
| SetLoading (loading : bool)
| SetError (error : value)
| SetHistory (res : value).

(** [String(err)] for an error object. *)
Definition errorToString (err : JsError) : string :=
  if (err_name err =? "")%string then err_message err
  else if (err_message err =? "")%string then err_name err
  else err_name err ++ ": " ++ err_message err.

(** The message the [catch] block of [handleFetch] puts on display. *)
Definition errorShown (err : JsError) : string :=
  let msg :=
    if truthy (JStr (err_message err)) then err_message err
    else errorToString err in
  if includesText (toLowerCase msg) "no non-banned"
  then "No available result found after multiple attempts. Try removing some bans and try again."
  else msg.

(** [handleFetch()] in a render whose ban list is [banList]: the setters
    it calls and what it does to the world.  The call of [finally] is
    missing only where the model runs out of fuel. *)
Definition handleFetch (env : Env) (banList : value) (w : World)
  : list Setter * World :=
  let maxAttempts := 8 in
  match fetchRandomDog env (mkOptions banList (Some maxAttempts) None) w with
  | (Returned res, w') =>
      ([SetLoading true; SetError JNull; SetDog res; SetHistory res;
        SetLoading false], w')
  | (Thrown err, w') =>
      ([SetLoading true; SetError JNull; SetError (JStr (errorShown err));
        SetDog JNull; SetLoading false], w')
  | (OutOfFuel, w') => ([SetLoading true; SetError JNull], w')
  end.

(** The state of the component. *)
Record AppState : Type := mkAppState {
  dog : value;
  loading : bool;
  error : value;
  history : value
}.

(** One queued update applied to the state. *)
Definition applySetter (st : AppState) (u : Setter) : Res AppState :=
  match u with
  | SetDog d => Ok (mkAppState d (loading st) (error st) (history st))
  | SetLoading b => Ok (mkAppState (dog st) b (error st) (history st))
  | SetError e => Ok (mkAppState (dog st) (loading st) e (history st))
  | SetHistory res =>
      (h <- pushHistory res (history st) ;;
       Ok (mkAppState (dog st) (loading st) (error st) h))%res
  end.

Fixpoint applySetters (st : AppState) (us : list Setter) : Res AppState :=
  match us with
  | [] => Ok st
  | u :: rest => (st' <- applySetter st u ;; applySetters st' rest)%res
  end.

End Application.

(** The earlier revision of the component: no history, and [addBan] keeps
    the value as it is given. *)
Module EarlierApp.

Section Application.

Context {NUM : Numbers}.

Definition addBan (key : string) (val prev : value) : Res value :=
  if negb (truthy (JStr key)) || nullish val then Ok prev else
  (cur <- readProp prev key ;;
   let arr := if isArray cur then elements cur else [] in
   exists_ <- someSame arr val ;;
   if (exists_ : bool) then Ok prev
   else Ok (JObj (setProp key (JArr (arr ++ [val])%list) (spread prev))))%res.

End Application.

End EarlierApp.

(** *** Vocabulary of the further properties *)

Section FurtherVocabulary.

Context {NUM : Numbers}.

(** A record the card can show: the four attributes are strings. *)
Definition Displayable (record : value) : Prop :=
  truthy record = true /\
  forall key, In key fixedKeys ->
    exists s, getField (attrsOf record) key = JStr s.

(** A ban list whose banned values, under the four keys, are strings. *)
Definition StringBans (banList : value) : Prop :=
  nullish banList = false /\
  forall key v, In key fixedKeys -> In v (bannedValues banList key) ->
    exists s, v = JStr s.

(** The record matches the ban list: a scalar attribute has the text of a
    string banned under its key, or a token of the temperament is a string
    banned under temperament. *)
Definition Matches (record banList : value) : Prop :=
  (exists key a b,
      In key scalarKeys /\
      In (JStr b) (bannedValues banList key) /\
      getField (attrsOf record) key = JStr a /\
      sameText a b) \/
  (exists temperament token b,
      In (JStr b) (bannedValues banList "temperament") /\
      getField (attrsOf record) "temperament" = JStr temperament /\
      In token (temperamentTokens temperament) /\
      token = toLowerCase (trim b)).

(** A list of banned values as the current [addBan] and [removeBan] leave
    it: strings that are trimmed and not empty, no two the same up to
    case, and at least one. *)
Definition cleanValues (vals : list value) : Prop :=
  exists strs,
    vals = map JStr strs /\
    strs <> [] /\
    Forall (fun s => trim s = s /\ s <> "") strs /\
    NoDup (map toLowerCase strs).

(** A ban list as the current component keeps it: an object whose every
    key holds a clean list. *)
Definition BanListOK (banList : value) : Prop :=
  exists props,
    banList = JObj props /\
    forall k, hasOwn k props = true ->
      exists vals, ownProp k props = JArr vals /\ cleanValues vals.

Definition isSleep (e : Event) : bool :=
  match e with
  | ESleep _ => true
  | _ => false
  end.

(** The pauses of a trace, in milliseconds. *)
Fixpoint pauseTime (trace : list Event) : Z :=
  match trace with
  | [] => 0
  | ESleep ms :: rest => ms + pauseTime rest
  | _ :: rest => pauseTime rest
  end.

(** A computation that never pauses. *)
Definition quiet {A} (c : Comp A) : Prop :=
  forall w out w', c w = (out, w') -> pauseTime w' = pauseTime w.

End FurtherVocabulary.

Section RetryVocabulary.

Context {NUM : Numbers}.
Variable env : Env.

(** The request number [n], sent to the search endpoint, fails: the
    transport rejects, the status is not ok, or the body does not parse. *)
Definition primaryFails (n : nat) : Prop :=
  match network env n url with
  | Throw _ => True
  | Ok res => ok res = false \/ exists e, json res = Throw e
  end.

(** The request number [n], sent to the search endpoint, is answered by
    the batch [data], which is not empty. *)
Definition answersBatch (n : nat) (data : list value) : Prop :=
  exists res,
    network env n url = Ok res /\
    ok res = true /\
    json res = Ok (JArr data) /\
    data <> [].

(** The events of [k] failed attempts that were not the last. *)
Fixpoint failedAttempts (timeout : Z) (k : nat) : list Event :=
  match k with
  | O => []
  | S k' => EFetch url (headers env) timeout :: ESleep 300
            :: failedAttempts timeout k'
  end.

End RetryVocabulary.

(** The ban lists the component reaches.  It starts from [{}]; the
    buttons of the card call [addBan] with one of the four attribute
    names, the buttons of the ban list call [removeBan] with a key of the
    ban list.  (A ban list read back from storage was built the same way
    in an earlier session.) *)
Section Reach.

Context {NUM : Numbers}.

Inductive Built : value -> Prop :=
| Built_initial : Built (JObj [])
| Built_add (key : string) (val prev next : value) :
    In key fixedKeys ->
    Built prev ->
    addBan key val prev = Ok next ->
    Built next
| Built_remove (key : string) (val prev next : value) :
    In key fixedKeys ->
    Built prev ->
    removeBan key val prev = Ok next ->
    Built next.

End Reach.

(** The first search fails in transport, the second in the server, the
    later ones give a Poodle. *)
Definition recoveringEnv : Env :=
  mkEnv (NUM := IntegerNumbers) true JUndefined
        (fun n _ =>
           match n with
           | O => Throw (TypeError "Failed to fetch")
           | S O => Ok (mkResponse false 500 "Internal Server Error" (Ok JNull))
           | _ => Ok (okResponse (JArr [poodle]))
           end).

(** A ban list with two breeds and a temperament. *)
Definition someBans : value (NUM := IntegerNumbers) :=
  JObj [("breed", JArr [JStr "Beagle"; JStr "Pug"]);
        ("temperament", JArr [JStr "Stubborn"])].

(** ** Properties of the normaliser *)

Section NormalizerFacts.

Context {NUM : Numbers}.

Lemma or_empty_shape (v : value) :
  truthy (or_ v (JStr "")) = true \/ or_ v (JStr "") = JStr "".
Proof.
  unfold or_. destruct (truthy v) eqn:E; [left; exact E | right; reflexivity].
Qed.

Lemma or_empty_not_nullish (v : value) : nullish (or_ v (JStr "")) = false.
Proof.
  unfold or_. destruct (truthy v) eqn:E; [| reflexivity].
  destruct v; simpl in *; congruence.
Qed.

Lemma normalizeImageObj_null_iff (imgObj : value) :
  normalizeImageObj imgObj = JNull <-> truthy imgObj = false.
Proof.
  unfold normalizeImageObj. destruct (truthy imgObj); simpl; split; congruence.
Qed.

Lemma normalizeImageObj_truthy (imgObj : value) :
  truthy (normalizeImageObj imgObj) = truthy imgObj.
Proof.
  unfold normalizeImageObj. destruct (truthy imgObj); reflexivity.
Qed.

(** The record of the current revision always has the four keys. *)
Lemma normalizeImageObj_attributes (imgObj : value) :
  normalizeImageObj imgObj <> JNull ->
  FixedAttributes (normalizeImageObj imgObj).
Proof.
  intros H. unfold normalizeImageObj in *.
  destruct (truthy imgObj); simpl in *; [| congruence].
  eexists. split; [reflexivity |]. split; [reflexivity |].
  destruct (truthy (if isNonEmptyArray _ then _ else _));
    repeat (apply Forall_cons || apply Forall_nil); simpl;
    auto using or_empty_shape.
Qed.

(** Without a breed object every attribute is the empty string. *)
Lemma normalizeImageObj_no_breed (imgObj : value) :
  truthy imgObj = true ->
  isNonEmptyArray (getField imgObj "breeds") = false ->
  getField (normalizeImageObj imgObj) "attributes" = emptyAttributes /\
  getField (normalizeImageObj imgObj) "hasBreed" = JBool false.
Proof.
  intros Ht Hb. unfold normalizeImageObj. rewrite Ht, Hb. simpl. split; reflexivity.
Qed.

Lemma Strict_normalizeImageObj_attributes (imgObj : value) :
  Strict.normalizeImageObj imgObj <> JNull ->
  FixedAttributes (Strict.normalizeImageObj imgObj).
Proof.
  intros H. unfold Strict.normalizeImageObj in *.
  destruct (truthy imgObj); simpl in *; [| congruence].
  destruct (truthy (if isNonEmptyArray _ then _ else _)); simpl in *;
    [| congruence].
  eexists. split; [reflexivity |]. split; [reflexivity |].
  repeat (apply Forall_cons || apply Forall_nil); simpl;
    auto using or_empty_shape.
Qed.

(** C8. Every non-null record of [normalizeImageObj] has an [attributes]
    object with exactly the keys breed, temperament, life_span and weight;
    each is bound to data of the source or to the empty string, never
    left out, and all four are the empty string when the raw item has no
    breed object.  Both revisions of the normaliser obey it. *)
Theorem normalizeImageObj_fixed_keys (imgObj : value) :
  (normalizeImageObj imgObj <> JNull ->
   FixedAttributes (normalizeImageObj imgObj) /\
   (isNonEmptyArray (getField imgObj "breeds") = false ->
    getField (normalizeImageObj imgObj) "attributes" = emptyAttributes)) /\
  (Strict.normalizeImageObj imgObj <> JNull ->
   FixedAttributes (Strict.normalizeImageObj imgObj)).
Proof.
  split.
  - intros H. split.
    + apply normalizeImageObj_attributes, H.
    + intros Hb. apply normalizeImageObj_no_breed; [| exact Hb].
      destruct (truthy imgObj) eqn:E; [reflexivity |].
      exfalso. apply H. apply normalizeImageObj_null_iff, E.
  - apply Strict_normalizeImageObj_attributes.
Qed.

End NormalizerFacts.

(** ** Properties of the ban matcher *)

Section BanMatcherFacts.

Context {NUM : Numbers}.

Lemma toLowerCase_empty (s : string) : toLowerCase s = "" <-> s = "".
Proof. destruct s; simpl; split; congruence. Qed.

Lemma In_fixedKeys (key : string) :
  In key fixedKeys <-> key = "temperament" \/ In key scalarKeys.
Proof. unfold fixedKeys, scalarKeys. simpl. intuition (subst; auto). Qed.

Lemma bannedOn_scalar (key : string) (item banList : value) :
  In key scalarKeys ->
  bannedOn key item banList =
  scalarCheck (attrsOf item) (orDefault banList (JObj [])) key.
Proof.
  unfold scalarKeys. simpl.
  intros [<- | [<- | [<- | []]]]; reflexivity.
Qed.

(** [isBanned] on a truthy item is the four key decisions in the order
    breed, life_span, weight, temperament, stopping at the first hit. *)
Lemma isBanned_by_key (item banList : value) :
  truthy item = true ->
  isBanned item banList =
  (b1 <- bannedOn "breed" item banList ;;
   if (b1 : bool) then Ok true else
   b2 <- bannedOn "life_span" item banList ;;
   if (b2 : bool) then Ok true else
   b3 <- bannedOn "weight" item banList ;;
   if (b3 : bool) then Ok true else
   bannedOn "temperament" item banList)%res.
Proof.
  intros Ht. unfold isBanned, bannedOn, attrsOf. rewrite Ht. simpl.
  destruct (scalarCheck _ _ "breed") as [[|]|]; simpl; try reflexivity.
  destruct (scalarCheck _ _ "life_span") as [[|]|]; simpl; try reflexivity.
  destruct (scalarCheck _ _ "weight") as [[|]|]; simpl; reflexivity.
Qed.

Lemma isBanned_falsy (item banList : value) :
  truthy item = false -> isBanned item banList = Ok true.
Proof. intros H. unfold isBanned. rewrite H. reflexivity. Qed.

Lemma isBanned_false_inv (item banList : value) :
  isBanned item banList = Ok false ->
  truthy item = true /\
  forall key, In key fixedKeys -> bannedOn key item banList = Ok false.
Proof.
  intros H. destruct (truthy item) eqn:Ht.
  - split; [reflexivity |]. rewrite (isBanned_by_key _ _ Ht) in H.
    destruct (bannedOn "breed" item banList) as [[|]|] eqn:E1; simpl in H;
      try discriminate.
    destruct (bannedOn "life_span" item banList) as [[|]|] eqn:E2; simpl in H;
      try discriminate.
    destruct (bannedOn "weight" item banList) as [[|]|] eqn:E3; simpl in H;
      try discriminate.
    unfold fixedKeys. simpl.
    intros key [<- | [<- | [<- | [<- | []]]]]; assumption.
  - rewrite (isBanned_falsy _ _ Ht) in H. discriminate.
Qed.

Lemma isBanned_true_inv (item banList : value) :
  isBanned item banList = Ok true ->
  truthy item = false \/
  exists key, In key fixedKeys /\ bannedOn key item banList = Ok true.
Proof.
  intros H. destruct (truthy item) eqn:Ht; [right | left; reflexivity].
  rewrite (isBanned_by_key _ _ Ht) in H. unfold fixedKeys.
  destruct (bannedOn "breed" item banList) as [[|]|] eqn:E1; simpl in H;
    try discriminate; [exists "breed"; simpl; auto 10 |].
  destruct (bannedOn "life_span" item banList) as [[|]|] eqn:E2; simpl in H;
    try discriminate; [exists "life_span"; simpl; auto 10 |].
  destruct (bannedOn "weight" item banList) as [[|]|] eqn:E3; simpl in H;
    try discriminate; [exists "weight"; simpl; auto 10 |].
  exists "temperament". simpl. auto 10.
Qed.

(** *** The scalar comparison *)

Lemma anyEq_false (a : value) (bannedVals : list value) :
  anyEq a bannedVals = Ok false ->
  forall b, In b bannedVals -> eq_ a b = Ok false.
Proof.
  induction bannedVals as [| x rest IH]; simpl; intros H b Hin; [tauto |].
  destruct (eq_ a x) as [[|]|] eqn:E; simpl in H; try discriminate.
  destruct Hin as [<- | Hin]; [exact E | exact (IH H b Hin)].
Qed.

Lemma anyEq_true (a : value) (bannedVals : list value) :
  anyEq a bannedVals = Ok true ->
  exists b, In b bannedVals /\ eq_ a b = Ok true.
Proof.
  induction bannedVals as [| x rest IH]; simpl; intros H; [discriminate |].
  destruct (eq_ a x) as [[|]|] eqn:E; simpl in H; try discriminate.
  - exists x. auto.
  - destruct (IH H) as [b [Hin Hb]]. exists b. auto.
Qed.

Lemma eq_undefined (b : value) : eq_ JUndefined b = Ok false.
Proof. reflexivity. Qed.

Lemma eq_empty_true (b : value) : eq_ (JStr "") b = Ok true -> blank b.
Proof.
  unfold eq_, blank. simpl. destruct (nullish b); [discriminate |].
  destruct (toString b) as [s |]; simpl; [| discriminate].
  intros H. exists s. split; [reflexivity |].
  injection H as H. apply toLowerCase_empty.
  destruct (toLowerCase (trim s)); [reflexivity | discriminate].
Qed.

Lemma eq_false_text (a : value) (sa sb : string) :
  nullish a = false ->
  toString a = Ok sa ->
  eq_ a (JStr sb) = Ok false ->
  ~ sameText sa sb.
Proof.
  unfold eq_, sameText. intros Hn Ha. rewrite Hn, Ha. simpl.
  intros H Hs. injection H as H. apply String.eqb_neq in H. contradiction.
Qed.

Lemma scalarCheck_false (attrs banList : value) (key : string) :
  scalarCheck attrs banList key = Ok false ->
  forall b, In b (elements (getField banList key)) ->
            eq_ (getField attrs key) b = Ok false.
Proof.
  unfold scalarCheck, readProp. destruct (nullish banList); simpl;
    [discriminate |].
  destruct (isNonEmptyArray (getField banList key)) eqn:E.
  - apply anyEq_false.
  - intros _ b Hin. unfold isNonEmptyArray in E.
    destruct (getField banList key) as [| | | | | items |]; simpl in *;
      try contradiction.
    destruct items; simpl in *; [contradiction | discriminate].
Qed.

Lemma scalarCheck_true (attrs banList : value) (key : string) :
  scalarCheck attrs banList key = Ok true ->
  exists b, In b (elements (getField banList key)) /\
            eq_ (getField attrs key) b = Ok true.
Proof.
  unfold scalarCheck, readProp. destruct (nullish banList); simpl;
    [discriminate |].
  destruct (isNonEmptyArray (getField banList key)); [| discriminate].
  apply anyEq_true.
Qed.

(** *** The temperament comparison *)

Lemma includes_false (tokens : list string) (b : string) :
  includes tokens b = false -> forall t, In t tokens -> t <> b.
Proof.
  unfold includes. intros H t Hin Heq.
  assert (existsb (fun t => (t =? b)%string) tokens = true) as Ht.
  { apply existsb_exists. exists t. split; [exact Hin |].
    apply String.eqb_eq, Heq. }
  congruence.
Qed.

Lemma anyToken_false (tokens : list string) (banned : list value) :
  anyToken tokens banned = Ok false ->
  forall b s, In b banned -> toString b = Ok s ->
              includes tokens (toLowerCase (trim s)) = false.
Proof.
  induction banned as [| x rest IH]; simpl; intros H b s Hin Hs; [tauto |].
  destruct (toString x) as [sx |] eqn:Ex; simpl in H; [| discriminate].
  destruct (includes tokens (toLowerCase (trim sx))) eqn:Ei; [discriminate |].
  destruct Hin as [<- | Hin].
  - rewrite Ex in Hs. injection Hs as <-. exact Ei.
  - exact (IH H b s Hin Hs).
Qed.

Lemma anyToken_nil (banned : list value) : anyToken [] banned <> Ok true.
Proof.
  induction banned as [| x rest IH]; simpl; [discriminate |].
  destruct (toString x); simpl; [exact IH | discriminate].
Qed.

Lemma temperamentTokens_empty : temperamentTokens "" = [].
Proof. reflexivity. Qed.

Lemma temperamentCheck_false (attrs banList : value) (temperament : string) :
  temperamentCheck attrs banList = Ok false ->
  getField attrs "temperament" = JStr temperament ->
  forall b s, In b (elements (getField banList "temperament")) ->
              toString b = Ok s ->
              includes (temperamentTokens temperament) (toLowerCase (trim s))
              = false.
Proof.
  unfold temperamentCheck, readProp. destruct (nullish banList); simpl;
    [discriminate |].
  intros H Ht. rewrite Ht in H.
  destruct (isNonEmptyArray (getField banList "temperament")) eqn:E.
  - assert (or_ (JStr temperament) (JStr "") = JStr temperament) as Hor.
    { unfold or_. simpl. destruct temperament; reflexivity. }
    rewrite Hor in H. apply anyToken_false. exact H.
  - intros b s Hin. unfold isNonEmptyArray in E.
    destruct (getField banList "temperament") as [| | | | | items |];
      simpl in *; try contradiction.
    destruct items; simpl in *; [contradiction | discriminate].
Qed.

(** The tokens of a temperament are its pieces between commas, trimmed
    and in lower case, the empty ones left out. *)
Lemma temperamentTokens_spec (temperament token : string) :
  In token (temperamentTokens temperament) <->
  exists piece,
    In piece (split_comma temperament) /\
    token = toLowerCase (trim piece) /\
    token <> "".
Proof.
  unfold temperamentTokens. rewrite filter_In, in_map_iff. split.
  - intros [[piece [<- Hin]] Hne]. exists piece.
    split; [exact Hin |]. split; [reflexivity |].
    intros Heq. rewrite Heq in Hne. discriminate.
  - intros [piece [Hin [-> Hne]]]. split; [exists piece; auto |].
    destruct (toLowerCase (trim piece)); [contradiction | reflexivity].
Qed.

(** A record that obeys the attribute contract and passes [isBanned] is
    clear of the ban list. *)
Lemma not_banned_clearOf (record banList : value) :
  FixedAttributes record ->
  (forall key, In key fixedKeys -> bannedOn key record banList = Ok false) ->
  clearOf record banList.
Proof.
  intros [props [Hattr [Hkeys Hvals]]] Hkey.
  assert (attrsOf record = JObj props) as Hattrs.
  { unfold attrsOf. rewrite Hattr. reflexivity. }
  split.
  - intros key a b Hin Hb Ha.
    assert (bannedOn key record banList = Ok false) as Hk.
    { apply Hkey, In_fixedKeys. auto. }
    rewrite (bannedOn_scalar _ _ _ Hin) in Hk.
    apply eq_false_text with (a := getField (attrsOf record) key);
      [| exact Ha | exact (scalarCheck_false _ _ _ Hk _ Hb)].
    rewrite Hattrs. simpl.
    destruct props as [| [k1 v1] [| [k2 v2] [| [k3 v3] [| [k4 v4] [| ? ?]]]]];
      simpl in Hkeys; try discriminate.
    injection Hkeys as -> -> -> ->.
    inversion_clear Hvals as [| ? ? H1 Hv2].
    inversion_clear Hv2 as [| ? ? H2 Hv3].
    inversion_clear Hv3 as [| ? ? H3 Hv4].
    inversion_clear Hv4 as [| ? ? H4 _].
    simpl in *.
    assert (forall v, truthy v = true \/ v = JStr "" -> nullish v = false)
      as Hnn.
    { intros v [Hv | ->]; [| reflexivity]. destruct v; simpl in *; congruence. }
    unfold scalarKeys in Hin. simpl in Hin.
    destruct Hin as [<- | [<- | [<- | []]]]; simpl; auto.
  - intros temperament token b Hb Ht Htok.
    assert (bannedOn "temperament" record banList = Ok false) as Hk.
    { apply Hkey. unfold fixedKeys. simpl. auto. }
    unfold bannedOn in Hk. simpl in Hk.
    apply (includes_false (temperamentTokens temperament)); [| exact Htok].
    exact (temperamentCheck_false _ _ _ Hk Ht (JStr b) b Hb eq_refl).
Qed.

Lemma isBanned_false_clearOf (record banList : value) :
  FixedAttributes record ->
  isBanned record banList = Ok false ->
  clearOf record banList.
Proof.
  intros Hf Hb. apply not_banned_clearOf; [exact Hf |].
  apply isBanned_false_inv, Hb.
Qed.

End BanMatcherFacts.

Section BanListReads.

Context {NUM : Numbers}.

Lemma scalarLoop_agree (attrs banList1 banList2 : value) (keys : list string) :
  (forall k, In k keys -> readProp banList1 k = readProp banList2 k) ->
  scalarLoop attrs banList1 keys = scalarLoop attrs banList2 keys.
Proof.
  induction keys as [| key rest IH]; intros H; [reflexivity |].
  simpl. unfold scalarCheck. rewrite (H key (or_introl eq_refl)).
  fold (scalarCheck attrs). rewrite IH; [reflexivity |].
  intros k Hk. apply H. right. exact Hk.
Qed.

Lemma temperamentCheck_agree (attrs banList1 banList2 : value) :
  readProp banList1 "temperament" = readProp banList2 "temperament" ->
  temperamentCheck attrs banList1 = temperamentCheck attrs banList2.
Proof. intros H. unfold temperamentCheck. rewrite H. reflexivity. Qed.

(** C10. Two ban lists that agree on breed, temperament, life_span and
    weight get the same answer from [isBanned] on every item, the same
    boolean or the same error: no other key of the ban list is read.
    Both revisions of [isBanned] obey it. *)
Theorem isBanned_reads_fixed_keys (item banList1 banList2 : value) :
  agreeOn fixedKeys banList1 banList2 ->
  isBanned item banList1 = isBanned item banList2 /\
  Strict.isBanned item banList1 = Strict.isBanned item banList2.
Proof.
  intros H.
  assert (forall attrs,
    scalarLoop attrs (orDefault banList1 (JObj [])) scalarKeys =
    scalarLoop attrs (orDefault banList2 (JObj [])) scalarKeys) as Hs.
  { intros attrs. apply scalarLoop_agree. intros k Hk.
    apply H, In_fixedKeys. auto. }
  assert (forall attrs,
    temperamentCheck attrs (orDefault banList1 (JObj [])) =
    temperamentCheck attrs (orDefault banList2 (JObj []))) as Ht.
  { intros attrs. apply temperamentCheck_agree, H, In_fixedKeys. auto. }
  split.
  - unfold isBanned. rewrite Hs, Ht. reflexivity.
  - unfold Strict.isBanned. rewrite Hs, Ht. reflexivity.
Qed.

(** C5, as the client has it.  A record without data under one of the four
    keys is not excluded on that key when the key is temperament, or when
    the value is missing altogether, or when no banned value of the key is
    blank.  (An empty scalar attribute does match a blank banned value.) *)
Theorem absence_is_no_match (item banList : value) (key : string) :
  In key fixedKeys ->
  noData item key ->
  key = "temperament" \/
  getField (attrsOf item) key = JUndefined \/
  (forall b, In b (bannedValues banList key) -> ~ blank b) ->
  bannedOn key item banList <> Ok true.
Proof.
  intros Hkey Hno Hcase Hb.
  apply In_fixedKeys in Hkey. destruct Hkey as [-> | Hkey].
  - (* temperament: an empty value has no token *)
    unfold bannedOn in Hb. simpl in Hb.
    unfold temperamentCheck in Hb.
    destruct (readProp _ "temperament") as [bannedVals |]; simpl in Hb;
      [| discriminate].
    destruct (isNonEmptyArray bannedVals); [| discriminate].
    assert (or_ (getField (attrsOf item) "temperament") (JStr "") = JStr "")
      as Hor by (destruct Hno as [-> | ->]; reflexivity).
    rewrite Hor in Hb. exact (anyToken_nil _ Hb).
  - rewrite (bannedOn_scalar _ _ _ Hkey) in Hb.
    apply scalarCheck_true in Hb. destruct Hb as [b [Hin Hb]].
    assert (key <> "temperament") as Hne.
    { unfold scalarKeys in Hkey. simpl in Hkey.
      destruct Hkey as [<- | [<- | [<- | []]]]; discriminate. }
    destruct Hcase as [-> | [Hund | Hnb]]; [congruence | |].
    + rewrite Hund in Hb. rewrite eq_undefined in Hb. discriminate.
    + destruct Hno as [He | Hund].
      * rewrite He in Hb. apply eq_empty_true in Hb.
        exact (Hnb b Hin Hb).
      * rewrite Hund in Hb. rewrite eq_undefined in Hb. discriminate.
Qed.

(** The earlier revision excludes every item without an [attributes]
    object, whatever the ban list. *)
Lemma Strict_isBanned_without_attributes (item banList : value) :
  truthy (getField item "attributes") = false ->
  Strict.isBanned item banList = Ok true.
Proof.
  intros H. unfold Strict.isBanned. rewrite H.
  rewrite orb_true_r. reflexivity.
Qed.

End BanListReads.

(** Two ban lists that differ on a key the client does not know. *)
Lemma isBanned_reads_fixed_keys_witness :
  let item : value (NUM := IntegerNumbers) :=
    normalizeImageObj
      (JObj [("id", JStr "BJa4kxc4X");
             ("breeds", JArr [JObj [("name", JStr "Beagle")]])]) in
  let banList1 := JObj [("breed", JArr [JStr "beagle"])] in
  let banList2 := JObj [("colour", JArr [JStr "Beagle"]);
                        ("breed", JArr [JStr "beagle"])] in
  agreeOn fixedKeys banList1 banList2 /\
  isBanned item banList1 = isBanned item banList2 /\
  Strict.isBanned item banList1 = Strict.isBanned item banList2.
Proof.
  intros item banList1 banList2.
  assert (agreeOn fixedKeys banList1 banList2) as H.
  { intros k Hk. unfold fixedKeys in Hk. simpl in Hk.
    destruct Hk as [<- | [<- | [<- | [<- | []]]]]; reflexivity. }
  split; [exact H |].
  exact (isBanned_reads_fixed_keys item banList1 banList2 H).
Defined.

(** A breedless record and the ban list [{ temperament: ["Playful"] }]. *)
Lemma absence_is_no_match_witness :
  let item : value (NUM := IntegerNumbers) :=
    normalizeImageObj (JObj [("id", JStr "BJa4kxc4X")]) in
  let banList := JObj [("temperament", JArr [JStr "Playful"])] in
  In "temperament" fixedKeys /\
  noData item "temperament" /\
  bannedOn "temperament" item banList <> Ok true.
Proof.
  intros item banList.
  assert (In "temperament" fixedKeys) as Hk by (simpl; auto).
  assert (noData item "temperament") as Hn by (left; reflexivity).
  split; [exact Hk |]. split; [exact Hn |].
  exact (absence_is_no_match item banList "temperament" Hk Hn
           (or_introl eq_refl)).
Defined.

(** C5 fails as stated: a record whose breed is the empty string is
    excluded on breed by the ban list [{ breed: [""] }]. *)
Lemma empty_breed_matches_blank_ban :
  let item : value (NUM := IntegerNumbers) :=
    normalizeImageObj (JObj [("id", JStr "BJa4kxc4X")]) in
  let banList := JObj [("breed", JArr [JStr ""])] in
  In "breed" fixedKeys /\
  noData item "breed" /\
  bannedValues banList "breed" <> [] /\
  bannedOn "breed" item banList = Ok true /\
  isBanned item banList = Ok true.
Proof.
  intros item banList.
  split; [simpl; auto |]. split; [left; reflexivity |].
  split; [discriminate |]. split; reflexivity.
Qed.

(** ** Properties of the strings *)

Section StringFacts.

Lemma mentions_app (c : ascii) (s t : string) :
  mentions c (s ++ t) = mentions c s || mentions c t.
Proof.
  induction s as [| c' r IH]; simpl; [reflexivity |].
  rewrite IH. apply orb_assoc.
Qed.

Lemma encodeUnit_no_question (c : ascii) : mentions "?" (encodeUnit c) = false.
Proof.
  destruct c as [[|] [|] [|] [|] [|] [|] [|] [|]]; vm_compute; reflexivity.
Qed.

Lemma encodeURIComponent_no_question (s : string) :
  mentions "?" (encodeURIComponent s) = false.
Proof.
  induction s as [| c r IH]; simpl; [reflexivity |].
  rewrite mentions_app, encodeUnit_no_question, IH. reflexivity.
Qed.

Lemma append_cancel (p s t : string) : p ++ s = p ++ t -> s = t.
Proof.
  induction p as [| c r IH]; simpl; intros H; [exact H |].
  injection H as H. exact (IH H).
Qed.

(** No detail address is the address of the search endpoint. *)
Lemma detail_is_not_primary (id : string) :
  (THE_DOG_IMAGE ++ "/" ++ encodeURIComponent id =? url)%string = false.
Proof.
  apply String.eqb_neq. intros H.
  change url with
    (THE_DOG_IMAGE ++ "/" ++
     "search?limit=5&size=med&has_breeds=1&mime_types=jpg,png") in H.
  apply append_cancel in H. apply append_cancel in H.
  pose proof (encodeURIComponent_no_question id) as Hq.
  rewrite H in Hq. vm_compute in Hq. discriminate.
Qed.

End StringFacts.

(** ** Properties of one scan *)

Open Scope list_scope.

#[local] Arguments String.append : simpl never.

Section ScanFacts.

Context {NUM : Numbers}.
Variable env : Env.
Variable banList : value.
Variable timeout : Z.

Lemma requests_app (t1 t2 : list Event) :
  requests (t1 ++ t2) = requests t1 ++ requests t2.
Proof. apply filter_app. Qed.

Lemma primaryCalls_app (t1 t2 : list Event) :
  primaryCalls (t1 ++ t2) = (primaryCalls t1 + primaryCalls t2)%nat.
Proof. unfold primaryCalls. rewrite filter_app. apply length_app. Qed.

Lemma fetchCount_app (t1 t2 : list Event) :
  fetchCount (t1 ++ t2) = (fetchCount t1 + fetchCount t2)%nat.
Proof. unfold fetchCount. rewrite filter_app. apply length_app. Qed.

Lemma isPrimary_isFetch (e : Event) : isPrimary e = true -> isFetch e = true.
Proof. destruct e; simpl; congruence. Qed.

Lemma primaryCalls_le_requests (t : list Event) :
  (primaryCalls t <= List.length (requests t))%nat.
Proof.
  unfold primaryCalls, requests.
  induction t as [| e r IH]; simpl; [lia |].
  destruct (isPrimary e) eqn:Ep.
  - rewrite (isPrimary_isFetch _ Ep). simpl. lia.
  - destruct (isFetch e); simpl; lia.
Qed.

Lemma detailUrl_not_primary (record : value) (du : string) (h : value) (t : Z) :
  detailUrl record = Ok du -> isPrimary (EFetch du h t) = false.
Proof.
  unfold detailUrl. destruct (toString _) as [id |]; simpl; [| discriminate].
  intros H. injection H as <-. apply detail_is_not_primary.
Qed.

(** The detail lookup never throws and never returns twice: it issues at
    most one request, to the detail address of the record, and hands back
    a record only when the answer has breed data and passes the ban
    list. *)
Lemma enrich_run (normalized : value) (w : World) :
  exists r trace,
    enrich env banList timeout normalized w = (Returned r, w ++ trace) /\
    (requests trace = [] \/
     exists du, detailUrl normalized = Ok du /\
                requests trace = [EFetch du (headers env) timeout]) /\
    (forall enriched, r = Some enriched ->
                      Enriched env banList w normalized enriched).
Proof.
  unfold enrich, tryCatch, bind, liftRes, fetchWithTimeout, detailUrl, debug,
    emit, ret, throw, Enriched.
  destruct (toString (getField normalized "id")) as [id | e0] eqn:Eid; simpl.
  { set (du := (THE_DOG_IMAGE ++ "/" ++ encodeURIComponent id)%string).
    assert (forall rest,
      requests (EFetch du (headers env) timeout :: rest) =
      EFetch du (headers env) timeout :: requests rest) as Hreq by reflexivity.
    destruct (network env (fetchCount w) du) as [res | e1] eqn:Enet; simpl.
    - destruct (ok res) eqn:Eok; simpl.
      + destruct (json res) as [detailObj | e2] eqn:Ejson; simpl.
        * destruct (truthy (normalizeImageObj detailObj)) eqn:Et; simpl.
          -- destruct (truthy (getField (normalizeImageObj detailObj)
                                        "hasBreed")) eqn:Eh; simpl.
             ++ destruct (isBanned (normalizeImageObj detailObj) banList)
                  as [[|] | e3] eqn:Eb; simpl; rewrite <- ?app_assoc;
                  (eexists; eexists; split; [reflexivity |];
                   split; [right; exists du; split; reflexivity |]);
                  try discriminate.
                intros enriched H. injection H as <-.
                exists du, res, detailObj. unfold detailUrl. rewrite Eid.
                repeat split; assumption || reflexivity.
             ++ eexists. eexists. split; [reflexivity |].
                split; [right; exists du; split; reflexivity | discriminate].
          -- eexists. eexists. split; [reflexivity |].
             split; [right; exists du; split; reflexivity | discriminate].
        * rewrite <- app_assoc. eexists. eexists. split; [reflexivity |].
          split; [right; exists du; split; reflexivity | discriminate].
      + eexists. eexists. split; [reflexivity |].
        split; [right; exists du; split; reflexivity | discriminate].
    - rewrite <- app_assoc. eexists. eexists. split; [reflexivity |].
      split; [right; exists du; split; reflexivity | discriminate]. }
  eexists. eexists. split; [reflexivity |]. split; [left; reflexivity |].
  discriminate.
Qed.

#[local] Arguments enrich : simpl never.

(** One round of the scan, by the verdict on the item. *)
Lemma scanItem_run (imgObj fallback : value) (w : World) :
  match classify banList imgObj with
  | Skipped =>
      exists trace,
        scanItem env banList timeout imgObj fallback w =
        (Returned (Next fallback), w ++ trace) /\
        requests trace = []
  | Failed e =>
      scanItem env banList timeout imgObj fallback w = (Thrown e, w)
  | Complete candidate =>
      exists trace,
        scanItem env banList timeout imgObj fallback w =
        (Returned (Return candidate), w ++ trace) /\
        requests trace = []
  | Incomplete candidate =>
      exists r trace,
        enrich env banList timeout candidate w = (Returned r, w ++ trace) /\
        scanItem env banList timeout imgObj fallback w =
        (Returned (match r with
                   | Some enriched => Return enriched
                   | None => Next (if truthy fallback then fallback
                                   else candidate)
                   end), w ++ trace)
  end.
Proof.
  unfold classify, scanItem.
  destruct (truthy (normalizeImageObj imgObj)) eqn:Et; simpl.
  2:{ exists []. rewrite app_nil_r. split; reflexivity. }
  unfold bind at 1. unfold liftRes.
  destruct (isBanned (normalizeImageObj imgObj) banList) as [[|] | e] eqn:Eb;
    simpl.
  - eexists. split; reflexivity.
  - destruct (truthy (getField (normalizeImageObj imgObj) "hasBreed")) eqn:Eh.
    + eexists. split; reflexivity.
    + destruct (enrich_run (normalizeImageObj imgObj) w) as [r [trace [Hr _]]].
      exists r, trace. split; [exact Hr |].
      unfold bind, ret. simpl. rewrite Hr. destruct r; simpl; [reflexivity |].
      destruct (truthy fallback); reflexivity.
  - reflexivity.
Qed.

Lemma classify_Complete (imgObj candidate : value) :
  classify banList imgObj = Complete candidate ->
  candidate = normalizeImageObj imgObj /\
  Accepted banList candidate /\
  truthy (getField candidate "hasBreed") = true.
Proof.
  unfold classify, Accepted.
  destruct (truthy (normalizeImageObj imgObj)) eqn:Et; simpl; [| discriminate].
  destruct (isBanned (normalizeImageObj imgObj) banList) as [[|] | e] eqn:Eb;
    try discriminate.
  destruct (truthy (getField (normalizeImageObj imgObj) "hasBreed")) eqn:Eh;
    [| discriminate].
  intros H. injection H as <-. eauto 10.
Qed.

Lemma classify_Incomplete (imgObj candidate : value) :
  classify banList imgObj = Incomplete candidate ->
  candidate = normalizeImageObj imgObj /\
  Accepted banList candidate /\
  truthy (getField candidate "hasBreed") = false.
Proof.
  unfold classify, Accepted.
  destruct (truthy (normalizeImageObj imgObj)) eqn:Et; simpl; [| discriminate].
  destruct (isBanned (normalizeImageObj imgObj) banList) as [[|] | e] eqn:Eb;
    try discriminate.
  destruct (truthy (getField (normalizeImageObj imgObj) "hasBreed")) eqn:Eh;
    [discriminate |].
  intros H. injection H as <-. eauto 10.
Qed.

Lemma Enriched_Accepted (w : World) (record enriched : value) :
  Enriched env banList w record enriched -> Accepted banList enriched.
Proof.
  intros [du [res [detailObj [_ [_ [_ [_ [He [Ht [_ Hb]]]]]]]]]].
  unfold Accepted. eauto.
Qed.

Lemma lookupFor_mono (data data' : list value) (e : Event) :
  (forall x, In x data -> In x data') ->
  lookupFor env banList timeout data e -> lookupFor env banList timeout data' e.
Proof.
  intros Hsub [imgObj [candidate [du [Hin H]]]].
  exists imgObj, candidate, du. split; [apply Hsub, Hin | exact H].
Qed.

#[local] Arguments scanItem : simpl never.

(** The scan of a batch: it appends to the log, issues no primary call,
    looks up only candidates without breed data, and ends in one of three
    ways. *)
Lemma scanBatch_run (data : list value) :
  forall (fallback : value) (w : World),
  truthy fallback = true \/ fallback = JNull ->
  exists out trace,
    scanBatch env banList timeout data fallback w = (out, w ++ trace) /\
    Forall (lookupFor env banList timeout data) (requests trace) /\
    match out with
    | OutOfFuel => False
    | Thrown e => exists imgObj, In imgObj data /\
                                 classify banList imgObj = Failed e
    | Returned (Return result) =>
        Accepted banList result /\
        truthy (getField result "hasBreed") = true
    | Returned (Next fallback') =>
        noneComplete banList data /\
        fallback' = if truthy fallback then fallback
                    else firstIncomplete banList data
    end.
Proof.
  induction data as [| imgObj rest IH]; intros fallback w Hfb.
  - exists (Returned (Next fallback)), []. rewrite app_nil_r. simpl.
    split; [reflexivity |]. split; [constructor |].
    split; [constructor |].
    destruct Hfb as [-> | ->]; reflexivity.
  - pose proof (scanItem_run imgObj fallback w) as Hitem.
    simpl. unfold bind at 1.
    destruct (classify banList imgObj) as [| e | candidate | candidate] eqn:Ec.
    + (* skipped *)
      destruct Hitem as [t1 [Hrun Hreq]]. rewrite Hrun.
      destruct (IH fallback (w ++ t1) Hfb) as [out [t2 [Hrest [Hlook Hout]]]].
      exists out, (t1 ++ t2). rewrite app_assoc. split; [exact Hrest |].
      split.
      * rewrite requests_app, Hreq. simpl.
        eapply Forall_impl; [| exact Hlook].
        intros e. apply lookupFor_mono. intros x Hx. right. exact Hx.
      * destruct out as [[result | fallback'] | e |]; try exact Hout.
        -- destruct Hout as [Hnone ->]. split.
           ++ constructor; [left; exact Ec | exact Hnone].
           ++ reflexivity.
        -- destruct Hout as [x [Hin Hx]]. exists x. split; [right |]; assumption.
    + (* [isBanned] throws *)
      rewrite Hitem. exists (Thrown e), []. rewrite app_nil_r.
      split; [reflexivity |]. split; [constructor |].
      exists imgObj. split; [left; reflexivity | exact Ec].
    + (* a candidate with breed data *)
      destruct Hitem as [t1 [Hrun Hreq]]. rewrite Hrun.
      exists (Returned (Return candidate)), t1.
      split; [reflexivity |]. split; [rewrite Hreq; constructor |].
      destruct (classify_Complete _ _ Ec) as [_ [Ha Hh]]. split; assumption.
    + (* a candidate without breed data *)
      destruct Hitem as [r [t1 [Henr Hrun]]]. rewrite Hrun.
      destruct (enrich_run candidate w) as [r' [t1' [Henr' [Hreq Hacc]]]].
      rewrite Henr in Henr'. injection Henr' as <- Ht1.
      apply app_inv_head in Ht1. subst t1'.
      destruct (classify_Incomplete _ _ Ec) as [_ [Hcand Hh]].
      assert (Forall (lookupFor env banList timeout (imgObj :: rest))
                     (requests t1)) as Hlook1.
      { destruct Hreq as [-> | [du [Hdu ->]]]; constructor; [| constructor].
        exists imgObj, candidate, du. split; [left; reflexivity |]. auto. }
      destruct r as [enriched |].
      * exists (Returned (Return enriched)), t1.
        split; [reflexivity |]. split; [exact Hlook1 |].
        pose proof (Hacc enriched eq_refl) as He. split.
        -- exact (Enriched_Accepted _ _ _ He).
        -- destruct He as [? [? [? [_ [_ [_ [_ [_ [_ [Hb _]]]]]]]]]]. exact Hb.
      * assert (truthy (if truthy fallback then fallback else candidate) = true
                \/ (if truthy fallback then fallback else candidate) = JNull)
          as Hfb'.
        { left. destruct (truthy fallback) eqn:Ef; [exact Ef |].
          destruct Hcand as [_ [Ht _]]. exact Ht. }
        destruct (IH _ (w ++ t1) Hfb') as [out [t2 [Hrest [Hlook Hout]]]].
        exists out, (t1 ++ t2). rewrite app_assoc. split; [exact Hrest |].
        split.
        -- rewrite requests_app. apply Forall_app. split; [exact Hlook1 |].
           eapply Forall_impl; [| exact Hlook].
           intros e. apply lookupFor_mono. intros x Hx. right. exact Hx.
        -- destruct out as [[result | fallback'] | e |]; try exact Hout.
           ++ destruct Hout as [Hnone ->]. split.
              ** constructor; [right; exists candidate; exact Ec | exact Hnone].
              ** destruct (truthy fallback) eqn:Ef.
                 --- rewrite Ef. reflexivity.
                 --- destruct Hcand as [_ [Ht _]]. rewrite Ht. reflexivity.
           ++ destruct Hout as [x [Hin Hx]]. exists x.
              split; [right |]; assumption.
Qed.

Lemma scanBatch_app (pre rest : list value) :
  forall (fallback : value) (w : World),
  scanBatch env banList timeout (pre ++ rest) fallback w =
  match scanBatch env banList timeout pre fallback w with
  | (Returned (Next fallback'), w') =>
      scanBatch env banList timeout rest fallback' w'
  | other => other
  end.
Proof.
  induction pre as [| x pre IH]; intros fallback w; [reflexivity |].
  simpl. unfold bind.
  destruct (scanItem env banList timeout x fallback w) as [[[r | fb] | e |] w1];
    try reflexivity.
  apply IH.
Qed.

(** A scan that hands back a record stopped at the item that produced it:
    a candidate with breed data, or a candidate whose lookup was answered
    by an acceptable record. *)
Lemma scanBatch_return (data : list value) :
  forall (fallback : value) (w : World) (result : value) (w' : World),
  scanBatch env banList timeout data fallback w = (Returned (Return result), w') ->
  exists pre x post fallback1 w1,
    data = pre ++ x :: post /\
    scanBatch env banList timeout pre fallback w = (Returned (Next fallback1), w1) /\
    scanItem env banList timeout x fallback1 w1 = (Returned (Return result), w') /\
    (classify banList x = Complete result \/
     exists candidate, classify banList x = Incomplete candidate /\
                       Enriched env banList w1 candidate result).
Proof.
  induction data as [| imgObj rest IH]; intros fallback w result w' H;
    [discriminate |].
  simpl in H. unfold bind in H.
  destruct (scanItem env banList timeout imgObj fallback w)
    as [[[r | fb] | e |] w1] eqn:Eitem; try discriminate.
  - injection H as -> ->.
    exists [], imgObj, rest, fallback, w.
    split; [reflexivity |]. split; [reflexivity |]. split; [exact Eitem |].
    pose proof (scanItem_run imgObj fallback w) as Hitem.
    destruct (classify banList imgObj) as [| e | candidate | candidate].
    + destruct Hitem as [t [Hrun _]]. congruence.
    + congruence.
    + destruct Hitem as [t [Hrun _]]. left. congruence.
    + destruct Hitem as [r [t [Henr Hrun]]]. right. exists candidate.
      split; [reflexivity |].
      destruct (enrich_run candidate w) as [r' [t' [Henr' [_ Hacc]]]].
      rewrite Henr in Henr'. injection Henr' as <- _.
      rewrite Hrun in Eitem. destruct r as [enriched |]; [| discriminate].
      injection Eitem as <- _. apply Hacc. reflexivity.
  - destruct (IH fb w1 result w' H)
      as [pre [x [post [fb1 [w2 [-> [Hpre [Hx Hc]]]]]]]].
    exists (imgObj :: pre), x, post, fb1, w2.
    split; [reflexivity |]. split; [| split; assumption].
    simpl. unfold bind. rewrite Eitem. exact Hpre.
Qed.

(** A candidate with breed data is handed back as soon as the scan
    reaches it: the rest of the batch plays no part. *)
Lemma scanBatch_complete (pre post : list value) (x candidate : value)
      (fallback fallback1 : value) (w w1 : World) :
  scanBatch env banList timeout pre fallback w = (Returned (Next fallback1), w1) ->
  classify banList x = Complete candidate ->
  scanBatch env banList timeout (pre ++ x :: post) fallback w =
  (Returned (Return candidate),
   w1 ++ [EDebug "fetchRandomDog: accepted item with breed"
                 [getField candidate "id"]]).
Proof.
  intros Hpre Hc. rewrite scanBatch_app, Hpre. simpl. unfold bind.
  unfold classify in Hc. unfold scanItem.
  destruct (truthy (normalizeImageObj x)); simpl in *; [| discriminate].
  unfold bind, liftRes.
  destruct (isBanned (normalizeImageObj x) banList) as [[|] | e];
    try discriminate.
  simpl.
  destruct (truthy (getField (normalizeImageObj x) "hasBreed"));
    [| discriminate].
  injection Hc as <-. reflexivity.
Qed.

Lemma lookupFor_not_primary (data : list value) (e : Event) :
  lookupFor env banList timeout data e -> isPrimary e = false.
Proof.
  intros [imgObj [candidate [du [_ [_ [Hdu ->]]]]]].
  exact (detailUrl_not_primary _ _ _ _ Hdu).
Qed.

Lemma lookups_not_primary (data : list value) (trace : list Event) :
  Forall (lookupFor env banList timeout data) (requests trace) ->
  primaryCalls trace = 0%nat.
Proof.
  unfold primaryCalls, requests.
  induction trace as [| e rest IH]; simpl; intros H; [reflexivity |].
  destruct (isFetch e) eqn:Ef.
  - inversion_clear H as [| ? ? He Hrest].
    rewrite (lookupFor_not_primary _ _ He). apply IH, Hrest.
  - destruct (isPrimary e) eqn:Ep; [| apply IH, H].
    apply isPrimary_isFetch in Ep. congruence.
Qed.

Lemma scanBatch_all_skipped (data : list value) :
  forall (fallback : value) (w : World),
  Forall (fun imgObj => classify banList imgObj = Skipped) data ->
  exists trace,
    scanBatch env banList timeout data fallback w =
    (Returned (Next fallback), w ++ trace) /\
    requests trace = [].
Proof.
  induction data as [| imgObj rest IH]; intros fallback w H.
  - exists []. rewrite app_nil_r. split; reflexivity.
  - inversion_clear H as [| ? ? Hx Hrest].
    pose proof (scanItem_run imgObj fallback w) as Hitem. rewrite Hx in Hitem.
    destruct Hitem as [t1 [Hrun Hreq]].
    destruct (IH fallback (w ++ t1) Hrest) as [t2 [Hrun2 Hreq2]].
    exists (t1 ++ t2). simpl. unfold bind. rewrite Hrun, Hrun2, app_assoc.
    split; [reflexivity |]. rewrite requests_app, Hreq, Hreq2. reflexivity.
Qed.

Lemma firstIncomplete_truthy (data : list value) :
  truthy (firstIncomplete banList data) = true ->
  exists imgObj, In imgObj data /\
                 classify banList imgObj = Incomplete (firstIncomplete banList data).
Proof.
  induction data as [| x rest IH]; simpl; [discriminate |].
  destruct (classify banList x) as [| e | c | c] eqn:Ec; intros H;
    try (destruct (IH H) as [y [Hin Hy]]; exists y; split; [right |]; assumption).
  exists x. split; [left; reflexivity | exact Ec].
Qed.

(** *** One attempt *)

(** The [try] block of an attempt, given what the network answers. *)
Lemma attemptBody_cases (w : World) :
  let w1 := w ++ [EFetch url (headers env) timeout] in
  attemptBody env banList timeout w =
  match network env (fetchCount w) url with
  | Throw e => (Thrown e, w1)
  | Ok res =>
      if ok res then
        match json res with
        | Throw e => (Thrown e, w1)
        | Ok data =>
            if isNonEmptyArray data then
              match scanBatch env banList timeout (elements data) JNull w1 with
              | (Returned (Return result), w') => (Returned (Some result), w')
              | (Returned (Next fallback), w') =>
                  if truthy fallback
                  then (Returned (Some fallback),
                        w' ++ [EDebug "fetchRandomDog: accepting non-breed fallback"
                                      [getField fallback "id"]])
                  else (Returned None, w' ++ [ESleep 300])
              | (Thrown e, w') => (Thrown e, w')
              | (OutOfFuel, w') => (OutOfFuel, w')
              end
            else (Returned None, w1)
        end
      else (Thrown (Error ("TheDogAPI error: " ++ decimal (status res) ++ " " ++
                           statusText res)%string), w1)
  end.
Proof.
  intros w1. unfold attemptBody, bind at 1, fetchWithTimeout.
  destruct (network env (fetchCount w) url) as [res | e]; [| reflexivity].
  destruct (ok res); simpl; [| reflexivity].
  unfold bind at 1, liftRes.
  destruct (json res) as [data | e]; [| reflexivity].
  unfold ret at 1.
  assert (negb (isArray data) || (Z.of_nat (List.length (elements data)) =? 0)
          = negb (isNonEmptyArray data)) as Hcond.
  { unfold isNonEmptyArray. destruct (isArray data); simpl; [| reflexivity].
    destruct (elements data); reflexivity. }
  rewrite Hcond. destruct (isNonEmptyArray data); simpl; [| reflexivity].
  unfold bind at 1. fold w1.
  destruct (scanBatch env banList timeout (elements data) JNull w1)
    as [[[result | fallback] | e |] w']; try reflexivity.
  destruct (truthy fallback); reflexivity.
Qed.

Lemma Origin_Accepted (w : World) (result : value) :
  Origin env banList w result -> Accepted banList result.
Proof.
  intros [[x [_ Hc]] | [[x [candidate [w1 [_ [_ He]]]]] | [_ [Hf Ht]]]].
  - apply classify_Complete in Hc. tauto.
  - exact (Enriched_Accepted _ _ _ He).
  - rewrite Hf in Ht. destruct (firstIncomplete_truthy _ Ht) as [x [_ Hc]].
    apply classify_Incomplete in Hc. rewrite Hf. tauto.
Qed.

(** An attempt issues one primary call, then only lookups for candidates
    of the batch it got; a record it hands back has one of the three
    origins. *)
Lemma attemptBody_run (w : World) :
  exists out trace,
    attemptBody env banList timeout w =
    (out, w ++ EFetch url (headers env) timeout :: trace) /\
    Forall (lookupFor env banList timeout (batchAt env w)) (requests trace) /\
    match out with
    | OutOfFuel => False
    | Returned (Some result) => Origin env banList w result
    | _ => True
    end.
Proof.
  rewrite attemptBody_cases. unfold Origin, batchAt.
  destruct (network env (fetchCount w) url) as [res | e].
  2:{ exists (Thrown e), []. repeat split. constructor. }
  destruct (ok res).
  2:{ eexists (Thrown _), []. repeat split. constructor. }
  destruct (json res) as [data | e].
  2:{ exists (Thrown e), []. repeat split. constructor. }
  destruct (isNonEmptyArray data).
  2:{ exists (Returned None), []. repeat split. constructor. }
  set (w1 := w ++ [EFetch url (headers env) timeout]).
  destruct (scanBatch_run (elements data) JNull w1 (or_intror eq_refl))
    as [out [trace [Hrun [Hlook Hout]]]].
  pose proof (scanBatch_return (elements data) JNull w1) as Hret.
  rewrite Hrun in *.
  assert (w1 ++ trace = w ++ EFetch url (headers env) timeout :: trace) as Hw.
  { unfold w1. rewrite <- app_assoc. reflexivity. }
  destruct out as [[result | fallback] | e |]; [| | | contradiction].
  - exists (Returned (Some result)), trace. rewrite Hw.
    split; [reflexivity |]. split; [exact Hlook |].
    destruct (Hret result _ eq_refl)
      as [pre [x [post [fb1 [w2 [Hdata [_ [_ Hc]]]]]]]].
    assert (In x (elements data)) as Hin.
    { rewrite Hdata. apply in_or_app. right. left. reflexivity. }
    destruct Hc as [Hc | [candidate [Hc He]]].
    + left. exists x. split; assumption.
    + right. left. exists x, candidate, w2. repeat split; assumption.
  - simpl in Hout. destruct Hout as [Hnone ->].
    destruct (truthy (firstIncomplete banList (elements data))) eqn:Ef.
    + eexists (Returned (Some _)), (trace ++ [_]).
      rewrite Hw, <- app_assoc. simpl.
      split; [reflexivity |]. split.
      * rewrite requests_app. simpl. rewrite app_nil_r. exact Hlook.
      * right. right. repeat split; assumption.
    + exists (Returned None), (trace ++ [ESleep 300]).
      rewrite Hw, <- app_assoc. simpl.
      split; [reflexivity |]. split; [| exact I].
      rewrite requests_app. simpl. rewrite app_nil_r. exact Hlook.
  - exists (Thrown e), trace. rewrite Hw. repeat split. exact Hlook.
Qed.

End ScanFacts.

(** ** Properties of the retry loop *)

Section LoopProperties.

Context {NUM : Numbers}.
Variable env : Env.
Variable banList : value.
Variable maxAttempts : Z.
Variable timeout : Z.

#[local] Arguments attemptBody : simpl never.

(** With a unit of fuel for every attempt left, the loop ends, and ends
    as [LoopRun] says. *)
Lemma retryLoop_run (fuel : nat) :
  forall (attempt : Z) (w : World),
  (budget maxAttempts attempt <= fuel)%nat ->
  exists out w',
    retryLoop env banList maxAttempts timeout fuel attempt w = (out, w') /\
    LoopRun env banList maxAttempts timeout attempt w out w'.
Proof.
  unfold budget.
  induction fuel as [| fuel IH]; intros attempt w Hfuel; simpl;
    destruct (Z.ltb_spec attempt maxAttempts) as [Hlt | Hge];
    try lia;
    try (exists (Thrown exhausted), w; split;
         [reflexivity | apply Loop_exhausted; exact Hge]).
  destruct (attemptBody_run env banList timeout w)
    as [out [trace [Hrun [_ Hout]]]].
  unfold bind at 1, tryCatch. rewrite Hrun.
  destruct out as [[result | ] | e |]; [| | | contradiction].
  - eexists. eexists. split; [reflexivity |].
    apply Loop_return; assumption.
  - destruct (IH (attempt + 1) (w ++ EFetch url (headers env) timeout :: trace))
      as [out [w' [Hloop Hrel]]]; [lia |].
    exists out, w'. split; [exact Hloop |].
    eapply Loop_again; eassumption.
  - destruct (Z.geb_spec (attempt + 1) maxAttempts) as [Hlast | Hmore].
    + eexists. eexists. split; [reflexivity |].
      apply Loop_escape; [exact Hlt | lia | exact Hrun].
    + unfold bind, sleep, emit, ret. simpl.
      destruct (IH (attempt + 1)
                   ((w ++ EFetch url (headers env) timeout :: trace) ++
                    [ESleep 300]))
        as [out [w' [Hloop Hrel]]]; [lia |].
      exists out, w'. split; [exact Hloop |].
      eapply Loop_swallow; [lia | exact Hrun | exact Hrel].
Qed.

Lemma budget_step (attempt : Z) :
  attempt < maxAttempts ->
  budget maxAttempts attempt = S (budget maxAttempts (attempt + 1)).
Proof. unfold budget. lia. Qed.

Lemma budget_done (attempt : Z) :
  maxAttempts <= attempt -> budget maxAttempts attempt = 0%nat.
Proof. unfold budget. lia. Qed.

Lemma primaryCalls_attempt (segment : list Event) :
  primaryCalls (EFetch url (headers env) timeout :: segment) =
  S (primaryCalls segment).
Proof.
  unfold primaryCalls, isPrimary at 1. cbn [filter].
  rewrite String.eqb_refl. reflexivity.
Qed.

(** An iteration that goes on to the next one. *)
Lemma LoopFacts_step (attempt : Z) (w : World) (segment : list Event)
      (out : Outcome value) (w' : World) :
  attempt < maxAttempts ->
  Forall (lookupFor env banList timeout (batchAt env w)) (requests segment) ->
  LoopFacts env banList maxAttempts timeout (attempt + 1) (w ++ EFetch url (headers env) timeout :: segment)
            out w' ->
  LoopFacts env banList maxAttempts timeout attempt w out w'.
Proof.
  intros Hlt Hlook [trace [-> [Hatt [Hle Hout]]]].
  set (first := EFetch url (headers env) timeout :: segment) in *.
  assert (forall t, primaryCalls (first ++ t) = S (primaryCalls t)) as Hpc.
  { intros t. unfold first.
    rewrite primaryCalls_app, primaryCalls_attempt.
    rewrite (lookups_not_primary _ _ _ _ _ Hlook). reflexivity. }
  exists (first ++ trace).
  split; [rewrite <- app_assoc; reflexivity |].
  split; [unfold first; simpl; constructor; assumption |].
  rewrite Hpc, (budget_step _ Hlt). split; [lia |].
  destruct out as [result | e |]; [| | contradiction].
  - destruct Hout as [t0 [t1 [-> [Hb Ho]]]].
    exists (first ++ t0), t1.
    split; [rewrite <- app_assoc; reflexivity |].
    rewrite (app_assoc w). split; assumption.
  - destruct Hout as [Hpc' Hwhy]. split; [lia |].
    destruct Hwhy as [-> | [t0 [t1 [-> [Hb Hs]]]]]; [left; reflexivity |].
    right. exists (first ++ t0), t1.
    split; [rewrite <- app_assoc; reflexivity |].
    rewrite (app_assoc w). split; [exact Hb |].
    rewrite Hpc. lia.
Qed.

(** An iteration that ends the loop. *)
Lemma LoopFacts_last (attempt : Z) (w : World) (segment : list Event)
      (out : Outcome (option value)) :
  attempt < maxAttempts ->
  Forall (lookupFor env banList timeout (batchAt env w)) (requests segment) ->
  attemptBody env banList timeout w =
  (out, w ++ EFetch url (headers env) timeout :: segment) ->
  match out with
  | Returned (Some result) =>
      Origin env banList w result ->
      LoopFacts env banList maxAttempts timeout attempt w (Returned result)
                (w ++ EFetch url (headers env) timeout :: segment)
  | Thrown e =>
      maxAttempts <= attempt + 1 ->
      LoopFacts env banList maxAttempts timeout attempt w (Thrown e)
                (w ++ EFetch url (headers env) timeout :: segment)
  | _ => True
  end.
Proof.
  intros Hlt Hlook Hbody.
  set (first := EFetch url (headers env) timeout :: segment) in *.
  assert (primaryCalls first = 1%nat) as Hpc.
  { unfold first. rewrite primaryCalls_attempt.
    rewrite (lookups_not_primary _ _ _ _ _ Hlook). reflexivity. }
  assert (Attempts env banList timeout w first) as Hatt.
  { unfold first.
    replace (EFetch url (headers env) timeout :: segment)
      with (EFetch url (headers env) timeout :: segment ++ [])
      by (rewrite app_nil_r; reflexivity).
    constructor; [exact Hlook | constructor]. }
  destruct out as [[result |] | e |]; try exact I.
  - intros Ho. exists first. split; [reflexivity |]. split; [exact Hatt |].
    rewrite Hpc, (budget_step _ Hlt). split; [lia |].
    exists [], first. rewrite app_nil_r. auto.
  - intros Hlast. exists first. split; [reflexivity |]. split; [exact Hatt |].
    rewrite Hpc, (budget_step _ Hlt), budget_done by lia.
    split; [lia |]. split; [reflexivity |].
    right. exists [], first. rewrite app_nil_r. auto.
Qed.

Lemma LoopRun_facts (attempt : Z) (w : World) (out : Outcome value) (w' : World) :
  LoopRun env banList maxAttempts timeout attempt w out w' ->
  LoopFacts env banList maxAttempts timeout attempt w out w'.
Proof.
  induction 1 as [attempt w Hge
                 | attempt w result w' Hlt Hbody
                 | attempt w w1 out w' Hlt Hbody Hrest IH
                 | attempt w e w1 out w' Hlt Hbody Hrest IH
                 | attempt w e w' Hlt Hlast Hbody];
    try (destruct (attemptBody_run env banList timeout w)
           as [out0 [seg [Hrun [Hlook Hout0]]]];
         rewrite Hbody in Hrun; injection Hrun as <- ->).
  - exists []. rewrite app_nil_r, (budget_done _ Hge).
    split; [reflexivity |]. split; [constructor |].
    split; [unfold primaryCalls; simpl; lia |].
    split; [reflexivity | left; reflexivity].
  - exact (LoopFacts_last _ _ _ _ Hlt Hlook Hbody Hout0).
  - exact (LoopFacts_step _ _ _ _ _ Hlt Hlook IH).
  - apply (LoopFacts_step attempt w (seg ++ [ESleep 300])); [lia | |].
    + rewrite requests_app. simpl. rewrite app_nil_r. exact Hlook.
    + replace (w ++ EFetch url (headers env) timeout :: seg ++ [ESleep 300])
        with ((w ++ EFetch url (headers env) timeout :: seg) ++ [ESleep 300]).
      * exact IH.
      * rewrite <- app_assoc. reflexivity.
  - exact (LoopFacts_last _ _ _ _ Hlt Hlook Hbody Hlast).
Qed.

(** *** The loop when every batch is excluded *)

Lemma attemptBody_all_skipped (w : World) :
  allExcluded env banList (fetchCount w) ->
  exists segment,
    attemptBody env banList timeout w =
    (Returned None, w ++ EFetch url (headers env) timeout :: segment) /\
    requests segment = [].
Proof.
  intros [res [data [Hnet [Hok [Hjson Hall]]]]].
  rewrite attemptBody_cases, Hnet, Hok, Hjson.
  destruct (isNonEmptyArray data).
  - destruct (scanBatch_all_skipped env banList timeout (elements data) JNull
                (w ++ [EFetch url (headers env) timeout]) Hall)
      as [trace [Hrun Hreq]].
    rewrite Hrun. simpl. exists (trace ++ [ESleep 300]).
    rewrite <- !app_assoc. split; [reflexivity |].
    rewrite requests_app, Hreq. reflexivity.
  - exists []. split; reflexivity.
Qed.

Lemma retryLoop_all_skipped (fuel : nat) :
  forall (attempt : Z) (w : World),
  (budget maxAttempts attempt <= fuel)%nat ->
  (forall n, (fetchCount w <= n < fetchCount w + budget maxAttempts attempt)%nat ->
             allExcluded env banList n) ->
  exists trace,
    retryLoop env banList maxAttempts timeout fuel attempt w =
    (Thrown exhausted, w ++ trace) /\
    primaryCalls trace = budget maxAttempts attempt /\
    List.length (requests trace) = budget maxAttempts attempt.
Proof.
  induction fuel as [| fuel IH]; intros attempt w Hfuel Hall; simpl;
    destruct (Z.ltb_spec attempt maxAttempts) as [Hlt | Hge];
    try (rewrite (budget_step _ Hlt) in Hfuel; lia);
    try (exists []; rewrite app_nil_r, (budget_done _ Hge);
         repeat split; reflexivity).
  rewrite (budget_step _ Hlt) in *.
  destruct (attemptBody_all_skipped w) as [seg [Hbody Hreq]].
  { apply Hall. lia. }
  unfold bind at 1, tryCatch. rewrite Hbody.
  set (w1 := w ++ EFetch url (headers env) timeout :: seg).
  assert (fetchCount w1 = S (fetchCount w)) as Hcount.
  { unfold w1. rewrite fetchCount_app. unfold fetchCount at 2. simpl.
    fold (requests seg). rewrite Hreq. simpl. lia. }
  destruct (IH (attempt + 1) w1) as [trace [Hrun [Hpc Hlen]]]; [lia | |].
  { intros n Hn. apply Hall. lia. }
  exists (EFetch url (headers env) timeout :: seg ++ trace).
  split; [rewrite Hrun; unfold w1; rewrite <- app_assoc; reflexivity |].
  change (EFetch url (headers env) timeout :: seg ++ trace)
    with ((EFetch url (headers env) timeout :: seg) ++ trace).
  rewrite primaryCalls_app, primaryCalls_attempt, requests_app, length_app.
  assert (primaryCalls seg = 0%nat) as Hseg.
  { pose proof (primaryCalls_le_requests seg) as Hle. rewrite Hreq in Hle.
    simpl in Hle. lia. }
  simpl. fold (requests seg). rewrite Hreq, Hseg. simpl. lia.
Qed.

End LoopProperties.

(** ** Properties of the retry loop of the earlier revision *)

Section StrictLoopFacts.

Context {NUM : Numbers}.
Variable env : Env.
Variable banList : value.
Variable maxAttempts : Z.
Variable timeout : Z.

Lemma strictPrimaryCalls_app (t1 t2 : list Event) :
  strictPrimaryCalls (t1 ++ t2) =
  (strictPrimaryCalls t1 + strictPrimaryCalls t2)%nat.
Proof. unfold strictPrimaryCalls. rewrite filter_app. apply length_app. Qed.

(** An attempt of the earlier revision: one request, to the search
    endpoint, then at most a pause. *)
Lemma Strict_attemptBody_run (w : World) :
  exists out segment,
    Strict.attemptBody env banList timeout w = (out, w ++ segment) /\
    strictPrimaryCalls segment = 1%nat /\
    List.length (requests segment) = 1%nat /\
    out <> OutOfFuel.
Proof.
  unfold Strict.attemptBody, bind, fetchWithTimeout, liftRes, ret, throw,
    sleep, emit.
  destruct (network env (fetchCount w) Strict.url) as [res | e].
  2:{ eexists (Thrown e), [_]. repeat split; auto; discriminate. }
  destruct (ok res); simpl.
  2:{ eexists (Thrown _), [_]. repeat split; auto; discriminate. }
  destruct (json res) as [data | e]; simpl.
  2:{ eexists (Thrown e), [_]. repeat split; auto; discriminate. }
  destruct (truthy (Strict.normalizeImageObj _)); simpl.
  2:{ eexists (Returned None), [_]. repeat split; auto; discriminate. }
  destruct (Strict.isBanned _ banList) as [[|] | e]; simpl.
  - eexists (Returned None), [_; _]. rewrite <- app_assoc.
    repeat split; auto; discriminate.
  - eexists (Returned (Some _)), [_]. repeat split; auto; discriminate.
  - eexists (Thrown e), [_]. repeat split; auto; discriminate.
Qed.

Lemma StrictFacts_step (attempt : Z) (w : World) (first : list Event)
      (out : Outcome value) (trace : list Event) :
  attempt < maxAttempts ->
  strictPrimaryCalls first = 1%nat ->
  List.length (requests first) = 1%nat ->
  StrictFacts env banList maxAttempts timeout (attempt + 1) (w ++ first) out trace ->
  StrictFacts env banList maxAttempts timeout attempt w out (first ++ trace).
Proof.
  intros Hlt Hpc Hreq [Hle [Hlen Hout]]. unfold StrictFacts.
  rewrite strictPrimaryCalls_app, requests_app, length_app, Hpc, Hreq.
  rewrite (budget_step _ _ Hlt). split; [lia |]. split; [lia |].
  destruct out as [r | e |]; [exact I | | contradiction].
  destruct Hout as [Heq Hwhy]. split; [lia |].
  destruct Hwhy as [-> | [t0 [t1 [-> [Hb Hs]]]]]; [left; reflexivity |].
  right. exists (first ++ t0), t1.
  split; [rewrite <- app_assoc; reflexivity |].
  rewrite !(app_assoc w).
  split; [exact Hb |]. rewrite strictPrimaryCalls_app, Hpc. lia.
Qed.

Lemma StrictFacts_last (attempt : Z) (w : World) (first : list Event)
      (out : Outcome value) :
  attempt < maxAttempts ->
  strictPrimaryCalls first = 1%nat ->
  List.length (requests first) = 1%nat ->
  match out with
  | Returned _ => True
  | Thrown e =>
      maxAttempts <= attempt + 1 /\
      Strict.attemptBody env banList timeout w = (Thrown e, w ++ first)
  | OutOfFuel => False
  end ->
  StrictFacts env banList maxAttempts timeout attempt w out first.
Proof.
  intros Hlt Hpc Hreq Hout. unfold StrictFacts.
  rewrite Hpc, Hreq, (budget_step _ _ Hlt). split; [lia |].
  split; [reflexivity |].
  destruct out as [r | e |]; [exact I | | contradiction].
  destruct Hout as [Hlast Hb]. rewrite budget_done by lia.
  split; [reflexivity |]. right. exists [], first. rewrite app_nil_r.
  unfold strictPrimaryCalls. simpl. auto.
Qed.

#[local] Arguments Strict.attemptBody : simpl never.

Lemma Strict_retryLoop_facts (fuel : nat) :
  forall (attempt : Z) (w : World),
  (budget maxAttempts attempt <= fuel)%nat ->
  exists out trace,
    Strict.retryLoop env banList maxAttempts timeout fuel attempt w =
    (out, w ++ trace) /\
    StrictFacts env banList maxAttempts timeout attempt w out trace.
Proof.
  induction fuel as [| fuel IH]; intros attempt w Hfuel; simpl;
    destruct (Z.ltb_spec attempt maxAttempts) as [Hlt | Hge];
    try (rewrite (budget_step _ _ Hlt) in Hfuel; lia);
    try (exists (Thrown exhausted), []; rewrite app_nil_r;
         unfold StrictFacts; rewrite (budget_done _ _ Hge);
         repeat split; auto).
  rewrite (budget_step _ _ Hlt) in Hfuel.
  destruct (Strict_attemptBody_run w) as [out [first [Hbody [Hpc [Hreq Hout]]]]].
  unfold bind at 1, tryCatch. rewrite Hbody.
  destruct out as [[result |] | e |]; [| | | congruence].
  - exists (Returned result), first. split; [reflexivity |].
    apply StrictFacts_last; auto.
  - destruct (IH (attempt + 1) (w ++ first)) as [out' [trace [Hrun Hrest]]];
      [lia |].
    exists out', (first ++ trace). rewrite app_assoc. split; [exact Hrun |].
    apply StrictFacts_step; assumption.
  - destruct (Z.geb_spec (attempt + 1) maxAttempts) as [Hlast | Hmore].
    + exists (Thrown e), first. split; [reflexivity |].
      apply StrictFacts_last; auto.
    + unfold bind, sleep, emit, ret. simpl.
      destruct (IH (attempt + 1) (w ++ (first ++ [ESleep 300])))
        as [out' [trace [Hrun Hrest]]]; [lia |].
      exists out', ((first ++ [ESleep 300]) ++ trace).
      rewrite !app_assoc in *. split; [exact Hrun |].
      rewrite <- (app_assoc w) in Hrest.
      apply StrictFacts_step; try assumption.
      * rewrite strictPrimaryCalls_app, Hpc. reflexivity.
      * rewrite requests_app, length_app, Hreq. reflexivity.
Qed.

(** *** The earlier loop when every batch is excluded *)

Lemma Strict_attemptBody_all_skipped (w : World) :
  strictAllExcluded env banList (fetchCount w) ->
  exists segment,
    Strict.attemptBody env banList timeout w = (Returned None, w ++ segment) /\
    strictPrimaryCalls segment = 1%nat /\
    List.length (requests segment) = 1%nat.
Proof.
  intros [res [data [Hnet [Hok [Hjson Hall]]]]].
  unfold Strict.attemptBody, bind, fetchWithTimeout, liftRes, ret, throw,
    sleep, emit.
  rewrite Hnet, Hok, Hjson. simpl.
  assert (strictSkipped banList
            (if isNonEmptyArray data then index0 data else JNull)) as Hskip.
  { destruct data as [| | | | | items |]; try (left; reflexivity).
    destruct items as [| x rest]; [left; reflexivity |].
    simpl in *. inversion_clear Hall. assumption. }
  destruct Hskip as [Hfalsy | Hbanned].
  - rewrite Hfalsy. simpl. eexists [_]. repeat split.
  - destruct (truthy (Strict.normalizeImageObj _)); simpl.
    + rewrite Hbanned. simpl. eexists [_; _]. rewrite <- app_assoc.
      repeat split.
    + eexists [_]. repeat split.
Qed.

Lemma Strict_retryLoop_all_skipped (fuel : nat) :
  forall (attempt : Z) (w : World),
  (budget maxAttempts attempt <= fuel)%nat ->
  (forall n, (fetchCount w <= n < fetchCount w + budget maxAttempts attempt)%nat ->
             strictAllExcluded env banList n) ->
  exists trace,
    Strict.retryLoop env banList maxAttempts timeout fuel attempt w =
    (Thrown exhausted, w ++ trace) /\
    strictPrimaryCalls trace = budget maxAttempts attempt /\
    List.length (requests trace) = budget maxAttempts attempt.
Proof.
  induction fuel as [| fuel IH]; intros attempt w Hfuel Hall; simpl;
    destruct (Z.ltb_spec attempt maxAttempts) as [Hlt | Hge];
    try (rewrite (budget_step _ _ Hlt) in Hfuel; lia);
    try (exists []; rewrite app_nil_r, (budget_done _ _ Hge);
         repeat split; reflexivity).
  rewrite (budget_step _ _ Hlt) in *.
  destruct (Strict_attemptBody_all_skipped w) as [seg [Hbody [Hpc Hreq]]].
  { apply Hall. lia. }
  unfold bind at 1, tryCatch. rewrite Hbody.
  assert (fetchCount (w ++ seg) = S (fetchCount w)) as Hcount.
  { rewrite fetchCount_app. unfold fetchCount at 2. fold (requests seg). lia. }
  destruct (IH (attempt + 1) (w ++ seg)) as [trace [Hrun [Hpc' Hlen]]]; [lia | |].
  { intros n Hn. apply Hall. lia. }
  exists (seg ++ trace). rewrite app_assoc. split; [exact Hrun |].
  rewrite strictPrimaryCalls_app, requests_app, length_app. lia.
Qed.

End StrictLoopFacts.

(** ** Properties of [fetchRandomDog] *)

Section EntryFacts.

Context {NUM : Numbers}.

Lemma fetchRandomDog_no_fetch (env : Env) (options : Options) (w : World) :
  fetchAvailable env = false ->
  fetchRandomDog env options w =
  (Thrown (Error "fetch is not available in this environment"), w).
Proof. intros H. unfold fetchRandomDog. rewrite H. reflexivity. Qed.

(** With [fetch] at hand the call is a run of the loop from attempt 0. *)
Lemma fetchRandomDog_run (env : Env) (options : Options) (w : World) :
  fetchAvailable env = true ->
  exists out w',
    fetchRandomDog env options w = (out, w') /\
    LoopFacts env (banListOf options) (maxAttemptsOf options)
              (timeoutOf options) 0 w out w'.
Proof.
  intros H. unfold fetchRandomDog. rewrite H. simpl.
  destruct (retryLoop_run env (banListOf options) (maxAttemptsOf options)
              (timeoutOf options) (Z.to_nat (maxAttemptsOf options)) 0 w)
    as [out [w' [Hrun Hrel]]].
  { unfold budget. lia. }
  exists out, w'. split; [exact Hrun |]. apply LoopRun_facts, Hrel.
Qed.

(** The call always ends: the fuel of the model never runs out. *)
Lemma fetchRandomDog_ends (env : Env) (options : Options) (w : World) :
  fst (fetchRandomDog env options w) <> OutOfFuel.
Proof.
  destruct (fetchAvailable env) eqn:Ef.
  - destruct (fetchRandomDog_run env options w Ef)
      as [out [w' [Hrun [trace [_ [_ [_ Hout]]]]]]].
    rewrite Hrun. simpl. intros ->. exact Hout.
  - rewrite (fetchRandomDog_no_fetch env options w Ef). discriminate.
Qed.

Lemma Strict_fetchRandomDog_no_fetch (env : Env) (options : Options) (w : World) :
  fetchAvailable env = false ->
  Strict.fetchRandomDog env options w =
  (Thrown (Error "fetch is not available in this environment"), w).
Proof. intros H. unfold Strict.fetchRandomDog. rewrite H. reflexivity. Qed.

Lemma Strict_fetchRandomDog_run (env : Env) (options : Options) (w : World) :
  fetchAvailable env = true ->
  exists out trace,
    Strict.fetchRandomDog env options w = (out, w ++ trace) /\
    StrictFacts env (banListOf options) (maxAttemptsOf options)
                (timeoutOf options) 0 w out trace.
Proof.
  intros H. unfold Strict.fetchRandomDog. rewrite H. simpl.
  apply Strict_retryLoop_facts. unfold budget. lia.
Qed.

Lemma Strict_fetchRandomDog_ends (env : Env) (options : Options) (w : World) :
  fst (Strict.fetchRandomDog env options w) <> OutOfFuel.
Proof.
  destruct (fetchAvailable env) eqn:Ef.
  - destruct (Strict_fetchRandomDog_run env options w Ef)
      as [out [trace [Hrun [_ [_ Hout]]]]].
    rewrite Hrun. simpl. intros ->. exact Hout.
  - rewrite (Strict_fetchRandomDog_no_fetch env options w Ef). discriminate.
Qed.

Lemma Accepted_clearOf (banList record : value) :
  Accepted banList record -> clearOf record banList.
Proof.
  intros [[raw ->] [Ht Hb]]. apply isBanned_false_clearOf; [| exact Hb].
  apply normalizeImageObj_attributes. intros Hnull.
  rewrite Hnull in Ht. discriminate.
Qed.

Lemma clearOf_default (record banList : value) :
  clearOf record (orDefault banList (JObj [])) -> clearOf record banList.
Proof.
  unfold clearOf, bannedValues.
  assert (orDefault (orDefault banList (JObj [])) (JObj []) =
          orDefault banList (JObj [])) as -> by (destruct banList; reflexivity).
  tauto.
Qed.


(** C2. However a call ends, it has issued at most [maxAttempts] requests
    to the search endpoint (none when [maxAttempts] is negative); all it
    does to the world is to extend the log, and it does end.  Both
    revisions obey it. *)
Theorem fetchRandomDog_call_budget
        (env : Env) (options : Options) (w : World)
        (out : Outcome value) (w' : World) :
  (fetchRandomDog env options w = (out, w') ->
   out <> OutOfFuel /\
   exists trace,
     w' = w ++ trace /\
     Z.of_nat (primaryCalls trace) <= Z.max 0 (maxAttemptsOf options) /\
     (0 <= maxAttemptsOf options ->
      Z.of_nat (primaryCalls trace) <= maxAttemptsOf options)) /\
  (Strict.fetchRandomDog env options w = (out, w') ->
   out <> OutOfFuel /\
   exists trace,
     w' = w ++ trace /\
     Z.of_nat (strictPrimaryCalls trace) <= Z.max 0 (maxAttemptsOf options) /\
     (0 <= maxAttemptsOf options ->
      Z.of_nat (strictPrimaryCalls trace) <= maxAttemptsOf options)).
Proof.
  split; intros Hrun; (split; [intros ->|]).
  - apply (fetchRandomDog_ends env options w). rewrite Hrun. reflexivity.
  - destruct (fetchAvailable env) eqn:Ef.
    + destruct (fetchRandomDog_run env options w Ef)
        as [out1 [w1 [Hrun' [trace [Hw [_ [Hle _]]]]]]].
      rewrite Hrun in Hrun'. injection Hrun' as <- <-.
      exists trace. split; [exact Hw |]. unfold budget in Hle. lia.
    + rewrite (fetchRandomDog_no_fetch env options w Ef) in Hrun.
      injection Hrun as <- <-. exists []. rewrite app_nil_r.
      split; [reflexivity |]. unfold primaryCalls. simpl. lia.
  - apply (Strict_fetchRandomDog_ends env options w). rewrite Hrun. reflexivity.
  - destruct (fetchAvailable env) eqn:Ef.
    + destruct (Strict_fetchRandomDog_run env options w Ef)
        as [out1 [trace [Hrun' [Hle _]]]].
      rewrite Hrun in Hrun'. injection Hrun' as <- ->.
      exists trace. split; [reflexivity |]. unfold budget in Hle. lia.
    + rewrite (Strict_fetchRandomDog_no_fetch env options w Ef) in Hrun.
      injection Hrun as <- <-. exists []. rewrite app_nil_r.
      split; [reflexivity |]. unfold strictPrimaryCalls. simpl. lia.
Qed.

(** C3. In a runtime with [fetch] and with a budget that is not negative:
    when every primary call of the run is answered by a batch in which
    each item is excluded (so that no fallback is ever kept), the call
    rejects with the exhaustion error after exactly [maxAttempts] primary
    calls, and issues no other request.  Both revisions obey it. *)
Theorem fetchRandomDog_exhaustion (env : Env) (options : Options) (w : World) :
  fetchAvailable env = true ->
  0 <= maxAttemptsOf options ->
  ((forall n,
       (fetchCount w <= n < fetchCount w + Z.to_nat (maxAttemptsOf options))%nat ->
       allExcluded env (banListOf options) n) ->
   exists trace,
     fetchRandomDog env options w = (Thrown exhausted, w ++ trace) /\
     err_message exhausted = "No non-banned result found after maximum attempts" /\
     Z.of_nat (primaryCalls trace) = maxAttemptsOf options /\
     List.length (requests trace) = primaryCalls trace) /\
  ((forall n,
       (fetchCount w <= n < fetchCount w + Z.to_nat (maxAttemptsOf options))%nat ->
       strictAllExcluded env (banListOf options) n) ->
   exists trace,
     Strict.fetchRandomDog env options w = (Thrown exhausted, w ++ trace) /\
     Z.of_nat (strictPrimaryCalls trace) = maxAttemptsOf options /\
     List.length (requests trace) = strictPrimaryCalls trace).
Proof.
  intros Hf Hpos. split; intros Hall.
  - unfold fetchRandomDog. rewrite Hf. simpl.
    destruct (retryLoop_all_skipped env (banListOf options)
                (maxAttemptsOf options) (timeoutOf options)
                (Z.to_nat (maxAttemptsOf options)) 0 w)
      as [trace [Hrun [Hpc Hlen]]].
    + unfold budget. lia.
    + unfold budget. intros n Hn. apply Hall. lia.
    + exists trace. split; [exact Hrun |]. split; [reflexivity |].
      unfold budget in *. split; lia.
  - unfold Strict.fetchRandomDog. rewrite Hf. simpl.
    destruct (Strict_retryLoop_all_skipped env (banListOf options)
                (maxAttemptsOf options) (timeoutOf options)
                (Z.to_nat (maxAttemptsOf options)) 0 w)
      as [trace [Hrun [Hpc Hlen]]].
    + unfold budget. lia.
    + unfold budget. intros n Hn. apply Hall. lia.
    + exists trace. split; [exact Hrun |]. unfold budget in *. split; lia.
Qed.

(** C4. In the retry loop an error thrown by an attempt that is not the
    last is swallowed: the loop waits and goes on as if the attempt had
    found nothing.  An error escapes the loop only once all [maxAttempts]
    primary calls are made, and it is the exhaustion error or the error
    thrown by the body of the last attempt.  The loop is all a call does
    in a runtime with [fetch].  Both revisions obey it. *)
Theorem retryLoop_error_policy (env : Env) (options : Options) :
  let banList := banListOf options in
  let maxAttempts := maxAttemptsOf options in
  let timeout := timeoutOf options in
  (forall (fuel : nat) (attempt : Z) (w : World) (e : JsError) (w1 : World),
      attempt + 1 < maxAttempts ->
      (attemptBody env banList timeout w = (Thrown e, w1) ->
       retryLoop env banList maxAttempts timeout (S fuel) attempt w =
       retryLoop env banList maxAttempts timeout fuel (attempt + 1)
                 (w1 ++ [ESleep 300])) /\
      (Strict.attemptBody env banList timeout w = (Thrown e, w1) ->
       Strict.retryLoop env banList maxAttempts timeout (S fuel) attempt w =
       Strict.retryLoop env banList maxAttempts timeout fuel (attempt + 1)
                        (w1 ++ [ESleep 300]))) /\
  (forall (w : World) (e : JsError) (w' : World),
      (retryLoop env banList maxAttempts timeout (Z.to_nat maxAttempts) 0 w =
       (Thrown e, w') ->
       exists trace,
         w' = w ++ trace /\
         primaryCalls trace = Z.to_nat maxAttempts /\
         (e = exhausted \/
          exists t0 t1,
            trace = t0 ++ t1 /\
            attemptBody env banList timeout (w ++ t0) = (Thrown e, w') /\
            S (primaryCalls t0) = Z.to_nat maxAttempts)) /\
      (Strict.retryLoop env banList maxAttempts timeout (Z.to_nat maxAttempts) 0 w =
       (Thrown e, w') ->
       exists trace,
         w' = w ++ trace /\
         strictPrimaryCalls trace = Z.to_nat maxAttempts /\
         (e = exhausted \/
          exists t0 t1,
            trace = t0 ++ t1 /\
            Strict.attemptBody env banList timeout (w ++ t0) = (Thrown e, w') /\
            S (strictPrimaryCalls t0) = Z.to_nat maxAttempts))) /\
  (fetchAvailable env = true ->
   fetchRandomDog env options =
   retryLoop env banList maxAttempts timeout (Z.to_nat maxAttempts) 0 /\
   Strict.fetchRandomDog env options =
   Strict.retryLoop env banList maxAttempts timeout (Z.to_nat maxAttempts) 0).
Proof.
  intros banList maxAttempts timeout. split; [| split].
  - intros fuel attempt w e w1 Hlt. split; intros Hbody; simpl;
      (destruct (Z.ltb_spec attempt maxAttempts) as [_ | Hge]; [| lia]);
      unfold bind at 1, tryCatch; rewrite Hbody;
      (destruct (Z.geb_spec (attempt + 1) maxAttempts) as [Hlast | _];
       [lia |]); reflexivity.
  - intros w e w'. split; intros Hrun.
    + destruct (retryLoop_run env banList maxAttempts timeout
                  (Z.to_nat maxAttempts) 0 w)
        as [out [w1 [Hrun' Hrel]]]; [unfold budget; lia |].
      rewrite Hrun in Hrun'. injection Hrun' as <- <-.
      destruct (LoopRun_facts _ _ _ _ _ _ _ _ Hrel)
        as [trace [Hw [_ [_ Hout]]]].
      exists trace. split; [exact Hw |]. unfold budget in Hout.
      rewrite Z.sub_0_r in Hout. exact Hout.
    + destruct (Strict_retryLoop_facts env banList maxAttempts timeout
                  (Z.to_nat maxAttempts) 0 w)
        as [out [trace [Hrun' [_ [_ Hout]]]]]; [unfold budget; lia |].
      rewrite Hrun in Hrun'. injection Hrun' as <- ->.
      exists trace. split; [reflexivity |]. unfold budget in Hout.
      rewrite Z.sub_0_r in Hout. exact Hout.
  - intros Hf. unfold fetchRandomDog, Strict.fetchRandomDog. rewrite Hf.
    split; reflexivity.
Qed.

(** C6. The requests of a call come in attempts: a primary call, then
    lookups that are each for a candidate of the batch just received that
    the ban list does not exclude and that has no breed data.  The lookup
    hands back a record only when the answer has breed data and passes
    [isBanned] with the same ban list, and a record the call hands back
    has one of the three origins: a candidate with breed data, such an
    answer, or the fallback. *)
Theorem enrichment_policy
        (env : Env) (options : Options) (w : World)
        (out : Outcome value) (w' : World) :
  fetchRandomDog env options w = (out, w') ->
  (exists trace,
      w' = w ++ trace /\
      Attempts env (banListOf options) (timeoutOf options) w trace /\
      forall record, out = Returned record ->
        exists t0, Origin env (banListOf options) (w ++ t0) record) /\
  (forall (normalized : value) (w0 : World) (enriched : value) (w1 : World),
      enrich env (banListOf options) (timeoutOf options) normalized w0 =
      (Returned (Some enriched), w1) ->
      Enriched env (banListOf options) w0 normalized enriched).
Proof.
  intros Hrun. split.
  - destruct (fetchAvailable env) eqn:Ef.
    + destruct (fetchRandomDog_run env options w Ef)
        as [out1 [w1 [Hrun' [trace [Hw [Hatt [_ Hout]]]]]]].
      rewrite Hrun in Hrun'. injection Hrun' as <- <-.
      exists trace. split; [exact Hw |]. split; [exact Hatt |].
      intros record ->. destruct Hout as [t0 [t1 [_ [_ Ho]]]].
      exists t0. exact Ho.
    + rewrite (fetchRandomDog_no_fetch env options w Ef) in Hrun.
      injection Hrun as <- <-. exists []. rewrite app_nil_r.
      split; [reflexivity |]. split; [constructor | discriminate].
  - intros normalized w0 enriched w1 Henr.
    destruct (enrich_run env (banListOf options) (timeoutOf options)
                normalized w0) as [r [t [Hr [_ Hacc]]]].
    rewrite Henr in Hr. injection Hr as <- _. apply Hacc. reflexivity.
Qed.

(** C7. Within one batch: a candidate with breed data is handed back as
    soon as the scan reaches it, it is the first of its kind, and the
    rest of the batch plays no part; a fallback once kept is never
    replaced; the fallback after a scan that handed nothing back is the
    first candidate without breed data, and no item of the batch ended
    the scan; and an attempt hands back a record without breed data only
    as such a fallback. *)
Theorem batch_preference
        (env : Env) (banList : value) (timeout : Z) :
  (forall (pre post : list value) (x candidate fallback1 : value) (w w1 : World),
      scanBatch env banList timeout pre JNull w = (Returned (Next fallback1), w1) ->
      classify banList x = Complete candidate ->
      noneComplete banList pre /\
      scanBatch env banList timeout (pre ++ x :: post) JNull w =
      (Returned (Return candidate),
       w1 ++ [EDebug "fetchRandomDog: accepted item with breed"
                     [getField candidate "id"]])) /\
  (forall (data : list value) (fallback fallback' : value) (w w' : World),
      truthy fallback = true ->
      scanBatch env banList timeout data fallback w = (Returned (Next fallback'), w') ->
      fallback' = fallback) /\
  (forall (data : list value) (fallback : value) (w w' : World),
      scanBatch env banList timeout data JNull w = (Returned (Next fallback), w') ->
      noneComplete banList data /\
      fallback = firstIncomplete banList data) /\
  (forall (w : World) (record : value) (w' : World),
      attemptBody env banList timeout w = (Returned (Some record), w') ->
      truthy (getField record "hasBreed") = false ->
      noneComplete banList (batchAt env w) /\
      record = firstIncomplete banList (batchAt env w)).
Proof.
  split; [| split; [| split]].
  - intros pre post x candidate fallback1 w w1 Hpre Hc. split.
    + destruct (scanBatch_run env banList timeout pre JNull w
                  (or_intror eq_refl)) as [out [t [Hrun [_ Hout]]]].
      rewrite Hpre in Hrun. injection Hrun as <- _. apply Hout.
    + exact (scanBatch_complete env banList timeout pre post x candidate
               JNull fallback1 w w1 Hpre Hc).
  - intros data fallback fallback' w w' Ht Hscan.
    destruct (scanBatch_run env banList timeout data fallback w
                (or_introl Ht)) as [out [t [Hrun [_ Hout]]]].
    rewrite Hscan in Hrun. injection Hrun as <- _.
    destruct Hout as [_ ->]. rewrite Ht. reflexivity.
  - intros data fallback w w' Hscan.
    destruct (scanBatch_run env banList timeout data JNull w
                (or_intror eq_refl)) as [out [t [Hrun [_ Hout]]]].
    rewrite Hscan in Hrun. injection Hrun as <- _. exact Hout.
  - intros w record w' Hbody Hh.
    destruct (attemptBody_run env banList timeout w)
      as [out [seg [Hrun [_ Hout]]]].
    rewrite Hbody in Hrun. injection Hrun as <- _.
    destruct Hout as [[x [_ Hc]] | [[x [c [w1 [_ [_ He]]]]] | [Hn [Hf _]]]].
    + apply classify_Complete in Hc. destruct Hc as [_ [_ Hc]]. congruence.
    + destruct He as [? [? [? [_ [_ [_ [_ [_ [_ [Hb _]]]]]]]]]]. congruence.
    + split; assumption.
Qed.

(** C9, as the client has it.  With [maxAttempts] at most 0 a call issues
    no request and leaves the world as it found it.  In a runtime with
    [fetch] it rejects with the exhaustion error; in a runtime without, it
    rejects with the error of the missing capability.  Both revisions
    behave so. *)
Theorem fetchRandomDog_no_budget (env : Env) (options : Options) (w : World) :
  maxAttemptsOf options <= 0 ->
  let rejection :=
    if fetchAvailable env then exhausted
    else Error "fetch is not available in this environment" in
  fetchRandomDog env options w = (Thrown rejection, w) /\
  Strict.fetchRandomDog env options w = (Thrown rejection, w) /\
  err_message exhausted = "No non-banned result found after maximum attempts".
Proof.
  intros Hle rejection. unfold rejection.
  unfold fetchRandomDog, Strict.fetchRandomDog.
  destruct (fetchAvailable env); simpl; [| repeat split].
  destruct (Z.to_nat (maxAttemptsOf options)); simpl;
    destruct (Z.ltb_spec 0 (maxAttemptsOf options)); try lia;
    repeat split.
Qed.

End EntryFacts.

(** ** The properties at work *)


(** Three attempts are allowed, one is made. *)
Lemma fetchRandomDog_call_budget_witness :
  exists out w',
    fetchRandomDog sampleEnv (sampleOptions 3) [] = (out, w') /\
    out <> OutOfFuel /\
    exists trace,
      w' = [] ++ trace /\
      Z.of_nat (primaryCalls trace) <= Z.max 0 (maxAttemptsOf (sampleOptions 3)).
Proof.
  exists (fst (fetchRandomDog sampleEnv (sampleOptions 3) [])),
         (snd (fetchRandomDog sampleEnv (sampleOptions 3) [])).
  assert (fetchRandomDog sampleEnv (sampleOptions 3) [] =
          (fst (fetchRandomDog sampleEnv (sampleOptions 3) []),
           snd (fetchRandomDog sampleEnv (sampleOptions 3) []))) as Hrun
    by apply surjective_pairing.
  split; [exact Hrun |].
  destruct (proj1 (fetchRandomDog_call_budget sampleEnv (sampleOptions 3) []
                     _ _) Hrun) as [Hends [trace [Hw [Hle _]]]].
  split; [exact Hends |]. exists trace. split; assumption.
Defined.

Lemma beagleEnv_allExcluded (n : nat) :
  allExcluded beagleEnv (banListOf (sampleOptions 3)) n /\
  strictAllExcluded beagleEnv (banListOf (sampleOptions 3)) n.
Proof.
  split; exists (okResponse (JArr [beagle])), (JArr [beagle]);
    (split; [reflexivity |]); (split; [reflexivity |]);
    (split; [reflexivity |]); (apply Forall_cons; [| apply Forall_nil]).
  - vm_compute. reflexivity.
  - right. vm_compute. reflexivity.
Qed.

(** Scenario d of the specification: three attempts, Beagles only. *)
Lemma fetchRandomDog_exhaustion_witness :
  fetchAvailable beagleEnv = true /\
  0 <= maxAttemptsOf (sampleOptions 3) /\
  (forall n, allExcluded beagleEnv (banListOf (sampleOptions 3)) n) /\
  exists trace,
    fetchRandomDog beagleEnv (sampleOptions 3) [] = (Thrown exhausted, [] ++ trace) /\
    Z.of_nat (primaryCalls trace) = 3.
Proof.
  assert (0 <= maxAttemptsOf (sampleOptions 3)) as Hpos by (vm_compute; discriminate).
  split; [reflexivity |]. split; [exact Hpos |].
  split; [intros n; apply beagleEnv_allExcluded |].
  destruct (proj1 (fetchRandomDog_exhaustion beagleEnv (sampleOptions 3) []
                     eq_refl Hpos)
                  (fun n _ => proj1 (beagleEnv_allExcluded n)))
    as [trace [Hrun [_ [Hpc _]]]].
  exists trace. split; [exact Hrun | exact Hpc].
Defined.

(** Two attempts: the transport error of the first is swallowed, the
    server error of the second escapes. *)
Lemma retryLoop_error_policy_witness :
  let options := sampleOptions 2 in
  let e1 := TypeError "Failed to fetch" in
  let e2 := Error "TheDogAPI error: 500 Internal Server Error" in
  let w1 := [EFetch url (headers failingEnv) 8000] in
  0 + 1 < maxAttemptsOf options /\
  attemptBody failingEnv (banListOf options) (timeoutOf options) [] =
  (Thrown e1, w1) /\
  retryLoop failingEnv (banListOf options) (maxAttemptsOf options)
            (timeoutOf options) 2 0 [] =
  retryLoop failingEnv (banListOf options) (maxAttemptsOf options)
            (timeoutOf options) 1 (0 + 1) (w1 ++ [ESleep 300]) /\
  fetchAvailable failingEnv = true /\
  exists w',
    fetchRandomDog failingEnv options [] = (Thrown e2, w') /\
    exists trace,
      w' = [] ++ trace /\ primaryCalls trace = Z.to_nat (maxAttemptsOf options).
Proof.
  intros options e1 e2 w1.
  assert (0 + 1 < maxAttemptsOf options) as Hlt by (vm_compute; reflexivity).
  assert (attemptBody failingEnv (banListOf options) (timeoutOf options) [] =
          (Thrown e1, w1)) as Hbody by (vm_compute; reflexivity).
  assert (retryLoop failingEnv (banListOf options) (maxAttemptsOf options)
                    (timeoutOf options) (Z.to_nat (maxAttemptsOf options)) 0 [] =
          (Thrown e2, snd (fetchRandomDog failingEnv options []))) as Hrun
    by (vm_compute; reflexivity).
  destruct (retryLoop_error_policy failingEnv options)
    as [Hswallow [Hescape Hcall]].
  split; [exact Hlt |]. split; [exact Hbody |].
  split; [exact (proj1 (Hswallow 1%nat 0 [] e1 w1 Hlt) Hbody) |].
  split; [reflexivity |].
  exists (snd (fetchRandomDog failingEnv options [])).
  split; [rewrite (proj1 (Hcall eq_refl)); exact Hrun |].
  destruct (proj1 (Hescape [] e2 _) Hrun) as [trace [Hw [Hpc _]]].
  exists trace. split; assumption.
Defined.

(** The run of the sample network: a primary call, then lookups for the
    two images without breed data. *)
Lemma enrichment_policy_witness :
  exists record w',
    fetchRandomDog sampleEnv (sampleOptions 3) [] = (Returned record, w') /\
    exists trace,
      w' = [] ++ trace /\
      Attempts sampleEnv (banListOf (sampleOptions 3))
               (timeoutOf (sampleOptions 3)) [] trace /\
      exists t0, Origin sampleEnv (banListOf (sampleOptions 3)) ([] ++ t0) record.
Proof.
  eexists. eexists.
  assert (fetchRandomDog sampleEnv (sampleOptions 3) [] =
          (Returned (normalizeImageObj (rawDog "n2" "Husky" "Loyal")),
           snd (fetchRandomDog sampleEnv (sampleOptions 3) []))) as Hrun
    by (vm_compute; reflexivity).
  split; [exact Hrun |].
  destruct (proj1 (enrichment_policy sampleEnv (sampleOptions 3) [] _ _ Hrun))
    as [trace [Hw [Hatt Ho]]].
  exists trace. split; [exact Hw |]. split; [exact Hatt |].
  exact (Ho _ eq_refl).
Defined.

(** One batch under the four rules. *)
Lemma batch_preference_witness :
  (exists fallback1 w1 candidate,
      scanBatch sampleEnv noBeagles 8000 [beagle] JNull [] =
      (Returned (Next fallback1), w1) /\
      classify noBeagles poodle = Complete candidate /\
      fst (scanBatch sampleEnv noBeagles 8000
                     ([beagle] ++ poodle :: [rawImage "n1"]) JNull []) =
      Returned (Return candidate)) /\
  (exists fallback', 
      truthy (normalizeImageObj (rawImage "n0")) = true /\
      fst (scanBatch imageEnv noBeagles 8000 [rawImage "n1"]
                     (normalizeImageObj (rawImage "n0")) []) =
      Returned (Next fallback') /\
      fallback' = normalizeImageObj (rawImage "n0")) /\
  (exists fallback,
      fst (scanBatch imageEnv noBeagles 8000
                     [beagle; rawImage "n1"; rawImage "n3"] JNull []) =
      Returned (Next fallback) /\
      fallback = firstIncomplete noBeagles [beagle; rawImage "n1"; rawImage "n3"]) /\
  (exists record,
      fst (attemptBody imageEnv noBeagles 8000 []) = Returned (Some record) /\
      truthy (getField record "hasBreed") = false /\
      record = firstIncomplete noBeagles (batchAt imageEnv [])).
Proof.
  destruct (batch_preference sampleEnv noBeagles 8000) as [Hfirst _].
  destruct (batch_preference imageEnv noBeagles 8000)
    as [_ [Hkept [Hfallback Hreturn]]].
  split; [| split; [| split]].
  - assert (scanBatch sampleEnv noBeagles 8000 [beagle] JNull [] =
            (Returned (Next JNull),
             snd (scanBatch sampleEnv noBeagles 8000 [beagle] JNull [])))
      as Hpre by (vm_compute; reflexivity).
    assert (classify noBeagles poodle = Complete (normalizeImageObj poodle))
      as Hc by (vm_compute; reflexivity).
    eexists. eexists. eexists. split; [exact Hpre |]. split; [exact Hc |].
    rewrite (proj2 (Hfirst [beagle] [rawImage "n1"] poodle _ _ [] _ Hpre Hc)).
    reflexivity.
  - assert (truthy (normalizeImageObj (rawImage "n0")) = true) as Ht
      by reflexivity.
    assert (scanBatch imageEnv noBeagles 8000 [rawImage "n1"]
                      (normalizeImageObj (rawImage "n0")) [] =
            (Returned (Next (normalizeImageObj (rawImage "n0"))),
             snd (scanBatch imageEnv noBeagles 8000 [rawImage "n1"]
                            (normalizeImageObj (rawImage "n0")) [])))
      as Hscan by (vm_compute; reflexivity).
    eexists. split; [exact Ht |]. split; [rewrite Hscan; reflexivity |].
    exact (Hkept _ _ _ _ _ Ht Hscan).
  - assert (scanBatch imageEnv noBeagles 8000
                      [beagle; rawImage "n1"; rawImage "n3"] JNull [] =
            (Returned (Next (normalizeImageObj (rawImage "n1"))),
             snd (scanBatch imageEnv noBeagles 8000
                            [beagle; rawImage "n1"; rawImage "n3"] JNull [])))
      as Hscan by (vm_compute; reflexivity).
    eexists. split; [rewrite Hscan; reflexivity |].
    exact (proj2 (Hfallback _ _ _ _ Hscan)).
  - assert (attemptBody imageEnv noBeagles 8000 [] =
            (Returned (Some (normalizeImageObj (rawImage "n1"))),
             snd (attemptBody imageEnv noBeagles 8000 []))) as Hbody
      by (vm_compute; reflexivity).
    assert (truthy (getField (normalizeImageObj (rawImage "n1")) "hasBreed")
            = false) as Hh by reflexivity.
    eexists. split; [rewrite Hbody; reflexivity |]. split; [exact Hh |].
    exact (proj2 (Hreturn _ _ _ Hbody Hh)).
Defined.

(** A Beagle with its breed object, and an image without. *)
Lemma normalizeImageObj_fixed_keys_witness :
  normalizeImageObj beagle <> JNull /\
  Strict.normalizeImageObj beagle <> JNull /\
  FixedAttributes (normalizeImageObj beagle) /\
  FixedAttributes (Strict.normalizeImageObj beagle) /\
  normalizeImageObj (rawImage "n1") <> JNull /\
  getField (normalizeImageObj (rawImage "n1")) "attributes" = emptyAttributes.
Proof.
  assert (normalizeImageObj beagle <> JNull) as H1 by discriminate.
  assert (Strict.normalizeImageObj beagle <> JNull) as H2 by discriminate.
  assert (normalizeImageObj (rawImage "n1") <> JNull) as H3 by discriminate.
  destruct (normalizeImageObj_fixed_keys beagle) as [Hnew Hold].
  destruct (normalizeImageObj_fixed_keys (rawImage "n1")) as [Himg _].
  split; [exact H1 |]. split; [exact H2 |].
  split; [exact (proj1 (Hnew H1)) |]. split; [exact (Hold H2) |].
  split; [exact H3 |]. exact (proj2 (Himg H3) eq_refl).
Defined.

(** No attempt allowed, in a runtime with [fetch]. *)
Lemma fetchRandomDog_no_budget_witness :
  maxAttemptsOf (sampleOptions 0) <= 0 /\
  fetchRandomDog sampleEnv (sampleOptions 0) [] = (Thrown exhausted, []) /\
  Strict.fetchRandomDog sampleEnv (sampleOptions 0) [] = (Thrown exhausted, []).
Proof.
  assert (maxAttemptsOf (sampleOptions 0) <= 0) as Hle by (vm_compute; discriminate).
  split; [exact Hle |].
  destruct (fetchRandomDog_no_budget sampleEnv (sampleOptions 0) [] Hle)
    as [Hnew [Hold _]].
  split; [exact Hnew | exact Hold].
Defined.

(** C9 fails as stated: without [fetch] and with no attempt allowed, the
    call rejects, but not with the exhaustion error. *)
Lemma no_fetch_is_not_exhaustion :
  maxAttemptsOf (sampleOptions 0) <= 0 /\
  fetchRandomDog noFetchEnv (sampleOptions 0) [] =
  (Thrown (Error "fetch is not available in this environment"), []) /\
  fetchRandomDog noFetchEnv (sampleOptions 0) [] <> (Thrown exhausted, []).
Proof.
  split; [vm_compute; discriminate |].
  split; [reflexivity | discriminate].
Qed.

(** ** Further properties of the client *)

Section FurtherClientFacts.

Context {NUM : Numbers}.

(** X1. The detail lookup never throws: whatever the network answers,
    [enrich] completes normally, with an enriched record or with none,
    after at most one request, and none to the search endpoint. *)
Theorem enrich_never_throws
        (env : Env) (banList : value) (timeout : Z)
        (normalized : value) (w : World) :
  exists r trace,
    enrich env banList timeout normalized w = (Returned r, w ++ trace) /\
    (List.length (requests trace) <= 1)%nat /\
    primaryCalls trace = 0%nat.
Proof.
  destruct (enrich_run env banList timeout normalized w)
    as [r [trace [Hrun [Hreq _]]]].
  exists r, trace. split; [exact Hrun |].
  destruct Hreq as [Hnone | [du [Hdu Hone]]].
  - split; [rewrite Hnone; simpl; lia |].
    pose proof (primaryCalls_le_requests trace) as Hle.
    rewrite Hnone in Hle. simpl in Hle. lia.
  - split; [rewrite Hone; simpl; lia |].
    unfold primaryCalls. unfold requests in Hone.
    assert (forall e, In e trace -> isPrimary e = true ->
                      e = EFetch du (headers env) timeout) as Honly.
    { intros e Hin Hp.
      assert (In e (filter isFetch trace)) as Hf
        by (apply filter_In; split; [exact Hin | apply isPrimary_isFetch, Hp]).
      rewrite Hone in Hf. destruct Hf as [<- | []]. reflexivity. }
    destruct (filter isPrimary trace) as [| e rest] eqn:Ef; [reflexivity |].
    assert (In e (filter isPrimary trace)) as Hin by (rewrite Ef; left; reflexivity).
    apply filter_In in Hin. destruct Hin as [Hin Hp].
    rewrite (Honly e Hin Hp) in Hp.
    rewrite (detailUrl_not_primary _ _ _ _ Hdu) in Hp. discriminate.
Qed.

Lemma Attempts_requests (env : Env) (banList : value) (timeout : Z)
      (w : World) (trace : list Event) :
  Attempts env banList timeout w trace ->
  Forall (fun e => exists u, e = EFetch u (headers env) timeout)
         (requests trace).
Proof.
  induction 1 as [w | w segment rest Hlook _ IH]; [constructor |].
  unfold requests in *. simpl. constructor; [eexists; reflexivity |].
  rewrite filter_app. apply Forall_app. split; [| exact IH].
  eapply Forall_impl; [| exact Hlook].
  intros e [imgObj [candidate [du [_ [_ [_ ->]]]]]]. eexists. reflexivity.
Qed.

(** X2. Every request of a call, primary or lookup, carries the timeout
    of the call and the same headers: the access key of the environment
    under [x-api-key] when there is one, no header at all when there is
    none. *)
Theorem requests_carry_the_access_key
        (env : Env) (options : Options) (w : World)
        (out : Outcome value) (w' : World) :
  fetchRandomDog env options w = (out, w') ->
  exists trace,
    w' = w ++ trace /\
    Forall (fun e => exists u, e = EFetch u (headers env) (timeoutOf options))
           (requests trace) /\
    headers env =
    if truthy (VITE_APP_ACCESS_KEY env)
    then JObj [("x-api-key", VITE_APP_ACCESS_KEY env)]
    else JObj [].
Proof.
  intros Hrun.
  assert (headers env =
          if truthy (VITE_APP_ACCESS_KEY env)
          then JObj [("x-api-key", VITE_APP_ACCESS_KEY env)]
          else JObj []) as Hh.
  { unfold headers, apiKey, or_.
    destruct (truthy (VITE_APP_ACCESS_KEY env)) eqn:Ek; [rewrite Ek |];
      reflexivity. }
  destruct (fetchAvailable env) eqn:Ef.
  - destruct (fetchRandomDog_run env options w Ef)
      as [out1 [w1 [Hrun' [trace [Hw [Hatt _]]]]]].
    rewrite Hrun in Hrun'. injection Hrun' as <- <-.
    exists trace. split; [exact Hw |].
    split; [exact (Attempts_requests _ _ _ _ _ Hatt) | exact Hh].
  - rewrite (fetchRandomDog_no_fetch env options w Ef) in Hrun.
    injection Hrun as <- <-. exists []. rewrite app_nil_r.
    split; [reflexivity |]. split; [constructor | exact Hh].
Qed.

(** X3. The two revisions of the normaliser and of the ban matcher agree
    wherever the earlier one accepts an item: it returns a record exactly
    when the current one marks the record as having breed data, the two
    records then have the same id, image address and attributes, and
    [isBanned] of either revision gives the same answer on either
    record. *)
Theorem revisions_agree (imgObj banList : value) :
  (Strict.normalizeImageObj imgObj <> JNull <->
   getField (normalizeImageObj imgObj) "hasBreed" = JBool true) /\
  (Strict.normalizeImageObj imgObj <> JNull ->
   (forall k, In k ["id"; "imageUrl"; "attributes"] ->
      getField (Strict.normalizeImageObj imgObj) k =
      getField (normalizeImageObj imgObj) k) /\
   Strict.isBanned (Strict.normalizeImageObj imgObj) banList =
   isBanned (normalizeImageObj imgObj) banList /\
   Strict.isBanned (normalizeImageObj imgObj) banList =
   isBanned (normalizeImageObj imgObj) banList).
Proof.
  unfold Strict.normalizeImageObj, normalizeImageObj.
  destruct (truthy imgObj); simpl.
  2:{ split; [split; [congruence | discriminate] | congruence]. }
  destruct (truthy (if isNonEmptyArray (getField imgObj "breeds")
                    then index0 (getField imgObj "breeds") else JNull));
    simpl.
  2:{ split; [split; [congruence | discriminate] | congruence]. }
  split; [split; [reflexivity | discriminate] |].
  intros _. split.
  - simpl. intros k [<- | [<- | [<- | []]]]; reflexivity.
  - split; reflexivity.
Qed.

End FurtherClientFacts.

(** A Beagle passes both normalisers. *)
Lemma revisions_agree_witness :
  Strict.normalizeImageObj beagle <> JNull /\
  getField (normalizeImageObj beagle) "hasBreed" = JBool true /\
  Strict.isBanned (Strict.normalizeImageObj beagle) noBeagles =
  isBanned (normalizeImageObj beagle) noBeagles.
Proof.
  assert (Strict.normalizeImageObj beagle <> JNull) as H by discriminate.
  destruct (revisions_agree beagle noBeagles) as [Hiff Hsame].
  split; [exact H |]. split; [exact (proj1 Hiff H) |].
  exact (proj1 (proj2 (Hsame H))).
Defined.

(** The requests of the sample run. *)
Lemma requests_carry_the_access_key_witness :
  exists out w',
    fetchRandomDog sampleEnv (sampleOptions 3) [] = (out, w') /\
    exists trace,
      w' = [] ++ trace /\
      Forall (fun e => exists u, e = EFetch u (JObj []) 8000) (requests trace).
Proof.
  exists (fst (fetchRandomDog sampleEnv (sampleOptions 3) [])),
         (snd (fetchRandomDog sampleEnv (sampleOptions 3) [])).
  assert (fetchRandomDog sampleEnv (sampleOptions 3) [] =
          (fst (fetchRandomDog sampleEnv (sampleOptions 3) []),
           snd (fetchRandomDog sampleEnv (sampleOptions 3) []))) as Hrun
    by apply surjective_pairing.
  split; [exact Hrun |].
  destruct (requests_carry_the_access_key sampleEnv (sampleOptions 3) [] _ _ Hrun)
    as [trace [Hw [Hall _]]].
  exists trace. split; [exact Hw | exact Hall].
Defined.

(** ** Progress of the retry loop *)

Section ProgressFacts.

Context {NUM : Numbers}.
Variable env : Env.
Variable banList : value.
Variable maxAttempts : Z.
Variable timeout : Z.

Lemma attemptBody_fails (w : World) :
  primaryFails env (fetchCount w) ->
  exists e,
    attemptBody env banList timeout w =
    (Thrown e, w ++ [EFetch url (headers env) timeout]).
Proof.
  unfold primaryFails. intros H. rewrite attemptBody_cases. simpl.
  destruct (network env (fetchCount w) url) as [res | e];
    [| exists e; reflexivity].
  destruct H as [Hok | [e Hjson]].
  - rewrite Hok. eexists. reflexivity.
  - destruct (ok res); [| eexists; reflexivity].
    rewrite Hjson. exists e. reflexivity.
Qed.

Lemma attemptBody_first_complete (w : World) (x : value) (rest : list value)
      (candidate : value) :
  answersBatch env (fetchCount w) (x :: rest) ->
  classify banList x = Complete candidate ->
  attemptBody env banList timeout w =
  (Returned (Some candidate),
   w ++ [EFetch url (headers env) timeout;
         EDebug "fetchRandomDog: accepted item with breed"
                [getField candidate "id"]]).
Proof.
  intros [res [Hnet [Hok [Hjson _]]]] Hc.
  rewrite attemptBody_cases. cbv zeta. rewrite Hnet, Hok, Hjson.
  change (isNonEmptyArray (JArr (x :: rest))) with true.
  change (elements (JArr (x :: rest))) with ([] ++ x :: rest).
  rewrite (scanBatch_complete env banList timeout [] rest x candidate
             JNull JNull _ _ eq_refl Hc).
  rewrite <- app_assoc. reflexivity.
Qed.

Lemma fetchCount_failed (w : World) (e : Event) :
  fetchCount ((w ++ [EFetch url (headers env) timeout]) ++ [ESleep 300]) =
  S (fetchCount w).
Proof. rewrite !fetchCount_app. unfold fetchCount. simpl. lia. Qed.

(** After [k] failed attempts the loop still has the attempt that
    succeeds. *)
Lemma retryLoop_recovers (k : nat) :
  forall (fuel : nat) (attempt : Z) (w : World) (x : value)
         (rest : list value) (candidate : value),
  (k < fuel)%nat ->
  attempt + Z.of_nat k < maxAttempts ->
  (forall i, (i < k)%nat -> primaryFails env (fetchCount w + i)) ->
  answersBatch env (fetchCount w + k) (x :: rest) ->
  classify banList x = Complete candidate ->
  retryLoop env banList maxAttempts timeout fuel attempt w =
  (Returned candidate,
   w ++ failedAttempts env timeout k ++
     [EFetch url (headers env) timeout;
      EDebug "fetchRandomDog: accepted item with breed"
             [getField candidate "id"]]).
Proof.
  induction k as [| k IH]; intros fuel attempt w x rest candidate
                                  Hfuel Hlt Hfail Hgood Hc;
    (destruct fuel as [| fuel]; [lia |]); simpl;
    (destruct (Z.ltb_spec attempt maxAttempts) as [_ | Hge]; [| lia]);
    unfold bind at 1, tryCatch.
  - rewrite Nat.add_0_r in Hgood.
    rewrite (attemptBody_first_complete w x rest candidate Hgood Hc).
    reflexivity.
  - destruct (attemptBody_fails w) as [e He].
    { rewrite <- (Nat.add_0_r (fetchCount w)). apply Hfail. lia. }
    rewrite He.
    destruct (Z.geb_spec (attempt + 1) maxAttempts) as [Hlast | _]; [lia |].
    unfold bind, sleep, emit, ret. simpl.
    rewrite (IH fuel (attempt + 1) _ x rest candidate).
    + rewrite <- !app_assoc. reflexivity.
    + lia.
    + lia.
    + intros i Hi. rewrite (fetchCount_failed w (ESleep 300)).
      replace (S (fetchCount w) + i)%nat with (fetchCount w + S i)%nat by lia.
      apply Hfail. lia.
    + rewrite (fetchCount_failed w (ESleep 300)).
      replace (S (fetchCount w) + k)%nat with (fetchCount w + S k)%nat by lia.
      exact Hgood.
    + exact Hc.
Qed.

End ProgressFacts.

Section ProgressTheorems.

Context {NUM : Numbers}.

(** X4. Transient failures are retried: when the first [k] primary calls
    fail (transport error, status not ok or unreadable body), [k] is
    below [maxAttempts], and the next primary call is answered by a batch
    whose first item is a candidate with breed data that the ban list does
    not exclude, the call returns that candidate; its log is [k] failed
    requests, each followed by a pause of 300 ms, then the request that
    succeeds. *)
Theorem transient_failures_are_retried
        (env : Env) (options : Options) (w : World) (k : nat)
        (x : value) (rest : list value) (candidate : value) :
  fetchAvailable env = true ->
  Z.of_nat k < maxAttemptsOf options ->
  (forall i, (i < k)%nat -> primaryFails env (fetchCount w + i)) ->
  answersBatch env (fetchCount w + k) (x :: rest) ->
  classify (banListOf options) x = Complete candidate ->
  fetchRandomDog env options w =
  (Returned candidate,
   w ++ failedAttempts env (timeoutOf options) k ++
     [EFetch url (headers env) (timeoutOf options);
      EDebug "fetchRandomDog: accepted item with breed"
             [getField candidate "id"]]).
Proof.
  intros Hf Hk Hfail Hgood Hc. unfold fetchRandomDog. rewrite Hf. simpl.
  apply (retryLoop_recovers env (banListOf options) (maxAttemptsOf options)
           (timeoutOf options) k _ 0 w x rest candidate); try assumption; lia.
Qed.

Lemma isBanned_no_bans (item banList : value) :
  banList = JUndefined \/ banList = JObj [] ->
  isBanned item banList = Ok (negb (truthy item)).
Proof.
  intros [-> | ->]; unfold isBanned; simpl;
    destruct (truthy item); reflexivity.
Qed.

(** X5. With no ban in force (the ban list is left out or is the empty
    object) nothing is excluded, and the call returns the first item of
    the first batch as soon as that item is truthy and has breed data:
    one request, no pause. *)
Theorem no_bans_first_item_wins
        (env : Env) (options : Options) (w : World)
        (x : value) (rest : list value) :
  fetchAvailable env = true ->
  0 < maxAttemptsOf options ->
  opt_banList options = JUndefined \/ opt_banList options = JObj [] ->
  answersBatch env (fetchCount w) (x :: rest) ->
  truthy x = true ->
  getField (normalizeImageObj x) "hasBreed" = JBool true ->
  (forall item, isBanned item (opt_banList options) = Ok (negb (truthy item))) /\
  fetchRandomDog env options w =
  (Returned (normalizeImageObj x),
   w ++ [EFetch url (headers env) (timeoutOf options);
         EDebug "fetchRandomDog: accepted item with breed"
                [getField (normalizeImageObj x) "id"]]).
Proof.
  intros Hf Hpos Hbl Hgood Hx Hh.
  split; [intros item; apply isBanned_no_bans, Hbl |].
  assert (classify (banListOf options) x = Complete (normalizeImageObj x))
    as Hc.
  { unfold classify. rewrite normalizeImageObj_truthy, Hx. simpl.
    unfold banListOf.
    assert (orDefault (opt_banList options) (JObj []) = JObj []) as ->
      by (destruct Hbl as [-> | ->]; reflexivity).
    rewrite (isBanned_no_bans _ (JObj []) (or_intror eq_refl)).
    rewrite normalizeImageObj_truthy, Hx, Hh. reflexivity. }
  unfold fetchRandomDog. rewrite Hf. simpl.
  rewrite <- (Nat.add_0_r (fetchCount w)) in Hgood.
  apply (retryLoop_recovers env (banListOf options) (maxAttemptsOf options)
           (timeoutOf options) 0 _ 0 w x rest);
    [lia | lia | intros; lia | exact Hgood | exact Hc].
Qed.

End ProgressTheorems.

(** ** The ban matcher on well-formed input *)

Section ExactMatch.

Context {NUM : Numbers}.

Lemma includes_In (tokens : list string) (b : string) :
  includes tokens b = true <-> In b tokens.
Proof.
  unfold includes. rewrite existsb_exists. split.
  - intros [t [Hin Heq]]. apply String.eqb_eq in Heq. subst. exact Hin.
  - intros Hin. exists b. split; [exact Hin | apply String.eqb_refl].
Qed.

Lemma anyEq_strings (a : string) (bs : list value) :
  Forall (fun v => exists s, v = JStr s) bs ->
  exists b,
    anyEq (JStr a) bs = Ok b /\
    (b = true <-> exists s, In (JStr s) bs /\ sameText a s).
Proof.
  induction bs as [| v rest IH]; intros Hall.
  - exists false. split; [reflexivity |].
    split; [discriminate | intros [s [[] _]]].
  - inversion_clear Hall as [| ? ? [s ->] Hrest].
    destruct (IH Hrest) as [b [Hb Hiff]]. simpl. unfold eq_. simpl.
    destruct (String.eqb_spec (toLowerCase (trim a)) (toLowerCase (trim s)))
      as [Heq | Hne].
    + exists true. split; [reflexivity |]. split; [| reflexivity].
      intros _. exists s. split; [left; reflexivity | exact Heq].
    + exists b. split; [exact Hb |]. rewrite Hiff. split.
      * intros [s' [Hin Hs]]. exists s'. split; [right |]; assumption.
      * intros [s' [[Heq | Hin] Hs]].
        -- injection Heq as <-. contradiction.
        -- exists s'. split; assumption.
Qed.

Lemma anyToken_strings (tokens : list string) (bs : list value) :
  Forall (fun v => exists s, v = JStr s) bs ->
  exists b,
    anyToken tokens bs = Ok b /\
    (b = true <->
     exists s, In (JStr s) bs /\ In (toLowerCase (trim s)) tokens).
Proof.
  induction bs as [| v rest IH]; intros Hall.
  - exists false. split; [reflexivity |].
    split; [discriminate | intros [s [[] _]]].
  - inversion_clear Hall as [| ? ? [s ->] Hrest].
    destruct (IH Hrest) as [b [Hb Hiff]]. simpl.
    destruct (includes tokens (toLowerCase (trim s))) eqn:Ei.
    + exists true. split; [reflexivity |]. split; [| reflexivity].
      intros _. exists s. split; [left; reflexivity |].
      apply includes_In, Ei.
    + exists b. split; [exact Hb |]. rewrite Hiff. split.
      * intros [s' [Hin Hs]]. exists s'. split; [right |]; assumption.
      * intros [s' [[Heq | Hin] Hs]].
        -- injection Heq as <-. apply includes_In in Hs. congruence.
        -- exists s'. split; assumption.
Qed.

Lemma StringBans_default (banList : value) :
  StringBans banList -> orDefault banList (JObj []) = banList.
Proof. intros [Hn _]. destruct banList; simpl in *; congruence. Qed.

Lemma elements_nonEmptyArray (v : value) :
  isNonEmptyArray v = false -> elements v = [].
Proof.
  unfold isNonEmptyArray. destruct v as [| | | | | items |]; try reflexivity.
  destruct items; [reflexivity | discriminate].
Qed.

Lemma bannedOn_scalar_exact (record banList : value) (key a : string) :
  StringBans banList ->
  In key scalarKeys ->
  getField (attrsOf record) key = JStr a ->
  exists b,
    bannedOn key record banList = Ok b /\
    (b = true <->
     exists s, In (JStr s) (bannedValues banList key) /\ sameText a s).
Proof.
  intros Hbl Hkey Ha. rewrite (bannedOn_scalar _ _ _ Hkey).
  unfold bannedValues. rewrite (StringBans_default _ Hbl).
  destruct Hbl as [Hn Hstr].
  assert (Forall (fun v => exists s, v = JStr s)
                 (elements (getField banList key))) as Hall.
  { apply Forall_forall. intros v Hv. apply (Hstr key).
    - apply In_fixedKeys. auto.
    - unfold bannedValues.
      assert (orDefault banList (JObj []) = banList) as ->
        by (destruct banList; simpl in *; congruence).
      exact Hv. }
  unfold scalarCheck, readProp. rewrite Hn, Ha. simpl.
  destruct (isNonEmptyArray (getField banList key)) eqn:E.
  - apply anyEq_strings, Hall.
  - exists false. split; [reflexivity |].
    rewrite (elements_nonEmptyArray _ E).
    split; [discriminate | intros [s [[] _]]].
Qed.

Lemma bannedOn_temperament_exact (record banList : value) (temperament : string) :
  StringBans banList ->
  getField (attrsOf record) "temperament" = JStr temperament ->
  exists b,
    bannedOn "temperament" record banList = Ok b /\
    (b = true <->
     exists s, In (JStr s) (bannedValues banList "temperament") /\
               In (toLowerCase (trim s)) (temperamentTokens temperament)).
Proof.
  intros Hbl Ht. unfold bannedOn. simpl.
  unfold bannedValues. rewrite (StringBans_default _ Hbl).
  destruct Hbl as [Hn Hstr].
  assert (Forall (fun v => exists s, v = JStr s)
                 (elements (getField banList "temperament"))) as Hall.
  { apply Forall_forall. intros v Hv. apply (Hstr "temperament").
    - unfold fixedKeys. simpl. auto.
    - unfold bannedValues.
      assert (orDefault banList (JObj []) = banList) as ->
        by (destruct banList; simpl in *; congruence).
      exact Hv. }
  unfold temperamentCheck, readProp. rewrite Hn, Ht. simpl.
  assert (or_ (JStr temperament) (JStr "") = JStr temperament) as ->
    by (unfold or_; simpl; destruct temperament; reflexivity).
  destruct (isNonEmptyArray (getField banList "temperament")) eqn:E.
  - apply anyToken_strings, Hall.
  - exists false. split; [reflexivity |].
    rewrite (elements_nonEmptyArray _ E).
    split; [discriminate | intros [s [[] _]]].
Qed.

Lemma isBanned_decides (record banList : value) :
  Displayable record ->
  StringBans banList ->
  exists b,
    isBanned record banList = Ok b /\
    (b = true <-> Matches record banList).
Proof.
  intros [Htruthy Hattrs] Hbl.
  destruct (Hattrs "breed") as [a1 Ha1]; [simpl; auto |].
  destruct (Hattrs "life_span") as [a2 Ha2]; [simpl; auto |].
  destruct (Hattrs "weight") as [a3 Ha3]; [simpl; auto 10 |].
  destruct (Hattrs "temperament") as [t Ht]; [simpl; auto |].
  destruct (bannedOn_scalar_exact record banList "breed" a1 Hbl) as [b1 [H1 I1]];
    [simpl; auto | exact Ha1 |].
  destruct (bannedOn_scalar_exact record banList "life_span" a2 Hbl)
    as [b2 [H2 I2]]; [simpl; auto | exact Ha2 |].
  destruct (bannedOn_scalar_exact record banList "weight" a3 Hbl)
    as [b3 [H3 I3]]; [simpl; auto | exact Ha3 |].
  destruct (bannedOn_temperament_exact record banList t Hbl Ht)
    as [b4 [H4 I4]].
  exists (b1 || b2 || b3 || b4).
  rewrite (isBanned_by_key _ _ Htruthy), H1. simpl.
  split.
  { destruct b1; [reflexivity |]. rewrite H2. simpl.
    destruct b2; [reflexivity |]. rewrite H3. simpl.
    destruct b3; [reflexivity |]. exact H4. }
  unfold Matches. split.
  - intros Hb. apply orb_true_iff in Hb. destruct Hb as [Hb | Hb].
    + apply orb_true_iff in Hb. destruct Hb as [Hb | Hb].
      * apply orb_true_iff in Hb. destruct Hb as [Hb | Hb].
        -- destruct (proj1 I1 Hb) as [s [Hin Hs]].
           left. exists "breed", a1, s. simpl. auto.
        -- destruct (proj1 I2 Hb) as [s [Hin Hs]].
           left. exists "life_span", a2, s. simpl. auto.
      * destruct (proj1 I3 Hb) as [s [Hin Hs]].
        left. exists "weight", a3, s. simpl. auto 10.
    + destruct (proj1 I4 Hb) as [s [Hin Hs]].
      right. exists t, (toLowerCase (trim s)), s. auto.
  - intros [[key [a [b [Hkey [Hin [Ha Hs]]]]]] | [t' [token [b [Hin [Ht' [Htok ->]]]]]]].
    + unfold scalarKeys in Hkey. simpl in Hkey.
      destruct Hkey as [<- | [<- | [<- | []]]].
      * rewrite Ha1 in Ha. injection Ha as <-.
        rewrite (proj2 I1) by eauto. reflexivity.
      * rewrite Ha2 in Ha. injection Ha as <-.
        rewrite (proj2 I2) by eauto. apply orb_true_iff. left.
        apply orb_true_iff. left. apply orb_true_r.
      * rewrite Ha3 in Ha. injection Ha as <-.
        rewrite (proj2 I3) by eauto. apply orb_true_iff. left.
        apply orb_true_r.
    + rewrite Ht in Ht'. injection Ht' as <-.
      rewrite (proj2 I4) by eauto. apply orb_true_r.
Qed.


End ExactMatch.

(** ** Pauses of a call *)

Section PauseFacts.

Context {NUM : Numbers}.
Variable env : Env.
Variable banList : value.
Variable maxAttempts : Z.
Variable timeout : Z.

Lemma pauseTime_app (t1 t2 : list Event) :
  pauseTime (t1 ++ t2) = pauseTime t1 + pauseTime t2.
Proof.
  induction t1 as [| e rest IH]; simpl; [reflexivity |].
  destruct e; rewrite IH; lia.
Qed.

Lemma quiet_ret {A} (a : A) : quiet (ret a).
Proof. intros w out w' H. injection H as _ <-. reflexivity. Qed.

Lemma quiet_throw {A} (e : JsError) : quiet (@throw NUM A e).
Proof. intros w out w' H. injection H as _ <-. reflexivity. Qed.

Lemma quiet_liftRes {A} (r : Res A) : quiet (liftRes r).
Proof. destruct r; [apply quiet_ret | apply quiet_throw]. Qed.

Lemma quiet_bind {A B} (c : Comp A) (k : A -> Comp B) :
  quiet c -> (forall a, quiet (k a)) -> quiet (bind c k).
Proof.
  intros Hc Hk w out w' H. unfold bind in H.
  destruct (c w) as [[a | e |] w1] eqn:Ec.
  - rewrite (Hk a _ _ _ H). exact (Hc _ _ _ Ec).
  - injection H as _ <-. exact (Hc _ _ _ Ec).
  - injection H as _ <-. exact (Hc _ _ _ Ec).
Qed.

Lemma quiet_tryCatch {A} (c : Comp A) (h : JsError -> Comp A) :
  quiet c -> (forall e, quiet (h e)) -> quiet (tryCatch c h).
Proof.
  intros Hc Hh w out w' H. unfold tryCatch in H.
  destruct (c w) as [[a | e |] w1] eqn:Ec.
  - injection H as _ <-. exact (Hc _ _ _ Ec).
  - rewrite (Hh e _ _ _ H). exact (Hc _ _ _ Ec).
  - injection H as _ <-. exact (Hc _ _ _ Ec).
Qed.

Lemma quiet_fetch (u : string) (h : value) (t : Z) :
  quiet (fetchWithTimeout env u h t).
Proof.
  intros w out w' H. unfold fetchWithTimeout in H.
  destruct (network env (fetchCount w) u); injection H as _ <-;
    rewrite pauseTime_app; simpl; lia.
Qed.

Lemma quiet_debug (msg : string) (args : list value) : quiet (debug msg args).
Proof.
  intros w out w' H. injection H as _ <-. rewrite pauseTime_app. simpl. lia.
Qed.

Lemma quiet_enrich (normalized : value) :
  quiet (enrich env banList timeout normalized).
Proof.
  unfold enrich. apply quiet_tryCatch.
  - apply quiet_bind; [apply quiet_liftRes |]. intros id.
    apply quiet_bind; [apply quiet_fetch |]. intros detailRes.
    destruct (ok detailRes); [| apply quiet_ret].
    apply quiet_bind; [apply quiet_liftRes |]. intros detailObj.
    destruct (truthy _ && truthy _); [| apply quiet_ret].
    apply quiet_bind; [apply quiet_liftRes |]. intros banned.
    destruct (negb banned); [| apply quiet_ret].
    apply quiet_bind; [apply quiet_debug | intros; apply quiet_ret].
  - intros e. apply quiet_bind; [apply quiet_debug | intros; apply quiet_ret].
Qed.

Lemma quiet_scanItem (imgObj fallback : value) :
  quiet (scanItem env banList timeout imgObj fallback).
Proof.
  unfold scanItem. destruct (negb (truthy _)); [apply quiet_ret |].
  apply quiet_bind; [apply quiet_liftRes |]. intros banned.
  destruct banned.
  - apply quiet_bind; [apply quiet_debug | intros; apply quiet_ret].
  - destruct (truthy _).
    + apply quiet_bind; [apply quiet_debug | intros; apply quiet_ret].
    + apply quiet_bind; [apply quiet_enrich |].
      intros [enriched |]; apply quiet_ret.
Qed.

Lemma quiet_scanBatch (data : list value) :
  forall fallback, quiet (scanBatch env banList timeout data fallback).
Proof.
  induction data as [| imgObj rest IH]; intros fallback; simpl;
    [apply quiet_ret |].
  apply quiet_bind; [apply quiet_scanItem |].
  intros [result | fallback']; [apply quiet_ret | apply IH].
Qed.

(** An attempt pauses at most once, for 300 ms, and not at all when it
    hands back a record or throws. *)
Lemma attemptBody_pauses (w : World) (out : Outcome (option value)) (w' : World) :
  attemptBody env banList timeout w = (out, w') ->
  match out with
  | Returned None => pauseTime w <= pauseTime w' <= pauseTime w + 300
  | _ => pauseTime w' = pauseTime w
  end.
Proof.
  rewrite attemptBody_cases. cbv zeta.
  assert (pauseTime (w ++ [EFetch url (headers env) timeout]) = pauseTime w)
    as Hw1 by (rewrite pauseTime_app; simpl; lia).
  destruct (network env (fetchCount w) url) as [res | e].
  2:{ intros H. injection H as <- <-. exact Hw1. }
  destruct (ok res).
  2:{ intros H. injection H as <- <-. exact Hw1. }
  destruct (json res) as [data | e].
  2:{ intros H. injection H as <- <-. exact Hw1. }
  destruct (isNonEmptyArray data).
  2:{ intros H. injection H as <- <-. lia. }
  destruct (scanBatch env banList timeout (elements data) JNull _)
    as [[[result | fallback] | e |] w2] eqn:Escan;
    pose proof (quiet_scanBatch _ _ _ _ _ Escan) as Hq.
  - intros H. injection H as <- <-. lia.
  - destruct (truthy fallback); intros H; injection H as <- <-;
      rewrite pauseTime_app; simpl; lia.
  - intros H. injection H as <- <-. lia.
  - intros H. injection H as <- <-. lia.
Qed.

#[local] Arguments attemptBody : simpl never.

Lemma retryLoop_pauses (fuel : nat) :
  forall (attempt : Z) (w : World) (out : Outcome value) (w' : World),
  retryLoop env banList maxAttempts timeout fuel attempt w = (out, w') ->
  pauseTime w <= pauseTime w' /\
  pauseTime w' <= pauseTime w + 300 * Z.max 0 (maxAttempts - attempt) /\
  (forall result, out = Returned result ->
     pauseTime w' <= pauseTime w + 300 * (maxAttempts - attempt - 1)).
Proof.
  induction fuel as [| fuel IH]; intros attempt w out w'; cbn [retryLoop];
    destruct (Z.ltb_spec attempt maxAttempts) as [Hlt | Hge];
    try (intros H; injection H as <- <-;
         repeat split; try lia; try discriminate).
  unfold bind at 1, tryCatch.
  destruct (attemptBody env banList timeout w) as [[[result |] | e |] w1] eqn:Eb;
    pose proof (attemptBody_pauses _ _ _ Eb) as Hp; simpl in Hp.
  - intros H. injection H as <- <-. repeat split; try lia; try discriminate.
  - intros H. destruct (IH _ _ _ _ H) as [H1 [H2 H3]].
    split; [lia |]. split; [lia |].
    intros result Hr. specialize (H3 result Hr). lia.
  - destruct (Z.geb_spec (attempt + 1) maxAttempts) as [Hlast | Hmore].
    + intros H. injection H as <- <-. repeat split; try lia; try discriminate.
    + unfold bind, sleep, emit, ret. cbv beta iota. intros H.
      destruct (IH _ _ _ _ H) as [H1 [H2 H3]].
      rewrite pauseTime_app in H1, H2, H3. cbn [pauseTime] in H1, H2, H3.
      split; [lia |]. split; [lia |].
      intros result Hr. specialize (H3 result Hr). lia.
  - intros H. injection H as <- <-. repeat split; try lia; try discriminate.
Qed.

End PauseFacts.

Section PauseTheorem.

Context {NUM : Numbers}.

(** X7. A call never waits long on its own account: its pauses add up
    to at most 300 ms for each attempt allowed (to nothing when the budget
    is negative), and to one pause less when the call returns a record,
    since the attempt that succeeds does not pause. *)
Theorem pauses_are_bounded
        (env : Env) (options : Options) (w : World)
        (out : Outcome value) (w' : World) :
  fetchRandomDog env options w = (out, w') ->
  pauseTime w <= pauseTime w' /\
  pauseTime w' <= pauseTime w + 300 * Z.max 0 (maxAttemptsOf options) /\
  (forall result, out = Returned result ->
     pauseTime w' <= pauseTime w + 300 * (maxAttemptsOf options - 1)).
Proof.
  unfold fetchRandomDog. cbv zeta.
  destruct (fetchAvailable env); cbn [negb].
  - intros H.
    destruct (retryLoop_pauses env (banListOf options) (maxAttemptsOf options)
                (timeoutOf options) _ _ _ _ _ H) as [H1 [H2 H3]].
    rewrite Z.sub_0_r in H2. split; [exact H1 |]. split; [exact H2 |].
    intros result Hr. specialize (H3 result Hr). lia.
  - intros H. injection H as <- <-.
    split; [lia |]. split; [lia |]. intros result Hr. discriminate Hr.
Qed.

End PauseTheorem.

(** ** The ban list of the application *)

Section BanListFacts.

Context {NUM : Numbers}.

Lemma trimEnd_idempotent (s : string) : trimEnd (trimEnd s) = trimEnd s.
Proof.
  induction s as [| c r IH]; [reflexivity |].
  cbn [trimEnd].
  destruct (isWhiteSpace c && (trimEnd r =? "")%string) eqn:E;
    [reflexivity |].
  cbn [trimEnd]. rewrite IH, E. reflexivity.
Qed.

Lemma trimStart_head (s : string) :
  trimStart s = "" \/
  exists c r, trimStart s = String c r /\ isWhiteSpace c = false.
Proof.
  induction s as [| c r IH]; [left; reflexivity |].
  cbn [trimStart]. destruct (isWhiteSpace c) eqn:E; [exact IH |].
  right. exists c, r. split; [reflexivity | exact E].
Qed.

Lemma trim_idempotent (s : string) : trim (trim s) = trim s.
Proof.
  unfold trim. destruct (trimStart_head s) as [H | [c [r [H Hc]]]]; rewrite H.
  - reflexivity.
  - cbn [trimEnd]. rewrite Hc. cbn [andb trimStart]. rewrite Hc.
    cbn [trimEnd]. rewrite Hc, trimEnd_idempotent. reflexivity.
Qed.

Lemma hasOwn_setProp (k k' : string) (v : value) (props : list (string * value)) :
  hasOwn k' (setProp k v props) = (k' =? k)%string || hasOwn k' props.
Proof.
  induction props as [| [k0 v0] rest IH]; cbn [setProp hasOwn];
    [reflexivity |].
  destruct (String.eqb_spec k k0) as [<- | Hne]; cbn [hasOwn].
  - destruct (k' =? k)%string; reflexivity.
  - rewrite IH. destruct (k' =? k)%string, (k' =? k0)%string; reflexivity.
Qed.

Lemma ownProp_setProp (k k' : string) (v : value) (props : list (string * value)) :
  ownProp k' (setProp k v props) =
  if (k' =? k)%string then v else ownProp k' props.
Proof.
  induction props as [| [k0 v0] rest IH]; cbn [setProp ownProp].
  - destruct (k' =? k)%string; reflexivity.
  - destruct (String.eqb_spec k k0) as [<- | Hne]; cbn [ownProp].
    + destruct (k' =? k)%string; reflexivity.
    + rewrite IH. destruct (String.eqb_spec k' k0) as [-> | Hne'];
        [| reflexivity].
      destruct (String.eqb_spec k0 k) as [-> | _]; [congruence | reflexivity].
Qed.

Lemma hasOwn_deleteProp (k k' : string) (props : list (string * value)) :
  hasOwn k' (deleteProp k props) = negb (k' =? k)%string && hasOwn k' props.
Proof.
  induction props as [| [k0 v0] rest IH]; cbn [deleteProp hasOwn].
  - rewrite andb_false_r. reflexivity.
  - destruct (String.eqb_spec k k0) as [<- | Hne]; cbn [hasOwn]; rewrite IH.
    + destruct (k' =? k)%string; reflexivity.
    + destruct (String.eqb_spec k' k0) as [-> | Hne'].
      * destruct (String.eqb_spec k0 k) as [-> | _]; [congruence | reflexivity].
      * reflexivity.
Qed.

Lemma ownProp_deleteProp (k k' : string) (props : list (string * value)) :
  ownProp k' (deleteProp k props) =
  if (k' =? k)%string then JUndefined else ownProp k' props.
Proof.
  induction props as [| [k0 v0] rest IH]; cbn [deleteProp ownProp].
  - destruct (k' =? k)%string; reflexivity.
  - destruct (String.eqb_spec k k0) as [<- | Hne]; cbn [ownProp]; rewrite IH.
    + destruct (k' =? k)%string; reflexivity.
    + destruct (String.eqb_spec k' k0) as [-> | Hne']; [| reflexivity].
      destruct (String.eqb_spec k0 k) as [-> | _]; [congruence | reflexivity].
Qed.

Lemma ownProp_absent (k : string) (props : list (string * value)) :
  hasOwn k props = false -> ownProp k props = JUndefined.
Proof.
  induction props as [| [k0 v0] rest IH]; cbn [hasOwn ownProp];
    [reflexivity |].
  destruct (k =? k0)%string; [discriminate | exact IH].
Qed.

Lemma someText_strings (strs : list string) (t : string) :
  someText (map JStr strs) t =
  Ok (existsb (fun s => (toLowerCase (trim s) =? t)%string) strs).
Proof.
  induction strs as [| s rest IH]; [reflexivity |].
  cbn [map someText toString res_bind existsb].
  destruct (toLowerCase (trim s) =? t)%string; [reflexivity | exact IH].
Qed.

Lemma filterOthers_strings (strs : list string) (val : value) (t : string) :
  toString val = Ok t ->
  filterOthers (map JStr strs) val =
  Ok (map JStr
          (filter (fun s => negb (toLowerCase (trim s) =?
                                  toLowerCase (trim t))%string) strs)).
Proof.
  intros Ht. induction strs as [| s rest IH]; [reflexivity |].
  cbn [map filterOthers filter]. rewrite IH, Ht.
  cbn [toString res_bind].
  destruct (toLowerCase (trim s) =? toLowerCase (trim t))%string; reflexivity.
Qed.

(** Dropping values keeps the texts of the others distinct. *)
Lemma kept_texts_distinct (text : string -> string) (keep : string -> bool)
      (strs : list string) (Hnd : NoDup (map text strs)) :
  NoDup (map text (filter keep strs)).
Proof.
  induction strs as [| s rest IH]; cbn [map filter]; [constructor |].
  inversion_clear Hnd as [| ? ? Hnotin Hrest].
  destruct (keep s); [| exact (IH Hrest)].
  cbn [map]. constructor; [| exact (IH Hrest)].
  intros Hin. apply Hnotin. apply in_map_iff in Hin.
  destruct Hin as [x [Hx Hin]]. apply filter_In in Hin.
  apply in_map_iff. exists x. tauto.
Qed.

Lemma cleanValues_filter (strs : list string) (p : string -> bool) :
  cleanValues (map JStr strs) ->
  filter p strs <> [] ->
  cleanValues (map JStr (filter p strs)).
Proof.
  intros [strs' [Heq [_ [Hall Hnd]]]] Hne.
  assert (strs' = strs) as ->.
  { clear -Heq. revert strs' Heq.
    induction strs as [| s rest IH]; intros [| s' rest'] Heq;
      try discriminate; [reflexivity |].
    injection Heq as <- Hrest. f_equal. apply IH. exact Hrest. }
  exists (filter p strs). split; [reflexivity |]. split; [exact Hne |].
  split.
  - apply Forall_forall. intros x Hx. apply filter_In in Hx.
    exact (proj1 (Forall_forall _ _) Hall x (proj1 Hx)).
  - apply kept_texts_distinct. exact Hnd.
Qed.

Lemma map_JStr_inj (l1 l2 : list string) :
  map JStr l1 = map JStr l2 -> l1 = l2.
Proof.
  revert l2. induction l1 as [| s rest IH]; intros [| s' rest'] Heq;
    try discriminate; [reflexivity |].
  injection Heq as <- Hrest. f_equal. apply IH. exact Hrest.
Qed.

Lemma BanListOK_StringBans (banList : value) :
  BanListOK banList -> StringBans banList.
Proof.
  intros [props [-> Hok]]. split; [reflexivity |].
  intros key v _ Hin. unfold bannedValues in Hin. cbn in Hin.
  destruct (hasOwn key props) eqn:Eh.
  - destruct (Hok key Eh) as [vals [Hv [strs [-> _]]]].
    rewrite Hv in Hin. cbn in Hin. apply in_map_iff in Hin.
    destruct Hin as [s [<- _]]. exists s. reflexivity.
  - rewrite (ownProp_absent _ _ Eh) in Hin. destruct Hin.
Qed.

(** What the ban list holds under a key: clean strings, none when the key
    is absent. *)
Lemma BanListOK_values (props : list (string * value)) (key : string) :
  BanListOK (JObj props) ->
  exists strs,
    (if hasOwn key props then ownProp key props = JArr (map JStr strs)
     else ownProp key props = JUndefined /\ strs = []) /\
    bannedValues (JObj props) key = map JStr strs /\
    Forall (fun s => trim s = s /\ s <> "") strs /\
    NoDup (map toLowerCase strs).
Proof.
  intros [props' [Heq Hok]]. injection Heq as <-.
  unfold bannedValues. cbn [orDefault getField].
  destruct (hasOwn key props) eqn:Eh.
  - destruct (Hok key Eh) as [vals [Hv [strs [-> [_ [Hall Hnd]]]]]].
    exists strs. rewrite Hv. auto.
  - exists []. rewrite (ownProp_absent _ _ Eh). cbn.
    repeat split; constructor.
Qed.

(** [addBan] with a value that has text. *)
Lemma addBan_spec (key : string) (val prev : value) (s : string) :
  BanListOK prev ->
  key <> "" ->
  nullish val = false ->
  toString val = Ok s ->
  trim s <> "" ->
  exists next,
    addBan key val prev = Ok next /\
    BanListOK next /\
    (exists b, In (JStr b) (bannedValues next key) /\ sameText s b) /\
    (forall k v, In v (bannedValues prev k) -> In v (bannedValues next k)) /\
    (forall k, k <> key -> getField next k = getField prev k) /\
    ((forall b, In (JStr b) (bannedValues prev key) -> ~ sameText b s) ->
     bannedValues next key = bannedValues prev key ++ [JStr (trim s)]).
Proof.
  intros Hok Hkey Hval Hs Htrim.
  pose proof Hok as [props [-> Hprops]].
  destruct (BanListOK_values props key Hok) as [strs [Hcur [Hvals [Hall Hnd]]]].
  assert (((if isArray (ownProp key props)
            then elements (ownProp key props) else []) : list value) =
          map JStr strs) as Harr.
  { destruct (hasOwn key props).
    - rewrite Hcur. reflexivity.
    - destruct Hcur as [-> ->]. reflexivity. }
  unfold addBan.
  assert (truthy (JStr key) = true) as ->
    by (cbn; destruct (String.eqb_spec key ""); [contradiction | reflexivity]).
  rewrite Hval, Hs. cbn [negb orb res_bind].
  assert (truthy (JStr (trim s)) = true) as ->
    by (cbn; destruct (String.eqb_spec (trim s) "");
        [contradiction | reflexivity]).
  cbn [negb readProp nullish getField res_bind].
  rewrite Harr, someText_strings. cbn [res_bind].
  destruct (existsb _ strs) eqn:Eex.
  - (* the value is there already *)
    exists (JObj props). split; [reflexivity |]. split; [exact Hok |].
    apply existsb_exists in Eex. destruct Eex as [b [Hin Hb]].
    apply String.eqb_eq in Hb.
    split.
    { exists b. rewrite Hvals. split; [apply in_map; exact Hin |].
      unfold sameText. congruence. }
    split; [auto |]. split; [auto |].
    intros Hfresh. exfalso. apply (Hfresh b).
    + rewrite Hvals. apply in_map. exact Hin.
    + exact Hb.
  - (* the value is new *)
    eexists. split; [reflexivity |].
    assert (forall b, In b strs ->
              toLowerCase (trim b) <> toLowerCase (trim s)) as Hfresh.
    { intros b Hin Heq.
      assert (existsb (fun s0 => (toLowerCase (trim s0) =?
                                  toLowerCase (trim s))%string) strs = true)
        as Habs.
      { apply existsb_exists. exists b. split; [exact Hin |].
        apply String.eqb_eq. exact Heq. }
      congruence. }
    split.
    { exists (setProp key (JArr (map JStr strs ++ [JStr (trim s)]))
                      props).
      split; [reflexivity |].
      intros k Hk. rewrite ownProp_setProp.
      destruct (String.eqb_spec k key) as [-> | Hne].
      - eexists. split; [reflexivity |].
        exists (strs ++ [trim s]). split; [rewrite map_app; reflexivity |].
        split; [destruct strs; discriminate |].
        split.
        + apply Forall_app. split; [exact Hall |].
          constructor; [| constructor].
          split; [apply trim_idempotent | exact Htrim].
        + rewrite map_app. cbn [map].
          apply NoDup_app; [exact Hnd | constructor; [intros [] | constructor] |].
          intros x Hx [<- | []].
          apply in_map_iff in Hx. destruct Hx as [b [Hb Hin]].
          apply (Hfresh b Hin).
          destruct (proj1 (Forall_forall _ _) Hall b Hin) as [Hbt _].
          rewrite Hbt. congruence.
      - rewrite hasOwn_setProp in Hk.
        destruct (String.eqb_spec k key) as [Heq | _]; [contradiction |].
        exact (Hprops k Hk). }
    assert (bannedValues
              (JObj (setProp key (JArr (map JStr strs ++ [JStr (trim s)]))
                             (spread (JObj props)))) key =
            map JStr strs ++ [JStr (trim s)]) as Hnext.
    { unfold bannedValues. cbn [orDefault getField spread].
      rewrite ownProp_setProp, String.eqb_refl. reflexivity. }
    split.
    { exists (trim s). rewrite Hnext. split.
      - apply in_or_app. right. left. reflexivity.
      - unfold sameText. rewrite trim_idempotent. reflexivity. }
    split.
    { intros k v Hin. destruct (String.eqb_spec k key) as [-> | Hne].
      - rewrite Hnext. rewrite Hvals in Hin. apply in_or_app. left. exact Hin.
      - unfold bannedValues in *. cbn [orDefault getField spread] in *.
        rewrite ownProp_setProp.
        destruct (String.eqb_spec k key) as [Heq | _]; [contradiction |].
        exact Hin. }
    split.
    { intros k Hne. cbn [getField spread]. rewrite ownProp_setProp.
      destruct (String.eqb_spec k key) as [Heq | _]; [contradiction |].
      reflexivity. }
    intros _. rewrite Hnext, Hvals. reflexivity.
Qed.

(** [removeBan] on a key, with a value that can be printed. *)
Lemma removeBan_spec (key : string) (val prev : value) (t : string) :
  BanListOK prev ->
  toString val = Ok t ->
  exists next strs,
    removeBan key val prev = Ok next /\
    BanListOK next /\
    bannedValues prev key = map JStr strs /\
    bannedValues next key =
    map JStr (filter (fun s => negb (toLowerCase (trim s) =?
                                     toLowerCase (trim t))%string) strs) /\
    (forall k, k <> key -> getField next k = getField prev k).
Proof.
  intros Hok Ht.
  pose proof Hok as [props [-> Hprops]].
  destruct (BanListOK_values props key Hok) as [strs [Hcur [Hvals [Hall Hnd]]]].
  unfold removeBan. cbn [readProp nullish getField res_bind].
  destruct (hasOwn key props) eqn:Eh.
  - rewrite Hcur. cbn [truthy negb].
    rewrite (filterOthers_strings strs val t Ht). cbn [res_bind].
    remember (filter _ strs) as kept eqn:Ekept.
    eexists. exists strs. split; [reflexivity |].
    assert (cleanValues (map JStr strs)) as Hclean.
    { destruct (Hprops key Eh) as [vals [Hv Hc]].
      rewrite Hcur in Hv. injection Hv as <-. exact Hc. }
    rewrite length_map. cbn [spread].
    destruct kept as [| s0 kept'].
    + (* nothing is left under the key *)
      cbn [List.length Z.of_nat Z.ltb Z.compare].
      split.
      { exists (deleteProp key props). split; [reflexivity |].
        intros k Hk. rewrite hasOwn_deleteProp in Hk.
        rewrite ownProp_deleteProp.
        destruct (k =? key)%string; [discriminate |].
        exact (Hprops k Hk). }
      split; [exact Hvals |].
      split.
      { rewrite <- Ekept. unfold bannedValues. cbn [orDefault getField].
        rewrite ownProp_deleteProp, String.eqb_refl. reflexivity. }
      intros k Hne. cbn [getField]. rewrite ownProp_deleteProp.
      destruct (String.eqb_spec k key) as [Heq | _]; [contradiction |].
      reflexivity.
    + assert ((0 <? Z.of_nat (List.length (s0 :: kept'))) = true) as ->
        by (apply Z.ltb_lt; cbn [List.length]; lia).
      split.
      { exists (setProp key (JArr (map JStr (s0 :: kept'))) props).
        split; [reflexivity |].
        intros k Hk. rewrite ownProp_setProp.
        destruct (String.eqb_spec k key) as [-> | Hne].
        - eexists. split; [reflexivity |]. rewrite Ekept.
          apply cleanValues_filter; [exact Hclean |].
          rewrite <- Ekept. discriminate.
        - rewrite hasOwn_setProp in Hk.
          destruct (String.eqb_spec k key) as [Heq | _]; [contradiction |].
          exact (Hprops k Hk). }
      split; [exact Hvals |].
      split.
      { rewrite <- Ekept. unfold bannedValues. cbn [orDefault getField].
        rewrite ownProp_setProp, String.eqb_refl. reflexivity. }
      intros k Hne. cbn [getField]. rewrite ownProp_setProp.
      destruct (String.eqb_spec k key) as [Heq | _]; [contradiction |].
      reflexivity.
  - destruct Hcur as [Hcur ->]. rewrite Hcur. cbn [truthy negb].
    exists (JObj props), []. split; [reflexivity |].
    split; [exact Hok |]. split; [exact Hvals |].
    split; [rewrite Hvals; reflexivity | reflexivity].
Qed.

End BanListFacts.

Section BanListTheorems.

Context {NUM : Numbers}.

Lemma BanListOK_bannedValues (banList : value) (k : string) :
  BanListOK banList -> bannedValues banList k = elements (getField banList k).
Proof. intros [props [-> _]]. reflexivity. Qed.

Lemma BanListOK_lookup (a b : value) (k : string) :
  BanListOK a -> BanListOK b ->
  bannedValues a k = bannedValues b k ->
  getField a k = getField b k.
Proof.
  intros [pa [-> Ha]] [pb [-> Hb]]. unfold bannedValues.
  cbn [orDefault getField].
  assert (forall props,
            (forall k0, hasOwn k0 props = true ->
               exists vals, ownProp k0 props = JArr vals /\ cleanValues vals) ->
            (ownProp k props = JUndefined /\ hasOwn k props = false) \/
            (exists x rest, ownProp k props = JArr (x :: rest))) as Hshape.
  { intros props Hprops. destruct (hasOwn k props) eqn:Eh.
    - right. destruct (Hprops k Eh) as [vals [Hv [strs [-> [Hne _]]]]].
      destruct strs as [| s rest]; [contradiction |].
      exists (JStr s), (map JStr rest). exact Hv.
    - left. split; [apply ownProp_absent; exact Eh | reflexivity]. }
  destruct (Hshape pa Ha) as [[-> _] | [x [rest ->]]];
    destruct (Hshape pb Hb) as [[-> _] | [y [rest' ->]]]; cbn [elements];
    intros Heq; try discriminate; [reflexivity | congruence].
Qed.

(** X8. [addBan] keeps the ban list well formed: every key it holds
    is bound to a non-empty array of trimmed, non-empty strings, no two
    of them equal up to case.  It never drops a banned value, and it
    leaves the other keys alone. *)
Theorem addBan_keeps_the_ban_list_clean (key : string) (val prev next : value) :
  In key fixedKeys ->
  BanListOK prev ->
  addBan key val prev = Ok next ->
  BanListOK next /\
  (forall k v, In v (bannedValues prev k) -> In v (bannedValues next k)) /\
  (forall k, k <> key -> getField next k = getField prev k).
Proof.
  intros Hkey Hok Hrun.
  assert (key <> "") as Hk.
  { unfold fixedKeys in Hkey. cbn in Hkey.
    destruct Hkey as [<- | [<- | [<- | [<- | []]]]]; discriminate. }
  assert (next = prev \/
          exists s, nullish val = false /\ toString val = Ok s /\ trim s <> "")
    as [-> | [s [Hnull [Hs Htrim]]]].
  { unfold addBan in Hrun.
    destruct (nullish val).
    - rewrite orb_true_r in Hrun. injection Hrun as <-. left. reflexivity.
    - destruct (truthy (JStr key)); cbn [negb orb] in Hrun;
        [| injection Hrun as <-; left; reflexivity].
      destruct (toString val) as [s | e]; [| discriminate].
      cbn [res_bind] in Hrun.
      destruct (String.eqb_spec (trim s) "") as [Hempty | Hne].
      + rewrite Hempty in Hrun. cbn in Hrun. injection Hrun as <-.
        left. reflexivity.
      + right. exists s. auto. }
  - auto.
  - destruct (addBan_spec key val prev s Hok Hk Hnull Hs Htrim)
      as [next' [Hrun' [Hok' [_ [Hmono [Hother _]]]]]].
    rewrite Hrun in Hrun'. injection Hrun' as <-. auto.
Qed.

(** X9. [removeBan] keeps the ban list well formed too.  It adds nothing,
    leaves the other keys alone, and afterwards no value banned under the
    key has the text of the value removed. *)
Theorem removeBan_keeps_the_ban_list_clean (key : string) (val prev next : value) :
  In key fixedKeys ->
  BanListOK prev ->
  removeBan key val prev = Ok next ->
  BanListOK next /\
  (forall k v, In v (bannedValues next k) -> In v (bannedValues prev k)) /\
  (forall k, k <> key -> getField next k = getField prev k) /\
  (forall t b, toString val = Ok t ->
               In (JStr b) (bannedValues next key) -> ~ sameText b t).
Proof.
  intros _ Hok Hrun.
  destruct (toString val) as [t | e] eqn:Et.
  - destruct (removeBan_spec key val prev t Hok Et)
      as [next' [strs [Hrun' [Hok' [Hprev [Hnext Hother]]]]]].
    rewrite Hrun in Hrun'. injection Hrun' as <-.
    split; [exact Hok' |]. split; [| split; [exact Hother |]].
    + intros k v Hin. destruct (String.eqb_spec k key) as [-> | Hne].
      * rewrite Hprev. rewrite Hnext in Hin. apply in_map_iff in Hin.
        destruct Hin as [x [<- Hx]]. apply filter_In in Hx.
        apply in_map. tauto.
      * rewrite (BanListOK_bannedValues _ _ Hok).
        rewrite (BanListOK_bannedValues _ _ Hok') in Hin.
        rewrite <- (Hother k Hne). exact Hin.
    + intros t' b Ht' Hin. injection Ht' as <-.
      rewrite Hnext in Hin. apply in_map_iff in Hin.
      destruct Hin as [x [Hx Hin]]. injection Hx as ->.
      apply filter_In in Hin. destruct Hin as [_ Hp].
      unfold sameText. intros Heq. rewrite Heq, String.eqb_refl in Hp.
      discriminate.
  - assert (next = prev) as ->.
    { pose proof Hok as [props [-> Hprops]].
      unfold removeBan in Hrun. cbn [readProp nullish getField res_bind] in Hrun.
      destruct (hasOwn key props) eqn:Eh.
      - destruct (Hprops key Eh) as [vals [Hv [strs [-> [Hne _]]]]].
        rewrite Hv in Hrun. destruct strs as [| s rest]; [contradiction |].
        cbn [truthy negb map filterOthers toString res_bind] in Hrun.
        rewrite Et in Hrun. discriminate.
      - rewrite (ownProp_absent _ _ Eh) in Hrun. cbn in Hrun.
        injection Hrun as <-. reflexivity. }
    split; [exact Hok |]. split; [auto |]. split; [auto |].
    intros t b Ht. discriminate.
Qed.

(** X10. Removing a value that has just been added restores the ban
    list, when the value was not banned under the key before: every key
    reads as it did. *)
Theorem removeBan_undoes_addBan (key : string) (val prev : value) (s : string) :
  In key fixedKeys ->
  BanListOK prev ->
  nullish val = false ->
  toString val = Ok s ->
  trim s <> "" ->
  (forall b, In (JStr b) (bannedValues prev key) -> ~ sameText b s) ->
  exists mid next,
    addBan key val prev = Ok mid /\
    removeBan key val mid = Ok next /\
    forall k, getField next k = getField prev k.
Proof.
  intros Hkey Hok Hnull Hs Htrim Hfresh.
  assert (key <> "") as Hk.
  { unfold fixedKeys in Hkey. cbn in Hkey.
    destruct Hkey as [<- | [<- | [<- | [<- | []]]]]; discriminate. }
  destruct (addBan_spec key val prev s Hok Hk Hnull Hs Htrim)
    as [mid [Hadd [Hmid [_ [_ [Hother Happ]]]]]].
  specialize (Happ Hfresh).
  destruct (removeBan_spec key val mid s Hmid Hs)
    as [next [strs [Hrem [Hnext [Hvals [Hkept Hother']]]]]].
  exists mid, next. split; [exact Hadd |]. split; [exact Hrem |].
  intros k. destruct (String.eqb_spec k key) as [-> | Hne].
  - apply (BanListOK_lookup _ _ _ Hnext Hok). rewrite Hkept.
    pose proof Hok as [props [Hp _]].
    destruct (BanListOK_values props key) as [old [_ [Hold _]]];
      [rewrite <- Hp; exact Hok |].
    rewrite <- Hp in Hold. rewrite Hold in Happ, Hfresh |- *.
    rewrite Happ in Hvals.
    assert (strs = old ++ [trim s]) as ->.
    { apply map_JStr_inj. rewrite <- Hvals, map_app. reflexivity. }
    f_equal. rewrite filter_app. cbn [filter].
    rewrite trim_idempotent, String.eqb_refl. cbn [negb].
    rewrite app_nil_r. apply forallb_filter_id. apply forallb_forall.
    intros x Hx. apply negb_true_iff.
    destruct (String.eqb_spec (toLowerCase (trim x)) (toLowerCase (trim s)))
      as [Heq | _]; [| reflexivity].
    exfalso. apply (Hfresh x); [apply in_map; exact Hx | exact Heq].
  - rewrite (Hother' k Hne). apply Hother. exact Hne.
Qed.

(** X11. After the click on the button of a scalar attribute whose value
    has text, the ban list excludes every record that carries this text
    under the key, the record on display among them. *)
Theorem banning_an_attribute_excludes_it (key a : string) (prev : value) :
  In key scalarKeys ->
  BanListOK prev ->
  trim a <> "" ->
  exists next,
    addBan key (JStr a) prev = Ok next /\
    forall record a',
      Displayable record ->
      getField (attrsOf record) key = JStr a' ->
      sameText a' a ->
      isBanned record next = Ok true.
Proof.
  intros Hkey Hok Htrim.
  assert (key <> "") as Hk.
  { unfold scalarKeys in Hkey. cbn in Hkey.
    destruct Hkey as [<- | [<- | [<- | []]]]; discriminate. }
  destruct (addBan_spec key (JStr a) prev a Hok Hk eq_refl eq_refl Htrim)
    as [next [Hadd [Hnext [[b [Hin Hb]] _]]]].
  exists next. split; [exact Hadd |].
  intros record a' Hrec Ha Hsame.
  destruct (isBanned_decides record next Hrec (BanListOK_StringBans _ Hnext))
    as [r [Hr Hiff]].
  rewrite Hr. f_equal. apply Hiff. left.
  exists key, a', b. repeat split; try assumption.
  unfold sameText in *. congruence.
Qed.

(** X12. Every temperament button of the card carries a token of the
    temperament on display, and after the click the ban list excludes
    every record whose temperament has this token. *)
Theorem banning_a_temperament_excludes_it (temperament v : string) (prev : value) :
  In v (temperamentButtons temperament) ->
  BanListOK prev ->
  In (toLowerCase v) (temperamentTokens temperament) /\
  exists next,
    addBan "temperament" (JStr v) prev = Ok next /\
    forall record temperament',
      Displayable record ->
      getField (attrsOf record) "temperament" = JStr temperament' ->
      In (toLowerCase v) (temperamentTokens temperament') ->
      isBanned record next = Ok true.
Proof.
  intros Hv Hok. unfold temperamentButtons in Hv.
  apply filter_In in Hv. destruct Hv as [Hv Hne].
  apply in_map_iff in Hv. destruct Hv as [piece [<- Hpiece]].
  assert (trim piece <> "") as Htrim.
  { cbn in Hne. destruct (String.eqb_spec (trim piece) "");
      [discriminate | assumption]. }
  split.
  { apply temperamentTokens_spec. exists piece.
    split; [exact Hpiece |]. split; [reflexivity |].
    intros H. apply (proj1 (toLowerCase_empty _)) in H. contradiction. }
  destruct (addBan_spec "temperament" (JStr (trim piece)) prev (trim piece) Hok)
    as [next [Hadd [Hnext [[b [Hin Hb]] _]]]];
    [discriminate | reflexivity | reflexivity |
     rewrite trim_idempotent; exact Htrim |].
  exists next. split; [exact Hadd |].
  intros record t' Hrec Ht Htok.
  destruct (isBanned_decides record next Hrec (BanListOK_StringBans _ Hnext))
    as [r [Hr Hiff]].
  rewrite Hr. f_equal. apply Hiff. right.
  exists t', (toLowerCase (trim piece)), b.
  repeat split; try assumption.
  unfold sameText in Hb. rewrite trim_idempotent in Hb. exact Hb.
Qed.

Lemma Built_BanListOK (banList : value) : Built banList -> BanListOK banList.
Proof.
  induction 1 as [| key val prev next Hkey _ IH Hrun
                  | key val prev next Hkey _ IH Hrun].
  - exists []. split; [reflexivity |]. intros k Hk. discriminate.
  - assert (key <> "") as Hk.
    { unfold fixedKeys in Hkey. cbn in Hkey.
      destruct Hkey as [<- | [<- | [<- | [<- | []]]]]; discriminate. }
    unfold addBan in Hrun.
    destruct (nullish val) eqn:Hnull.
    { rewrite orb_true_r in Hrun. injection Hrun as <-. exact IH. }
    destruct (truthy (JStr key)); cbn [negb orb] in Hrun;
      [| injection Hrun as <-; exact IH].
    destruct (toString val) as [s | e] eqn:Hs; [| discriminate].
    cbn [res_bind] in Hrun.
    destruct (String.eqb_spec (trim s) "") as [Hempty | Hne].
    { rewrite Hempty in Hrun. cbn in Hrun. injection Hrun as <-. exact IH. }
    destruct (addBan_spec key val prev s IH Hk Hnull Hs Hne)
      as [next' [Hrun' [Hok' _]]].
    unfold addBan in Hrun'. rewrite Hnull, Hs in Hrun'.
    assert (truthy (JStr key) = true) as Htk
      by (cbn; destruct (String.eqb_spec key "");
          [contradiction | reflexivity]).
    rewrite Htk in Hrun'. cbn [negb orb res_bind] in Hrun'.
    rewrite Hrun in Hrun'. injection Hrun' as <-. exact Hok'.
  - destruct (toString val) as [t | e] eqn:Et.
    + destruct (removeBan_spec key val prev t IH Et)
        as [next' [strs [Hrun' [Hok' _]]]].
      rewrite Hrun in Hrun'. injection Hrun' as <-. exact Hok'.
    + pose proof IH as [props [-> Hprops]].
      unfold removeBan in Hrun. cbn [readProp nullish getField res_bind] in Hrun.
      destruct (hasOwn key props) eqn:Eh.
      * destruct (Hprops key Eh) as [vals [Hv [strs [-> [Hne _]]]]].
        rewrite Hv in Hrun. destruct strs as [| s rest]; [contradiction |].
        cbn [truthy negb map filterOthers toString res_bind] in Hrun.
        rewrite Et in Hrun. discriminate.
      * rewrite (ownProp_absent _ _ Eh) in Hrun. cbn in Hrun.
        injection Hrun as <-. exact IH.
Qed.

Lemma anyEq_undefined (bs : list value) : anyEq JUndefined bs = Ok false.
Proof. induction bs as [| b rest IH]; [reflexivity | exact IH]. Qed.

(** X13. A ban list the application has built never excludes a record on
    a key the record has no data under: the application keeps blank
    values out of the ban list. *)
Theorem built_ban_lists_ignore_missing_data
        (banList record : value) (key : string) :
  Built banList ->
  In key fixedKeys ->
  noData record key ->
  bannedOn key record banList = Ok false.
Proof.
  intros Hbuilt Hkey Hno.
  pose proof (Built_BanListOK _ Hbuilt) as Hok.
  pose proof (BanListOK_StringBans _ Hok) as Hstr.
  pose proof Hok as [props [-> Hprops]].
  destruct (BanListOK_values props key Hok) as [strs [_ [Hvals [Hall _]]]].
  apply In_fixedKeys in Hkey. destruct Hkey as [-> | Hkey].
  - unfold bannedOn. cbn [String.eqb Ascii.eqb Bool.eqb orDefault].
    unfold temperamentCheck. cbn [readProp nullish getField res_bind].
    assert (or_ (getField (attrsOf record) "temperament") (JStr "") = JStr "")
      as -> by (destruct Hno as [-> | ->]; reflexivity).
    destruct (isNonEmptyArray _); [| reflexivity].
    unfold bannedValues in Hvals. cbn [orDefault getField] in Hvals.
    rewrite Hvals.
    destruct (anyToken_strings (temperamentTokens "") (map JStr strs))
      as [b [Hb Hiff]].
    { apply Forall_forall. intros v Hv. apply in_map_iff in Hv.
      destruct Hv as [s [<- _]]. eauto. }
    rewrite Hb. f_equal. destruct b; [| reflexivity].
    destruct (proj1 Hiff eq_refl) as [s [_ []]].
  - rewrite (bannedOn_scalar _ _ _ Hkey). cbn [orDefault].
    unfold scalarCheck. cbn [readProp nullish getField res_bind].
    destruct (isNonEmptyArray _); [| reflexivity].
    unfold bannedValues in Hvals. cbn [orDefault getField] in Hvals.
    rewrite Hvals.
    destruct Hno as [-> | ->]; [| apply anyEq_undefined].
    destruct (anyEq_strings "" (map JStr strs)) as [b [Hb Hiff]].
    { apply Forall_forall. intros v Hv. apply in_map_iff in Hv.
      destruct Hv as [s [<- _]]. eauto. }
    rewrite Hb. f_equal. destruct b; [| reflexivity].
    destruct (proj1 Hiff eq_refl) as [s [Hin Hs]].
    apply in_map_iff in Hin. destruct Hin as [s' [Heq Hin]].
    injection Heq as ->.
    destruct (proj1 (Forall_forall _ _) Hall s Hin) as [Hts Hne].
    unfold sameText in Hs. rewrite Hts in Hs. cbn in Hs.
    symmetry in Hs. apply (proj1 (toLowerCase_empty _)) in Hs. contradiction.
Qed.

End BanListTheorems.

(** ** The fetch handler *)

Section HandlerTheorems.

Context {NUM : Numbers}.

Lemma isBanned_default (item banList : value) :
  isBanned item (orDefault banList (JObj [])) = isBanned item banList.
Proof.
  unfold isBanned.
  assert (orDefault (orDefault banList (JObj [])) (JObj []) =
          orDefault banList (JObj [])) as -> by (destruct banList; reflexivity).
  reflexivity.
Qed.

Lemma errorShown_exhausted :
  errorShown exhausted =
  "No available result found after multiple attempts. Try removing some bans and try again.".
Proof. reflexivity. Qed.

(** X14. However the request ends, [handleFetch] switches the loading
    flag off again and issues at most eight searches.  Either it puts a
    record on display that the ban list of the render does not exclude,
    clears the error and puts that record at the head of the history, cut
    to fifty entries; or it takes the record off display and sets an
    error message, leaving the history alone. *)
Theorem handleFetch_outcome
        (env : Env) (banList : value) (w : World)
        (st : AppState) (items : list value) :
  history st = JArr items ->
  exists st' trace,
    snd (handleFetch env banList w) = w ++ trace /\
    (primaryCalls trace <= 8)%nat /\
    applySetters st (fst (handleFetch env banList w)) = Ok st' /\
    loading st' = false /\
    ((error st' = JNull /\
      truthy (dog st') = true /\
      isBanned (dog st') banList = Ok false /\
      clearOf (dog st') banList /\
      history st' = JArr (firstn 50 (dog st' :: items))) \/
     (dog st' = JNull /\
      history st' = history st /\
      exists msg, error st' = JStr msg)).
Proof.
  intros Hh. unfold handleFetch. cbv zeta.
  destruct (fetchAvailable env) eqn:Ef.
  - destruct (fetchRandomDog_run env (mkOptions banList (Some 8) None) w Ef)
      as [out [w' [Hrun [trace [Hw [_ [Hpc Hout]]]]]]].
    rewrite Hrun. unfold budget in Hpc. cbn in Hpc.
    destruct out as [res | e |]; [| | contradiction].
    + destruct Hout as [t0 [t1 [_ [_ Ho]]]].
      pose proof (Origin_Accepted _ _ _ _ Ho) as Hacc.
      pose proof (Accepted_clearOf _ _ Hacc) as Hclear.
      destruct Hacc as [_ [Htruthy Hban]].
      cbn [banListOf opt_banList] in Hban, Hclear.
      eexists. exists trace. cbn [fst snd]. split; [exact Hw |].
      split; [lia |].
      cbn [applySetters applySetter res_bind dog loading error history].
      rewrite Hh. cbn [pushHistory res_bind].
      split; [reflexivity |]. split; [reflexivity |]. left.
      cbn [dog loading error history].
      split; [reflexivity |]. split; [exact Htruthy |].
      split; [rewrite <- isBanned_default; exact Hban |].
      split; [apply clearOf_default; exact Hclear | reflexivity].
    + eexists. exists trace. cbn [fst snd]. split; [exact Hw |].
      split; [lia |].
      cbn [applySetters applySetter res_bind dog loading error history].
      split; [reflexivity |]. split; [reflexivity |]. right.
      cbn [dog loading error history].
      split; [reflexivity |]. split; [reflexivity |]. eexists. reflexivity.
  - rewrite (fetchRandomDog_no_fetch env _ w Ef).
    eexists. exists []. cbn [fst snd]. split; [rewrite app_nil_r; reflexivity |].
    split; [cbn; lia |].
    cbn [applySetters applySetter res_bind dog loading error history].
    split; [reflexivity |]. split; [reflexivity |]. right.
    cbn [dog loading error history].
    split; [reflexivity |]. split; [reflexivity |]. eexists. reflexivity.
Qed.

(** X15. When each of the eight searches of a request is answered by a
    batch in which every item is excluded, [handleFetch] shows its own
    message for the exhaustion error of the client: the text the client
    throws is the text the handler looks for. *)
Theorem handleFetch_reports_exhaustion (env : Env) (banList : value) (w : World) :
  fetchAvailable env = true ->
  (forall n, (fetchCount w <= n < fetchCount w + 8)%nat ->
             allExcluded env (orDefault banList (JObj [])) n) ->
  exists trace,
    handleFetch env banList w =
    ([SetLoading true; SetError JNull;
      SetError (JStr "No available result found after multiple attempts. Try removing some bans and try again.");
      SetDog JNull; SetLoading false],
     w ++ trace) /\
    primaryCalls trace = 8%nat /\
    List.length (requests trace) = 8%nat.
Proof.
  intros Hf Hall.
  destruct (retryLoop_all_skipped env (orDefault banList (JObj [])) 8 8000
              8%nat 0 w) as [trace [Hrun [Hpc Hlen]]].
  - unfold budget. cbn. lia.
  - unfold budget. cbn. exact Hall.
  - exists trace. unfold budget in Hpc, Hlen.
    change (Z.to_nat (8 - 0)) with 8%nat in Hpc, Hlen.
    split; [| split; assumption].
    unfold handleFetch, fetchRandomDog. cbv zeta. rewrite Hf.
    unfold banListOf, maxAttemptsOf, timeoutOf.
    cbn [negb opt_banList opt_maxAttempts opt_timeout].
    change (Z.to_nat 8) with 8%nat. rewrite Hrun, errorShown_exhausted.
    reflexivity.
Qed.

End HandlerTheorems.

(** ** The earlier revision of [addBan] *)

Section EarlierAppTheorems.

Context {NUM : Numbers}.

Lemma someSame_strings (arr : list value) (t : string) :
  Forall (fun v => exists s, v = JStr s) arr ->
  exists b,
    someSame arr (JStr t) = Ok b /\
    (b = true -> exists s, In (JStr s) arr /\ sameText t s).
Proof.
  induction arr as [| v rest IH]; intros Hall.
  - exists false. split; [reflexivity | discriminate].
  - inversion_clear Hall as [| ? ? [s ->] Hrest].
    destruct (IH Hrest) as [b [Hb Himp]].
    cbn [someSame toString res_bind].
    destruct (String.eqb_spec (toLowerCase (trim s)) (toLowerCase (trim t)))
      as [Heq | Hne].
    + exists true. split; [reflexivity |]. intros _. exists s.
      split; [left; reflexivity | symmetry; exact Heq].
    + exists b. split; [exact Hb |]. intros Ht.
      destruct (Himp Ht) as [s' [Hin Hs]]. exists s'.
      split; [right; exact Hin | exact Hs].
Qed.

Lemma Strict_isBanned_same (item banList : value) :
  truthy (getField item "attributes") = true ->
  Strict.isBanned item banList = isBanned item banList.
Proof.
  intros Ha. unfold Strict.isBanned, isBanned, or_. rewrite Ha.
  destruct (truthy item); reflexivity.
Qed.

(** X16. The earlier revision of the component takes a blank value into
    the ban list when the button of an empty scalar attribute is clicked,
    and from then on either revision of [isBanned] excludes every record
    whose attribute under the key is empty.  The current [addBan] ignores
    such a click. *)
Theorem earlier_addBan_takes_blank_values
        (key : string) (props : list (string * value)) :
  In key scalarKeys ->
  StringBans (JObj props) ->
  addBan key (JStr "") (JObj props) = Ok (JObj props) /\
  exists next,
    EarlierApp.addBan key (JStr "") (JObj props) = Ok next /\
    (exists b, In (JStr b) (bannedValues next key) /\ trim b = "") /\
    forall record,
      Displayable record ->
      getField (attrsOf record) key = JStr "" ->
      Strict.isBanned record next = Ok true /\
      isBanned record next = Ok true.
Proof.
  intros Hkey Hstr.
  assert (truthy (JStr key) = true) as Hk.
  { unfold scalarKeys in Hkey. cbn in Hkey.
    destruct Hkey as [<- | [<- | [<- | []]]]; reflexivity. }
  split.
  { unfold addBan. rewrite Hk. reflexivity. }
  set (arr := if isArray (ownProp key props)
              then elements (ownProp key props) else []).
  assert (arr = bannedValues (JObj props) key) as Harr.
  { unfold arr, bannedValues. cbn [orDefault getField].
    destruct (ownProp key props); reflexivity. }
  assert (Forall (fun v => exists s, v = JStr s) arr) as Hall.
  { apply Forall_forall. intros v Hv. rewrite Harr in Hv.
    destruct Hstr as [_ Hs]. apply (Hs key); [| exact Hv].
    apply In_fixedKeys. right. exact Hkey. }
  destruct (someSame_strings arr "" Hall) as [hit [Hsome Hhit]].
  assert (forall next,
            StringBans next ->
            (exists b, In (JStr b) (bannedValues next key) /\ sameText "" b) ->
            forall record,
              Displayable record ->
              getField (attrsOf record) key = JStr "" ->
              Strict.isBanned record next = Ok true /\
              isBanned record next = Ok true) as Hexcl.
  { intros next Hnext [b [Hin Hb]] record Hrec Ha.
    assert (truthy (getField record "attributes") = true) as Hattrs.
    { unfold attrsOf, or_ in Ha.
      destruct (truthy (getField record "attributes")); [reflexivity |].
      cbn in Ha. discriminate. }
    rewrite (Strict_isBanned_same _ _ Hattrs).
    destruct (isBanned_decides record next Hrec Hnext) as [r [Hr Hiff]].
    assert (r = true) as ->.
    { apply Hiff. left. exists key, "", b. auto. }
    auto. }
  assert (forall b, sameText "" b -> trim b = "") as Hblank.
  { intros b Hb. unfold sameText in Hb. cbn in Hb. symmetry in Hb.
    apply (proj1 (toLowerCase_empty _)) in Hb. exact Hb. }
  unfold EarlierApp.addBan. rewrite Hk.
  cbn [negb orb nullish readProp getField res_bind]. fold arr.
  rewrite Hsome. cbn [res_bind]. destruct hit.
  - exists (JObj props). split; [reflexivity |].
    destruct (Hhit eq_refl) as [b [Hin Hb]]. rewrite Harr in Hin.
    split; [exists b; auto |].
    apply Hexcl; [exact Hstr | exists b; auto].
  - eexists. split; [reflexivity |].
    assert (bannedValues
              (JObj (setProp key (JArr (arr ++ [JStr ""])) (spread (JObj props))))
              key = arr ++ [JStr ""]) as Hnext.
    { unfold bannedValues. cbn [orDefault getField spread].
      rewrite ownProp_setProp, String.eqb_refl. reflexivity. }
    assert (In (JStr "") (arr ++ [JStr ""])) as Hin
      by (apply in_or_app; right; left; reflexivity).
    split; [exists ""; rewrite Hnext; auto |].
    apply Hexcl.
    + split; [reflexivity |]. intros k v Hkf Hv.
      destruct (String.eqb_spec k key) as [-> | Hne].
      * rewrite Hnext in Hv. apply in_app_or in Hv.
        destruct Hv as [Hv | [<- | []]]; [| eauto].
        exact (proj1 (Forall_forall _ _) Hall v Hv).
      * destruct Hstr as [_ Hs]. apply (Hs k v Hkf).
        unfold bannedValues in *. cbn [orDefault getField spread] in *.
        rewrite ownProp_setProp in Hv.
        destruct (String.eqb_spec k key) as [Heq | _]; [contradiction |].
        exact Hv.
    + exists "". rewrite Hnext. split; [exact Hin | reflexivity].
Qed.

End EarlierAppTheorems.

(** ** The further properties at work *)

Lemma poodle_Displayable : Displayable (normalizeImageObj poodle).
Proof.
  split; [reflexivity |].
  intros key [<- | [<- | [<- | [<- | []]]]]; eexists; reflexivity.
Qed.


Lemma image_Displayable : Displayable (normalizeImageObj (rawImage "n1")).
Proof.
  split; [reflexivity |].
  intros key [<- | [<- | [<- | [<- | []]]]]; eexists; reflexivity.
Qed.


Lemma someBans_BanListOK : BanListOK someBans.
Proof.
  eexists. split; [reflexivity |].
  intros k. cbn [hasOwn ownProp].
  destruct (String.eqb_spec k "breed") as [-> | _].
  - intros _. eexists. split; [reflexivity |].
    exists ["Beagle"; "Pug"]. split; [reflexivity |].
    split; [discriminate |]. split.
    + repeat constructor; discriminate.
    + cbn. repeat constructor; cbn; intuition discriminate.
  - destruct (String.eqb_spec k "temperament") as [-> | _]; [| discriminate].
    intros _. eexists. split; [reflexivity |].
    exists ["Stubborn"]. split; [reflexivity |].
    split; [discriminate |]. split.
    + repeat constructor; discriminate.
    + cbn. repeat constructor; cbn; intuition discriminate.
Qed.

(** Two failures, then a Poodle. *)
Lemma transient_failures_are_retried_witness :
  (forall i, (i < 2)%nat -> primaryFails recoveringEnv i) /\
  fetchRandomDog recoveringEnv (sampleOptions 5) [] =
  (Returned (normalizeImageObj poodle),
   [EFetch url (JObj []) 8000; ESleep 300;
    EFetch url (JObj []) 8000; ESleep 300;
    EFetch url (JObj []) 8000;
    EDebug "fetchRandomDog: accepted item with breed" [JStr "p1"]]).
Proof.
  assert (forall i, (i < 2)%nat -> primaryFails recoveringEnv i)
    as Hfail.
  { intros [| [| i]] Hi; [exact I | left; reflexivity | lia]. }
  split; [exact Hfail |].
  apply (transient_failures_are_retried recoveringEnv (sampleOptions 5) [] 2
           poodle [] (normalizeImageObj poodle)).
  - reflexivity.
  - reflexivity.
  - exact Hfail.
  - exists (okResponse (JArr [poodle])).
    split; [reflexivity |]. split; [reflexivity |].
    split; [reflexivity | discriminate].
  - vm_compute. reflexivity.
Defined.

(** No ban list at all: the Beagle that comes first is returned. *)
Lemma no_bans_first_item_wins_witness :
  isBanned (normalizeImageObj beagle) JUndefined = Ok false /\
  fst (fetchRandomDog beagleEnv
         (mkOptions (NUM := IntegerNumbers) JUndefined (Some 3) None) []) =
  Returned (normalizeImageObj beagle).
Proof.
  destruct (no_bans_first_item_wins beagleEnv
              (mkOptions (NUM := IntegerNumbers) JUndefined (Some 3) None) []
              beagle []) as [Hnone Hrun].
  - reflexivity.
  - reflexivity.
  - left. reflexivity.
  - exists (okResponse (JArr [beagle])).
    split; [reflexivity |]. split; [reflexivity |].
    split; [reflexivity | discriminate].
  - reflexivity.
  - reflexivity.
  - split; [exact (Hnone (normalizeImageObj beagle)) |].
    rewrite Hrun. reflexivity.
Defined.


(** The run that recovers after two failures pauses twice. *)
Lemma pauses_are_bounded_witness :
  exists w',
    fetchRandomDog recoveringEnv (sampleOptions 5) [] =
    (Returned (normalizeImageObj poodle), w') /\
    pauseTime w' = 600 /\
    pauseTime w' <= 300 * (maxAttemptsOf (sampleOptions 5) - 1).
Proof.
  assert (fetchRandomDog recoveringEnv (sampleOptions 5) [] =
          (Returned (normalizeImageObj poodle),
           snd (fetchRandomDog recoveringEnv (sampleOptions 5) []))) as Hrun
    by (vm_compute; reflexivity).
  eexists. split; [exact Hrun |]. split; [vm_compute; reflexivity |].
  destruct (pauses_are_bounded recoveringEnv (sampleOptions 5) [] _ _ Hrun)
    as [_ [_ Hret]].
  exact (Hret _ eq_refl).
Defined.

(** A third breed is added, trimmed. *)
Lemma addBan_keeps_the_ban_list_clean_witness :
  let next :=
    JObj [("breed", JArr [JStr "Beagle"; JStr "Pug"; JStr "Poodle"]);
          ("temperament", JArr [JStr "Stubborn"])] in
  addBan "breed" (JStr " Poodle ") someBans = Ok next /\
  BanListOK next /\
  forall v, In v (bannedValues someBans "breed") ->
            In v (bannedValues next "breed").
Proof.
  intros next.
  assert (addBan "breed" (JStr " Poodle ") someBans = Ok next) as Hrun
    by (vm_compute; reflexivity).
  split; [exact Hrun |].
  destruct (addBan_keeps_the_ban_list_clean "breed" (JStr " Poodle ") someBans next)
    as [Hok [Hmono _]].
  - unfold fixedKeys. cbn. auto.
  - exact someBans_BanListOK.
  - exact Hrun.
  - split; [exact Hok |]. intros v. apply Hmono.
Defined.

(** One of the two breeds is removed, whatever its case. *)
Lemma removeBan_keeps_the_ban_list_clean_witness :
  let next :=
    JObj [("breed", JArr [JStr "Beagle"]);
          ("temperament", JArr [JStr "Stubborn"])] in
  removeBan "breed" (JStr "PUG") someBans = Ok next /\
  BanListOK next /\
  forall b, In (JStr b) (bannedValues next "breed") -> ~ sameText b "PUG".
Proof.
  intros next.
  assert (removeBan "breed" (JStr "PUG") someBans = Ok next) as Hrun
    by (vm_compute; reflexivity).
  split; [exact Hrun |].
  destruct (removeBan_keeps_the_ban_list_clean "breed" (JStr "PUG") someBans next)
    as [Hok [_ [_ Hgone]]].
  - unfold fixedKeys. cbn. auto.
  - exact someBans_BanListOK.
  - exact Hrun.
  - split; [exact Hok |]. intros b. apply (Hgone "PUG"). reflexivity.
Defined.

(** A weight is banned and released again. *)
Lemma removeBan_undoes_addBan_witness :
  exists mid next,
    addBan "weight" (JStr "20 - 35") someBans = Ok mid /\
    removeBan "weight" (JStr "20 - 35") mid = Ok next /\
    forall k, getField next k = getField someBans k.
Proof.
  apply (removeBan_undoes_addBan "weight" (JStr "20 - 35") someBans "20 - 35").
  - unfold fixedKeys. cbn. auto 10.
  - exact someBans_BanListOK.
  - reflexivity.
  - reflexivity.
  - vm_compute. discriminate.
  - intros b Hin. vm_compute in Hin. contradiction.
Defined.

(** The breed button of a Poodle. *)
Lemma banning_an_attribute_excludes_it_witness :
  exists next,
    addBan "breed" (JStr "Poodle") someBans = Ok next /\
    isBanned (normalizeImageObj poodle) next = Ok true.
Proof.
  destruct (banning_an_attribute_excludes_it "breed" "Poodle" someBans)
    as [next [Hadd Hexcl]].
  - unfold scalarKeys. cbn. auto.
  - exact someBans_BanListOK.
  - vm_compute. discriminate.
  - exists next. split; [exact Hadd |].
    apply (Hexcl (normalizeImageObj poodle) "Poodle").
    + exact poodle_Displayable.
    + reflexivity.
    + reflexivity.
Defined.

(** The second temperament button of a Poodle. *)
Lemma banning_a_temperament_excludes_it_witness :
  In "Active" (temperamentButtons (NUM := IntegerNumbers) "Smart, Active") /\
  exists next,
    addBan "temperament" (JStr "Active") someBans = Ok next /\
    isBanned (normalizeImageObj poodle) next = Ok true.
Proof.
  assert (In "Active" (temperamentButtons (NUM := IntegerNumbers) "Smart, Active")) as Hin
    by (vm_compute; auto).
  split; [exact Hin |].
  destruct (banning_a_temperament_excludes_it "Smart, Active" "Active" someBans
              Hin someBans_BanListOK) as [Htok [next [Hadd Hexcl]]].
  exists next. split; [exact Hadd |].
  apply (Hexcl (normalizeImageObj poodle) "Smart, Active").
  - exact poodle_Displayable.
  - reflexivity.
  - exact Htok.
Defined.

(** A ban list with one breed, and an image without breed data. *)
Lemma built_ban_lists_ignore_missing_data_witness :
  Built (NUM := IntegerNumbers) (JObj [("breed", JArr [JStr "Poodle"])]) /\
  noData (normalizeImageObj (rawImage "n1")) "breed" /\
  bannedOn "breed" (normalizeImageObj (rawImage "n1"))
           (JObj [("breed", JArr [JStr "Poodle"])]) = Ok false.
Proof.
  assert (Built (NUM := IntegerNumbers) (JObj [("breed", JArr [JStr "Poodle"])]))
    as Hbuilt.
  { apply (Built_add "breed" (JStr "Poodle") (JObj [])).
    - unfold fixedKeys. cbn. auto.
    - exact Built_initial.
    - vm_compute. reflexivity. }
  assert (noData (normalizeImageObj (rawImage "n1")) "breed") as Hno
    by (left; reflexivity).
  split; [exact Hbuilt |]. split; [exact Hno |].
  apply built_ban_lists_ignore_missing_data.
  - exact Hbuilt.
  - unfold fixedKeys. cbn. auto.
  - exact Hno.
Defined.

(** The first fetch of a session, with beagles banned. *)
Lemma handleFetch_outcome_witness :
  exists st',
    applySetters (mkAppState JNull false JNull (JArr []))
                 (fst (handleFetch sampleEnv noBeagles [])) = Ok st' /\
    loading st' = false /\
    ((error st' = JNull /\ isBanned (dog st') noBeagles = Ok false /\
      history st' = JArr (firstn 50 [dog st'])) \/
     dog st' = JNull).
Proof.
  destruct (handleFetch_outcome sampleEnv noBeagles []
              (mkAppState JNull false JNull (JArr [])) [] eq_refl)
    as [st' [trace [_ [_ [Happly [Hload Hcases]]]]]].
  exists st'. split; [exact Happly |]. split; [exact Hload |].
  destruct Hcases as [[He [_ [Hb [_ Hh]]]] | [Hd _]].
  - left. auto.
  - right. exact Hd.
Defined.

Lemma beagleEnv_allBanned (n : nat) :
  allExcluded beagleEnv (orDefault noBeagles (JObj [])) n.
Proof.
  exists (okResponse (JArr [beagle])), (JArr [beagle]).
  split; [reflexivity |]. split; [reflexivity |]. split; [reflexivity |].
  apply Forall_cons; [| apply Forall_nil]. vm_compute. reflexivity.
Qed.

(** Beagles only, and beagles banned. *)
Lemma handleFetch_reports_exhaustion_witness :
  exists trace,
    fst (handleFetch beagleEnv noBeagles []) =
    [SetLoading true; SetError JNull;
     SetError (JStr "No available result found after multiple attempts. Try removing some bans and try again.");
     SetDog JNull; SetLoading false] /\
    snd (handleFetch beagleEnv noBeagles []) = trace /\
    primaryCalls trace = 8%nat.
Proof.
  destruct (handleFetch_reports_exhaustion beagleEnv noBeagles [] eq_refl
              (fun n _ => beagleEnv_allBanned n)) as [trace [Hrun [Hpc _]]].
  exists trace. rewrite Hrun. auto.
Defined.

(** The life span button of a record without life span, on an empty ban
    list. *)
Lemma earlier_addBan_takes_blank_values_witness :
  addBan (NUM := IntegerNumbers) "life_span" (JStr "") (JObj []) =
  Ok (JObj []) /\
  EarlierApp.addBan (NUM := IntegerNumbers) "life_span" (JStr "") (JObj []) =
  Ok (JObj [("life_span", JArr [JStr ""])]) /\
  exists next,
    EarlierApp.addBan (NUM := IntegerNumbers) "life_span" (JStr "") (JObj []) =
    Ok next /\
    isBanned (normalizeImageObj (rawImage "n1")) next = Ok true.
Proof.
  destruct (earlier_addBan_takes_blank_values (NUM := IntegerNumbers)
              "life_span" [])
    as [Hnow [next [Hrun [_ Hexcl]]]].
  - unfold scalarKeys. cbn. auto.
  - split; [reflexivity |]. intros k v _ [].
  - split; [exact Hnow |]. split; [reflexivity |].
    exists next. split; [exact Hrun |].
    apply (Hexcl (normalizeImageObj (rawImage "n1"))).
    + exact image_Displayable.
    + reflexivity.
Defined.
